(** * Stateful Scenes: the comparison and aggregation engine

    A shallow embedding of [custom_components/stateful_scenes/StatefulScenes.py]
    (class [Scene] and the helpers it calls), with the properties of the
    comparison functions, of the per-entity matcher and of the scene
    aggregation stated and proved over it.

    Conventions of the embedding.
    - Python values are the inductive [pyval]; a [dict] is an association
      list in insertion order (iteration order is observable through [zip]).
    - [bool] is a subclass of [int] in Python, so [VBool] counts as a number
      wherever the source tests [isinstance(v, int)].
    - A float is a binary64 number: [VFloat (Fin q)] stands for the double
      nearest to the rational [q] (as Python reads a literal), the other
      three constructors for the special values of IEEE 754.  Arithmetic on
      floats rounds its exact result to the nearest double, ties to even; an
      [int] is exact and of any size, and converting one that is too large
      for a double raises [OverflowError].  The sign of a zero is not kept
      (no operation of the source tells the two zeros apart).
    - [number_tolerance] is a number, as the setter and the configuration
      make it; it is given by its exact value, and comparing it with an
      [int] or a float is exact, as in Python.
    - A Python exception is the [Raise] outcome of the [res] type; methods
      that mutate the scene or call Home Assistant live in the monad [M].
    - Logging is left out. *)

From Stdlib Require Import QArith Qabs.
From stdpp Require Import base option list strings gmap fin_maps.

Close Scope Q_scope.
Open Scope string_scope.
Open Scope list_scope.

(** ** Python values *)

Inductive pyfloat : Type :=
  | Fin (q : Q)
  | PInf
  | NInf
  | NaN.

#[local] Unset Elimination Schemes.
Inductive pyval : Type :=
  | VNone
  | VBool (b : bool)
  | VInt (z : Z)
  | VFloat (f : pyfloat)
  | VStr (s : string)
  | VList (l : list pyval)
  | VTuple (l : list pyval)
  | VDict (d : list (string * pyval)).

#[local] Set Elimination Schemes.

Abbreviation pydict := (list (string * pyval)).

(** Induction over nested values: the hypotheses for containers range over
    the elements (resp. the stored values). *)
Section pyval_induction.
Variable P : pyval → Prop.
Hypothesis HNone : P VNone.
Hypothesis HBool : ∀ b, P (VBool b).
Hypothesis HInt : ∀ z, P (VInt z).
Hypothesis HFloat : ∀ f, P (VFloat f).
Hypothesis HStr : ∀ s, P (VStr s).
Hypothesis HList : ∀ l, Forall P l → P (VList l).
Hypothesis HTuple : ∀ l, Forall P l → P (VTuple l).
Hypothesis HDict : ∀ d, Forall (λ kv, P kv.2) d → P (VDict d).

Fixpoint pyval_nested_ind (v : pyval) : P v :=
  let fix elems (l : list pyval) : Forall P l :=
    match l with
    | [] => Forall_nil_2 P
    | x :: r => Forall_cons_2 P x r (pyval_nested_ind x) (elems r)
    end in
  let fix items (d : pydict) : Forall (λ kv, P kv.2) d :=
    match d with
    | [] => Forall_nil_2 _
    | kv :: r =>
        Forall_cons_2 (λ kv, P kv.2) kv r (pyval_nested_ind kv.2) (items r)
    end in
  match v with
  | VNone => HNone
  | VBool b => HBool b
  | VInt z => HInt z
  | VFloat f => HFloat f
  | VStr s => HStr s
  | VList l => HList l (elems l)
  | VTuple l => HTuple l (elems l)
  | VDict d => HDict d (items d)
  end.
End pyval_induction.

(** ** Exceptions *)

Inductive exn : Type :=
  | TypeError
  | KeyError
  | AttributeError
  | ValueError
  | OverflowError
  | StatefulScenesYamlInvalid (msg : string).

Inductive res (A : Type) : Type :=
  | Ok (a : A)
  | Raise (e : exn).
Arguments Ok {A} a.
Arguments Raise {A} e.

#[export] Instance res_ret : MRet res := λ A a, Ok a.
#[export] Instance res_bind : MBind res := λ A B f r,
  match r with
  | Ok a => f a
  | Raise e => Raise e
  end.

(** ** Rounding to binary64 *)

Definition fneg (a : pyfloat) : pyfloat :=
  match a with
  | Fin x => Fin (- x)%Q
  | PInf => NInf
  | NInf => PInf
  | NaN => NaN
  end.

(** The integer part of the binary logarithm of [n / d] *)
Definition log2_ratio (n d : positive) : Z :=
  let k := (Z.log2 (Zpos n) - Z.log2 (Zpos d))%Z in
  if (if (0 <=? k)%Z then (Zpos d * 2 ^ k <=? Zpos n)%Z
      else (Zpos d <=? Zpos n * 2 ^ (- k))%Z)
  then k else (k - 1)%Z.

(** The double nearest to the positive rational [n / d], ties to even: a
    mantissa [m] of at most 53 bits at the exponent [e] of the rational,
    which is at least -1074 (below, the doubles are subnormal); a result
    of [2 ^ 1024] or more is an infinity. *)
Definition round_pos (n d : positive) : pyfloat :=
  let e := Z.max (log2_ratio n d - 52) (-1074) in
  let num := (if (0 <=? e)%Z then Zpos n else Zpos n * 2 ^ (- e))%Z in
  let den := (if (0 <=? e)%Z then Zpos d * 2 ^ e else Zpos d)%Z in
  let q := (num / den)%Z in
  let r := (num mod den)%Z in
  let m := (if (2 * r <? den)%Z then q
            else if (den <? 2 * r)%Z then q + 1
            else if Z.even q then q else q + 1)%Z in
  if (0 <=? e)%Z
  then if (2 ^ 1024 <=? m * 2 ^ e)%Z then PInf
       else Fin (inject_Z (m * 2 ^ e))
  else Fin (m # Z.to_pos (2 ^ (- e))).

Definition round53 (q : Q) : pyfloat :=
  let r := Qred q in
  match Qnum r with
  | Z0 => Fin 0
  | Zpos n => round_pos n (Qden r)
  | Zneg n => fneg (round_pos n (Qden r))
  end.

(** The double that a float stands for *)
Definition fround (a : pyfloat) : pyfloat :=
  match a with
  | Fin q => round53 q
  | _ => a
  end.

(** ** Float arithmetic (the operators [-], [abs], [*], [<=], [>], [==]) *)

Definition fsub (a b : pyfloat) : pyfloat :=
  match a, b with
  | NaN, _ | _, NaN => NaN
  | Fin x, Fin y => round53 (x - y)%Q
  | PInf, PInf | NInf, NInf => NaN
  | PInf, _ | _, NInf => PInf
  | NInf, _ | _, PInf => NInf
  end.

Definition fabs (a : pyfloat) : pyfloat :=
  match a with
  | Fin x => Fin (Qabs x)
  | PInf | NInf => PInf
  | NaN => NaN
  end.

Definition fsign (a : pyfloat) : comparison :=
  match a with
  | Fin x => (x ?= 0)%Q
  | PInf => Gt
  | NInf => Lt
  | NaN => Eq
  end.

Definition fmul (a b : pyfloat) : pyfloat :=
  match a, b with
  | NaN, _ | _, NaN => NaN
  | Fin x, Fin y => round53 (x * y)%Q
  | _, _ =>
      match fsign a, fsign b with
      | Eq, _ | _, Eq => NaN
      | Gt, Gt | Lt, Lt => PInf
      | _, _ => NInf
      end
  end.

Definition fle (a b : pyfloat) : bool :=
  match a, b with
  | NaN, _ | _, NaN => false
  | Fin x, Fin y => Qle_bool x y
  | NInf, _ | _, PInf => true
  | _, _ => false
  end.

Definition feq (a b : pyfloat) : bool :=
  match a, b with
  | Fin x, Fin y => Qeq_bool x y
  | PInf, PInf | NInf, NInf => true
  | _, _ => false
  end.

(** [a > b] *)
Definition fgt (a b : pyfloat) : bool :=
  match a, b with
  | NaN, _ | _, NaN => false
  | _, _ => negb (fle a b)
  end.

Definition of_int (z : Z) : pyfloat := Fin (inject_Z z).

(** ** Numbers: [int] (with [bool]) and [float] *)

Inductive pynum : Type :=
  | NInt (z : Z)
  | NFloat (f : pyfloat).

(** [isinstance(v, int) or isinstance(v, float)], with the number. *)
Definition as_pynum (v : pyval) : option pynum :=
  match v with
  | VBool b => Some (NInt (if b then 1 else 0))
  | VInt z => Some (NInt z)
  | VFloat f => Some (NFloat (fround f))
  | _ => None
  end.

(** The exact value of a number; the comparisons [<=], [>] and [==]
    between an [int] and a float are made on it. *)
Definition num_value (n : pynum) : pyfloat :=
  match n with
  | NInt z => of_int z
  | NFloat f => f
  end.

Definition as_number (v : pyval) : option pyfloat :=
  num_value <$> as_pynum v.

(** [float(n)] as the arithmetic operators apply it to an operand: an
    [int] whose nearest double is an infinity is refused. *)
Definition to_float (n : pynum) : res pyfloat :=
  match n with
  | NInt z =>
      match round53 (inject_Z z) with
      | Fin q => Ok (Fin q)
      | _ => Raise OverflowError
      end
  | NFloat f => Ok f
  end.

(** [a - b]: exact on two [int]s, a float subtraction otherwise. *)
Definition num_sub (a b : pynum) : res pynum :=
  match a, b with
  | NInt x, NInt y => Ok (NInt (x - y))
  | _, _ =>
      x ← to_float a;
      y ← to_float b;
      Ok (NFloat (fsub x y))
  end.

(** [abs(a)] *)
Definition num_abs (a : pynum) : pynum :=
  match a with
  | NInt z => NInt (Z.abs z)
  | NFloat f => NFloat (fabs f)
  end.

(** [a * factor] for a small [int] factor (1 or 100, which are doubles) *)
Definition num_mul (a : pynum) (factor : Z) : pynum :=
  match a with
  | NInt z => NInt (z * factor)
  | NFloat f => NFloat (fmul f (of_int factor))
  end.

Definition is_sequence (v : pyval) : bool :=
  match v with
  | VList _ | VTuple _ => true
  | _ => false
  end.

(** ** Dictionaries *)

(** [dict2[key]] / [key in dict2] / [d.get(key)] *)
Fixpoint dict_get {A} (key : string) (d : list (string * A)) : option A :=
  match d with
  | [] => None
  | (k, v) :: r => if String.eqb key k then Some v else dict_get key r
  end.

Definition dict_contains {A} (key : string) (d : list (string * A)) : bool :=
  match dict_get key d with Some _ => true | None => false end.

(** [zip(list1, list2)] *)
Fixpoint zip_with_pairs {A B} (l1 : list A) (l2 : list B) : list (A * B) :=
  match l1, l2 with
  | x :: r1, y :: r2 => (x, y) :: zip_with_pairs r1 r2
  | _, _ => []
  end.

(** ** Python's [==] on values

    Numbers compare by value across [bool], [int] and [float]; a list never
    equals a tuple; dictionaries compare as finite maps.  Object identity
    (which lets a container holding a NaN equal itself) is not modelled. *)
Fixpoint py_eq (a b : pyval) {struct a} : bool :=
  let fix seq_eq (l1 l2 : list pyval) {struct l1} : bool :=
    match l1, l2 with
    | [], [] => true
    | x :: r1, y :: r2 => py_eq x y && seq_eq r1 r2
    | _, _ => false
    end in
  let fix items_in (d1 d2 : pydict) {struct d1} : bool :=
    match d1 with
    | [] => true
    | (k, v) :: r =>
        match dict_get k d2 with
        | Some w => py_eq v w && items_in r d2
        | None => false
        end
    end in
  match a, b with
  | VNone, VNone => true
  | VStr s, VStr t => String.eqb s t
  | VList l1, VList l2 => seq_eq l1 l2
  | VTuple l1, VTuple l2 => seq_eq l1 l2
  | VDict d1, VDict d2 => Nat.eqb (length d1) (length d2) && items_in d1 d2
  | _, _ =>
      match as_number a, as_number b with
      | Some x, Some y => feq x y
      | _, _ => false
      end
  end.

(** ** [Scene.compare_values] and its helpers *)

Section compare.
(** [self.number_tolerance] *)
Variable number_tolerance : pyfloat.

Definition compare_numbers (number1 number2 : pynum) : res bool :=
  delta ← num_sub number1 number2;
  Ok (fle (num_value (num_abs delta)) number_tolerance).

Fixpoint compare_values (value1 value2 : pyval) {struct value1} : res bool :=
  match value1, value2 with
  | VDict dict1, VDict dict2 =>
      (fix compare_dicts (d : pydict) : res bool :=
         match d with
         | [] => Ok true
         | (key, value) :: r =>
             match dict_get key dict2 with
             | None => Ok false
             | Some other =>
                 matched ← compare_values value other;
                 if matched : bool then compare_dicts r else Ok false
             end
         end) dict1
  | (VList list1 | VTuple list1), (VList list2 | VTuple list2) =>
      (fix compare_lists (l1 l2 : list pyval) {struct l1} : res bool :=
         match l1, l2 with
         | v1 :: r1, v2 :: r2 =>
             matched ← compare_values v1 v2;
             if matched : bool then compare_lists r1 r2 else Ok false
         | _, _ => Ok true
         end) list1 list2
  | _, _ =>
      match as_pynum value1, as_pynum value2 with
      | Some number1, Some number2 => compare_numbers number1 number2
      | _, _ => Ok (py_eq value1 value2)
      end
  end.

(** The two helper methods, as the source names them; [compare_values]
    dispatches to them (lemmas [compare_values_dicts] and
    [compare_values_lists] below). *)
Fixpoint compare_dicts_items (items dict2 : pydict) : res bool :=
  match items with
  | [] => Ok true
  | (key, value) :: rest =>
      match dict_get key dict2 with
      | None => Ok false
      | Some other =>
          matched ← compare_values value other;
          if matched : bool then compare_dicts_items rest dict2 else Ok false
      end
  end.

Definition compare_dicts (dict1 dict2 : pydict) : res bool :=
  compare_dicts_items dict1 dict2.

(** The loop of [compare_lists] over [zip(list1, list2)] *)
Fixpoint compare_lists_pairs (pairs : list (pyval * pyval)) : res bool :=
  match pairs with
  | [] => Ok true
  | (value1, value2) :: rest =>
      matched ← compare_values value1 value2;
      if matched : bool then compare_lists_pairs rest else Ok false
  end.

Definition compare_lists (list1 list2 : list pyval) : res bool :=
  compare_lists_pairs (zip_with_pairs list1 list2).
End compare.

(** [list1] / [tuple1] seen as a sequence *)
Definition seq_items (v : pyval) : option (list pyval) :=
  match v with
  | VList l | VTuple l => Some l
  | _ => None
  end.

(** ** Lookups and iteration that can fail *)

(** [d[key]], raising [KeyError] on a missing key *)
Definition getitem {A} (key : string) (d : list (string * A)) : res A :=
  match dict_get key d with
  | Some v => Ok v
  | None => Raise KeyError
  end.

(** [iter(v)]: lists and tuples yield their elements, a string its
    characters, a dict its keys; nothing else is iterable. *)
Definition py_iter (v : pyval) : res (list pyval) :=
  match v with
  | VList l | VTuple l => Ok l
  | VStr s =>
      Ok ((λ c, VStr (String c EmptyString)) <$> String.list_ascii_of_string s)
  | VDict d => Ok ((λ kv, VStr kv.1) <$> d)
  | _ => Raise TypeError
  end.

(** [zip(a, b)]: both arguments are turned into iterators when [zip] is
    called, so a non-iterable argument raises even if the other is empty. *)
Definition py_zip (a b : pyval) : res (list (pyval * pyval)) :=
  l1 ← py_iter a;
  l2 ← py_iter b;
  mret (zip_with_pairs l1 l2).

(** [component1 - component2]: defined on numbers only. *)
Definition py_sub (a b : pyval) : res pynum :=
  match as_pynum a, as_pynum b with
  | Some x, Some y => num_sub x y
  | _, _ => Raise TypeError
  end.

(** ** [Scene.compare_colors] *)

Section compare_colors.
Variable number_tolerance : pyfloat.
Variable is_xy_color : bool.

(** The body of [for component1, component2 in zip(color1, color2)] *)
Fixpoint compare_colors_loop (pairs : list (pyval * pyval)) : res bool :=
  match pairs with
  | [] => Ok true
  | (component1, component2) :: rest =>
      let factor := if is_xy_color then 100%Z else 1%Z in
      delta ← py_sub component1 component2;
      if fgt (num_value (num_mul (num_abs delta) factor)) number_tolerance
      then Ok false
      else compare_colors_loop rest
  end.

Definition compare_colors (color1 color2 : pyval) : res bool :=
  match color1, color2 with
  | VNone, VNone => Ok true
  | VNone, _ | _, VNone => Ok false
  | _, _ =>
      if negb (is_sequence color1) && negb (is_sequence color2)
      then Ok false
      else pairs ← py_zip color1 color2; compare_colors_loop pairs
  end.
End compare_colors.

(** [attribute.endswith(suffix)] *)
Definition endswith (s suffix : string) : bool :=
  let n := String.length s in
  let m := String.length suffix in
  (m <=? n)%nat && String.eqb (String.substring (n - m) m s) suffix.

(** ** Home Assistant, as the scene sees it *)

(** [homeassistant.core.State] *)
Record State : Type := mkState {
  state : pyval;
  domain : string;
  attributes : pydict;
}.

(** The payload of a state-changed event *)
Record Event : Type := mkEvent {
  ev_entity_id : string;
  ev_new_state : option State;
  ev_old_state : option State;
}.

(** One [hass.services.call(...)] *)
Record ServiceCall : Type := mkServiceCall {
  sc_domain : string;
  sc_service : string;
  sc_target : list string;
  sc_service_data : pydict;
}.

(** The state machine, together with what the scene did to the platform:
    the services it called, the entities it fetched with
    [hass.states.get], and the updates it requested with
    [schedule_update]. *)
Record HomeAssistant : Type := mkHass {
  hass_states : list (string * State);
  services_calls : list ServiceCall;
  states_fetched : list string;
  updates_scheduled : list bool;
}.

(** The callable installed by [register_callback] *)
Variant callable : Type := HostCallable.

(** ** The [Scene] object *)

(** The attributes of a [Scene] that the modelled methods read or write
    ([area_id], [icon] and [learned] are left out).  The two times are
    whatever value their setter was given. *)
Record Scene : Type := mkScene {
  name : string;
  _entity_id : option string;
  _number_tolerance : pyfloat;
  _id : string;
  learn : bool;
  entities : list (string * pydict);
  _is_on : option bool;
  _transition_time : pyval;
  _restore_on_deactivate : bool;
  _debounce_time : pyval;
  _ignore_unavailable : bool;
  callback : option callable;
  callback_funcs : list (string * callable);
  schedule_update : option callable;
  states : gmap string (option bool);
  restore_states : gmap string (option State);
}.

Definition with_is_on (v : option bool) (s : Scene) : Scene :=
  mkScene (name s) (_entity_id s) (_number_tolerance s) (_id s) (learn s)
    (entities s) v (_transition_time s) (_restore_on_deactivate s)
    (_debounce_time s) (_ignore_unavailable s) (callback s) (callback_funcs s)
    (schedule_update s) (states s) (restore_states s).

Definition with_states (m : gmap string (option bool)) (s : Scene) : Scene :=
  mkScene (name s) (_entity_id s) (_number_tolerance s) (_id s) (learn s)
    (entities s) (_is_on s) (_transition_time s) (_restore_on_deactivate s)
    (_debounce_time s) (_ignore_unavailable s) (callback s) (callback_funcs s)
    (schedule_update s) m (restore_states s).

Definition with_restore_states (m : gmap string (option State)) (s : Scene)
  : Scene :=
  mkScene (name s) (_entity_id s) (_number_tolerance s) (_id s) (learn s)
    (entities s) (_is_on s) (_transition_time s) (_restore_on_deactivate s)
    (_debounce_time s) (_ignore_unavailable s) (callback s) (callback_funcs s)
    (schedule_update s) (states s) m.

Definition with_restore_on_deactivate (v : bool) (s : Scene) : Scene :=
  mkScene (name s) (_entity_id s) (_number_tolerance s) (_id s) (learn s)
    (entities s) (_is_on s) (_transition_time s) v
    (_debounce_time s) (_ignore_unavailable s) (callback s) (callback_funcs s)
    (schedule_update s) (states s) (restore_states s).

Definition with_ignore_unavailable (v : bool) (s : Scene) : Scene :=
  mkScene (name s) (_entity_id s) (_number_tolerance s) (_id s) (learn s)
    (entities s) (_is_on s) (_transition_time s) (_restore_on_deactivate s)
    (_debounce_time s) v (callback s) (callback_funcs s) (schedule_update s)
    (states s) (restore_states s).

Definition with_callback_funcs (funcs : list (string * callable)) (s : Scene)
  : Scene :=
  mkScene (name s) (_entity_id s) (_number_tolerance s) (_id s) (learn s)
    (entities s) (_is_on s) (_transition_time s) (_restore_on_deactivate s)
    (_debounce_time s) (_ignore_unavailable s) (callback s) funcs
    (schedule_update s) (states s) (restore_states s).

Definition with_registration (token schedule : option callable) (s : Scene)
  : Scene :=
  mkScene (name s) (_entity_id s) (_number_tolerance s) (_id s) (learn s)
    (entities s) (_is_on s) (_transition_time s) (_restore_on_deactivate s)
    (_debounce_time s) (_ignore_unavailable s) token (callback_funcs s)
    schedule (states s) (restore_states s).

(** ** The monad of methods: the scene and the platform as state, Python
    exceptions as errors *)

Record World : Type := mkWorld {
  self : Scene;
  hass : HomeAssistant;
}.

Definition M (A : Type) : Type := World → res A * World.

#[export] Instance M_ret : MRet M := λ A a w, (Ok a, w).
#[export] Instance M_bind : MBind M := λ A B f m w,
  match m w with
  | (Ok a, w') => f a w'
  | (Raise e, w') => (Raise e, w')
  end.

Definition raise {A} (e : exn) : M A := λ w, (Raise e, w).
Definition lift {A} (r : res A) : M A := λ w, (r, w).
Definition get_self : M Scene := λ w, (Ok (self w), w).
Definition modify_self (f : Scene → Scene) : M unit :=
  λ w, (Ok tt, mkWorld (f (self w)) (hass w)).

(** [self.hass.states.get(entity_id)] *)
Definition hass_states_get (entity_id : string) : M (option State) :=
  λ w,
    let h := hass w in
    (Ok (dict_get entity_id (hass_states h)),
     mkWorld (self w)
       (mkHass (hass_states h) (services_calls h)
          (states_fetched h ++ [entity_id]) (updates_scheduled h))).

(** [self.hass.services.call(...)] *)
Definition hass_services_call (c : ServiceCall) : M unit :=
  λ w,
    let h := hass w in
    (Ok tt,
     mkWorld (self w)
       (mkHass (hass_states h) (services_calls h ++ [c])
          (states_fetched h) (updates_scheduled h))).

(** [self.schedule_update(arg)]; calling [None] is a [TypeError]. *)
Definition call_schedule_update (arg : bool) : M unit :=
  λ w,
    match schedule_update (self w) with
    | None => (Raise TypeError, w)
    | Some HostCallable =>
        let h := hass w in
        (Ok tt,
         mkWorld (self w)
           (mkHass (hass_states h) (services_calls h)
              (states_fetched h) (updates_scheduled h ++ [arg])))
    end.

(** Truthiness of a cached result: [not x] is true for [False] and [None]. *)
Definition truthy (x : option bool) : bool :=
  match x with
  | Some true => true
  | _ => false
  end.

(** [str + x]: concatenation with anything but a string is a [TypeError]. *)
Definition py_str_add (a : string) (b : option string) : res string :=
  match b with
  | Some s => Ok (a +:+ s)
  | None => Raise TypeError
  end.

(** ** Methods of [Scene] *)

Section scene.
(** The table [ATTRIBUTES_TO_CHECK] of [const.py]: for each domain, the
    attribute names that take part in the comparison, in iteration order. *)
Variable ATTRIBUTES_TO_CHECK : list (string * list string).

(** The assignment to [match] inside the attribute loop: colours go
    through [compare_colors], everything else through [compare_values]. *)
Definition attribute_compare (number_tolerance : pyfloat)
    (attribute : string) (value1 value2 : pyval) : res bool :=
  if endswith attribute "_color"
  then compare_colors number_tolerance (String.eqb attribute "xy_color")
         value1 value2
  else compare_values number_tolerance value1 value2.

(** The loop [for attribute in ATTRIBUTES_TO_CHECK.get(domain)], which
    [check_state] and [is_interesting_update] share word for word:
    [Ok false] when an attribute present on both sides does not match (the
    loop returns there), [Ok true] when the loop runs to its end. *)
Fixpoint attributes_match (number_tolerance : pyfloat)
    (wanted got : pydict) (attrs : list string) : res bool :=
  match attrs with
  | [] => Ok true
  | attribute :: rest =>
      match dict_get attribute wanted, dict_get attribute got with
      | Some w, Some g =>
          matched ← attribute_compare number_tolerance attribute w g;
          if matched : bool
          then attributes_match number_tolerance wanted got rest
          else Ok false
      | _, _ => attributes_match number_tolerance wanted got rest
      end
  end.

Definition check_state (self : Scene) (entity_id : string)
    (new_state : option State) : res (option bool) :=
  match new_state with
  | None => Ok (Some false)
  | Some new_state =>
      if _ignore_unavailable self
         && py_eq (state new_state) (VStr "unavailable")
      then Ok None
      else
        wanted ← getitem entity_id (entities self);
        wanted_state ← getitem "state" wanted;
        state_matched ← compare_values (_number_tolerance self) wanted_state
                          (state new_state);
        if negb state_matched
        then Ok (Some false)
        else
          match dict_get (domain new_state) ATTRIBUTES_TO_CHECK with
          | Some attrs =>
              matched ← attributes_match (_number_tolerance self) wanted
                          (attributes new_state) attrs;
              Ok (Some matched)
          | None => Ok (Some true)
          end
  end.

Definition is_interesting_update (self : Scene)
    (old_state new_state : option State) : res bool :=
  match old_state with
  | None => Ok true
  | Some old_state =>
      new_state ← (match new_state with
                   | Some n => Ok n
                   | None => Raise AttributeError
                   end);
      state_matched ← compare_values (_number_tolerance self)
                        (state old_state) (state new_state);
      if negb state_matched
      then Ok true
      else
        match dict_get (domain new_state) ATTRIBUTES_TO_CHECK with
        | Some attrs =>
            matched ← attributes_match (_number_tolerance self)
                        (attributes old_state) (attributes new_state) attrs;
            Ok (negb matched)
        | None => Ok false
        end
  end.

Definition store_entity_state (entity_id : string) (state : option State)
  : M unit :=
  modify_self (λ s,
    with_restore_states (<[entity_id := state]> (restore_states s)) s).

(** [update_callback]: the debounce sleep between the test and the request
    ([await asyncio.sleep(self.debounce_time)], the only reader of
    [_debounce_time]) is a suspension point and is not modelled: the
    callback is taken to be resumed after it. *)
Definition update_callback (event : Event) : M unit :=
  let entity_id := ev_entity_id event in
  let new_state := ev_new_state event in
  let old_state := ev_old_state event in
  store_entity_state entity_id old_state;;
  self ← get_self;
  interesting ← lift (is_interesting_update self old_state new_state);
  if interesting : bool then call_schedule_update true else mret tt.

(** The [for entity_id in self.entities] loop of [check_all_states]; the
    result tells whether the loop left the method through its [return]. *)
Fixpoint check_all_states_loop (entity_ids : list string) : M bool :=
  match entity_ids with
  | [] => mret false
  | entity_id :: rest =>
      state ← hass_states_get entity_id;
      self ← get_self;
      result ← lift (check_state self entity_id state);
      modify_self (λ s, with_states (<[entity_id := result]> (states s)) s);;
      self ← get_self;
      cached ← lift (match states self !! entity_id with
                     | Some r => Ok r
                     | None => Raise KeyError
                     end);
      if negb (_restore_on_deactivate self) && negb (truthy cached)
      then modify_self (with_is_on (Some false));; mret true
      else check_all_states_loop rest
  end.

(** [[state for state in self.states.values() if state is not None]]; the
    list is only tested for emptiness and passed to [all], so the order of
    the values plays no role. *)
Definition known_states (m : gmap string (option bool)) : list bool :=
  omap id (map_to_list m).*2.

(** [all(states)] *)
Definition all (states : list bool) : bool := forallb id states.

Definition check_all_states : M unit :=
  self ← get_self;
  returned ← check_all_states_loop (entities self).*1;
  if returned : bool then mret tt
  else
    self ← get_self;
    let states := known_states (states self) in
    (if bool_decide (states = [])
     then modify_self (with_is_on (Some false))
     else mret tt);;
    modify_self (with_is_on (Some (all states))).

(** [register_callback]: the subscription made by [state_change_func] is
    the platform's business; only the token it returns is kept. *)
Definition register_callback : M unit :=
  self ← get_self;
  let schedule_update_func :=
    dict_get "schedule_update_func" (callback_funcs self) in
  let state_change_func :=
    dict_get "state_change_func" (callback_funcs self) in
  match schedule_update_func, state_change_func with
  | Some schedule, Some subscribe =>
      modify_self (with_registration (Some subscribe) (Some schedule))
  | _, _ => raise ValueError
  end.

Definition set_ignore_unavailable (ignore_unavailable : bool) : M unit :=
  modify_self (with_ignore_unavailable ignore_unavailable).

Definition set_restore_on_deactivate (restore_on_deactivate : bool) : M unit :=
  self ← get_self;
  let run_update :=
    negb (_restore_on_deactivate self) && restore_on_deactivate in
  modify_self (with_restore_on_deactivate restore_on_deactivate);;
  self ← get_self;
  if run_update && _restore_on_deactivate self then check_all_states
  else mret tt.
End scene.

Definition turn_on : M unit :=
  self ← get_self;
  match _entity_id self with
  | None =>
      msg ← lift (py_str_add ("Cannot find entity_id for: " +:+ name self)
                    (_entity_id self));
      raise (StatefulScenesYamlInvalid msg)
  | Some entity_id =>
      hass_services_call
        (mkServiceCall "scene" "turn_on" [entity_id]
           [("transition", _transition_time self)]);;
      modify_self (with_is_on (Some true))
  end.

(** ** Construction *)

(** The loop of [get_entity_id_from_id] over the states of domain
    [scene], each fetched with [hass.states.get]. *)
Fixpoint get_entity_id_from_id_loop (scenes : list (string * State))
    (id : string) (fetched : list string) : option string * list string :=
  match scenes with
  | [] => (None, fetched)
  | (entity_id, st) :: rest =>
      let id_attr := default VNone (dict_get "id" (attributes st)) in
      if py_eq id_attr (VStr id) then (Some entity_id, fetched ++ [entity_id])
      else get_entity_id_from_id_loop rest id (fetched ++ [entity_id])
  end.

Definition get_entity_id_from_id (h : HomeAssistant) (id : string)
  : option string * HomeAssistant :=
  let scenes := filter (λ p, domain p.2 = "scene") (hass_states h) in
  let '(found, fetched) :=
    get_entity_id_from_id_loop scenes id (states_fetched h) in
  (found,
   mkHass (hass_states h) (services_calls h) fetched (updates_scheduled h)).

(** The entries of [scene_conf] that the modelled methods use *)
Record SceneConf : Type := mkSceneConf {
  conf_name : string;
  conf_entity_id : option string;
  conf_number_tolerance : pyfloat;
  conf_id : string;
  conf_learn : bool;
  conf_entities : list (string * pydict);
}.

(** [Scene.__init__] *)
Definition Scene_init (h : HomeAssistant) (scene_conf : SceneConf) : World :=
  let '(entity_id, h') :=
    match conf_entity_id scene_conf with
    | Some e => (Some e, h)
    | None => get_entity_id_from_id h (conf_id scene_conf)
    end in
  let ids := (conf_entities scene_conf).*1 in
  mkWorld
    (mkScene (conf_name scene_conf) entity_id
       (conf_number_tolerance scene_conf) (conf_id scene_conf)
       (conf_learn scene_conf) (conf_entities scene_conf)
       None (VFloat (Fin 0)) true (VInt 0) false None [] None
       (list_to_map ((λ e, (e, Some false)) <$> ids))
       (list_to_map ((λ e, (e, None)) <$> ids)))
    h'.

(** ** Sequences of operations on a scene *)

Inductive operation : Type :=
  | OpUpdateCallback (event : Event)
  | OpCheckAllStates.

Definition run_operation (table : list (string * list string))
    (op : operation) : M unit :=
  match op with
  | OpUpdateCallback event => update_callback table event
  | OpCheckAllStates => check_all_states table
  end.

(** Operations are run one after the other; an exception ends the
    operation that raised it and the next one starts from the state it
    left behind. *)
Fixpoint run_operations (table : list (string * list string))
    (ops : list operation) (w : World) : World :=
  match ops with
  | [] => w
  | op :: rest => run_operations table rest (run_operation table op w).2
  end.

(** ** Well-formed and finite values *)

(** The keys of a Python dict are pairwise distinct. *)
Fixpoint keys_distinct {A} (d : list (string * A)) : bool :=
  match d with
  | [] => true
  | (k, _) :: r => negb (dict_contains k r) && keys_distinct r
  end.

(** Every dict inside the value has distinct keys (true of every value
    that Python can build). *)
Fixpoint well_formed (v : pyval) : bool :=
  match v with
  | VList l | VTuple l => forallb well_formed l
  | VDict d => keys_distinct d && forallb (λ kv, well_formed kv.2) d
  | _ => true
  end.

(** No NaN and no infinity anywhere inside the value. *)
Fixpoint is_finite (v : pyval) : bool :=
  match v with
  | VFloat f => match fround f with Fin _ => true | _ => false end
  | VList l | VTuple l => forallb is_finite l
  | VDict d => forallb (λ kv, is_finite kv.2) d
  | _ => true
  end.

(** ** The scan of [check_all_states], step by step *)

(** What one iteration computes for an entity: [check_state] on the state
    that [hass.states.get] returns. *)
Definition live_result (table : list (string * list string)) (w : World)
    (entity_id : string) : res (option bool) :=
  check_state table (self w) entity_id
    (dict_get entity_id (hass_states (hass w))).

(** The world once the loop has gone through [entity_ids] and cached
    [results] for them, without leaving the method. *)
Definition after_scan (w : World) (entity_ids : list string)
    (results : list (option bool)) : World :=
  mkWorld
    (with_states
       (foldl (λ m p, <[p.1 := p.2]> m) (states (self w))
          (zip_with_pairs entity_ids results))
       (self w))
    (mkHass (hass_states (hass w)) (services_calls (hass w))
       (states_fetched (hass w) ++ entity_ids) (updates_scheduled (hass w))).

(** ** The two caches

    The property that each cached match result is what [check_state] gives
    for the cached observation of the same entity. *)
Definition caches_agree (table : list (string * list string)) (w : World)
  : Prop :=
  ∀ entity_id result observation,
    states (self w) !! entity_id = Some result →
    restore_states (self w) !! entity_id = Some observation →
    check_state table (self w) entity_id observation = Ok result.

(** What an operation does to [restore_states]. *)
Definition record_event (m : gmap string (option State)) (op : operation)
  : gmap string (option State) :=
  match op with
  | OpUpdateCallback event => <[ev_entity_id event := ev_old_state event]> m
  | OpCheckAllStates => m
  end.

(** ** Shapes of values *)

Inductive kind : Type :=
  | KNone
  | KNumber
  | KString
  | KSequence
  | KMapping.

(** The shape that [compare_values] looks at: [bool], [int] and [float]
    are numbers, lists and tuples are sequences. *)
Definition kind_of (v : pyval) : kind :=
  match v with
  | VNone => KNone
  | VBool _ | VInt _ | VFloat _ => KNumber
  | VStr _ => KString
  | VList _ | VTuple _ => KSequence
  | VDict _ => KMapping
  end.

(** No dict anywhere inside the value. *)
Fixpoint no_dict (v : pyval) : bool :=
  match v with
  | VDict _ => false
  | VList l | VTuple l => forallb no_dict l
  | _ => true
  end.

(** A number that is neither a NaN nor an infinity. *)
Definition finite_number (v : pyval) : bool :=
  match as_number v with
  | Some (Fin _) => true
  | _ => false
  end.

(** An [int] (or a [bool]), as the components of an RGB colour are. *)
Definition int_like (v : pyval) : bool :=
  match v with
  | VBool _ | VInt _ => true
  | _ => false
  end.

(** ** The other methods of [Scene] *)

Definition with_number_tolerance (t : pyfloat) (s : Scene) : Scene :=
  mkScene (name s) (_entity_id s) t (_id s) (learn s)
    (entities s) (_is_on s) (_transition_time s) (_restore_on_deactivate s)
    (_debounce_time s) (_ignore_unavailable s) (callback s) (callback_funcs s)
    (schedule_update s) (states s) (restore_states s).

Definition with_transition_time (t : pyval) (s : Scene) : Scene :=
  mkScene (name s) (_entity_id s) (_number_tolerance s) (_id s) (learn s)
    (entities s) (_is_on s) t (_restore_on_deactivate s)
    (_debounce_time s) (_ignore_unavailable s) (callback s) (callback_funcs s)
    (schedule_update s) (states s) (restore_states s).

Definition with_debounce_time (t : pyval) (s : Scene) : Scene :=
  mkScene (name s) (_entity_id s) (_number_tolerance s) (_id s) (learn s)
    (entities s) (_is_on s) (_transition_time s) (_restore_on_deactivate s)
    t (_ignore_unavailable s) (callback s) (callback_funcs s)
    (schedule_update s) (states s) (restore_states s).

(** The truth value of a value: [None], [False], a zero, an empty string
    and an empty container are falsy. *)
Definition py_bool (v : pyval) : bool :=
  match v with
  | VNone => false
  | VBool b => b
  | VInt z => negb (z =? 0)%Z
  | VFloat f => negb (feq (fround f) (Fin 0))
  | VStr s => negb (String.eqb s "")
  | VList l | VTuple l => negb (Nat.eqb (length l) 0)
  | VDict d => negb (Nat.eqb (length d) 0)
  end.

(** [set_transition_time]: the argument is stored as it comes. *)
Definition set_transition_time (transition_time : pyval) : M unit :=
  modify_self (with_transition_time transition_time).

(** [set_debounce_time]: [debounce_time or 0.0] *)
Definition set_debounce_time (debounce_time : pyval) : M unit :=
  modify_self (with_debounce_time
                 (if py_bool debounce_time then debounce_time
                  else VFloat (Fin 0))).

(** [d[key] = value] on an insertion-ordered dict: an existing key keeps
    its place, a new one goes to the end. *)
Fixpoint dict_set {A} (key : string) (value : A) (d : list (string * A))
  : list (string * A) :=
  match d with
  | [] => [(key, value)]
  | (k, v) :: r =>
      if String.eqb key k then (k, value) :: r
      else (k, v) :: dict_set key value r
  end.

(** [x or 0] for a number or [None]: zero and [None] are falsy. *)
Definition or_zero (x : option pyfloat) : pyfloat :=
  match x with
  | Some v => if feq v (Fin 0) then of_int 0 else v
  | None => of_int 0
  end.

Definition set_number_tolerance (number_tolerance : option pyfloat) : M unit :=
  modify_self (with_number_tolerance (or_zero number_tolerance)).

(** [unregister_callback]: calling the token cancels the subscription on
    the platform's side; the scene forgets the token. *)
Definition unregister_callback : M unit :=
  self ← get_self;
  match callback self with
  | Some HostCallable =>
      modify_self (with_registration None (schedule_update self))
  | None => mret tt
  end.

Section restore.
Variable ATTRIBUTES_TO_CHECK : list (string * list string).

(** What [restore] puts into [entities] for one stored state: its state
    and those attributes of the table that the stored state has. *)
Definition restore_entry (stored : State) : pydict :=
  let entry := [("state", state stored)] in
  match dict_get (domain stored) ATTRIBUTES_TO_CHECK with
  | Some attrs =>
      foldl (λ entry attribute,
               match dict_get attribute (attributes stored) with
               | None => entry
               | Some value => dict_set attribute value entry
               end) entry attrs
  | None => entry
  end.

(** The dict [entities] that [restore] builds, as a finite map: entities
    whose stored state is [None] are passed over. *)
Definition restore_entities (self : Scene) : gmap string pydict :=
  omap (λ stored : option State, restore_entry <$> stored)
       (restore_states self).

(** [restore]: one call of [scene.apply].  In the logged [service_data]
    the keys of [entities] come in the enumeration order of the finite
    map, which stands for no order in particular. *)
Definition restore : M unit :=
  self ← get_self;
  let entities := restore_entities self in
  let service_data :=
    [("entities", VDict (map_to_list (VDict <$> entities)))] in
  let service_data :=
    match _transition_time self with
    | VNone => service_data
    | transition_time => dict_set "transition" transition_time service_data
    end in
  hass_services_call (mkServiceCall "scene" "apply" [] service_data).

(** [turn_off]; a call without [service_data] is logged with an empty
    one. *)
Definition turn_off : M unit :=
  self ← get_self;
  if negb (truthy (_is_on self)) then mret tt
  else
    (if _restore_on_deactivate self then restore
     else hass_services_call
            (mkServiceCall "homeassistant" "turn_off" (entities self).*1 []));;
    modify_self (with_is_on (Some false)).
End restore.

(** [Scene.learn_scene_states], a static method: it uses the platform
    only.  [conf[entity].update(state.attributes)] sets the attributes
    one by one, so an attribute named [state] replaces the state. *)
Definition learned_entry (st : State) : pydict :=
  foldl (λ d kv, dict_set kv.1 kv.2 d) [("state", state st)] (attributes st).

Fixpoint learn_scene_states_loop (entities : list string)
    (conf : list (string * pydict)) : M (list (string * pydict)) :=
  match entities with
  | [] => mret conf
  | entity :: rest =>
      found ← hass_states_get entity;
      match found with
      | None => raise AttributeError
      | Some st =>
          learn_scene_states_loop rest (dict_set entity (learned_entry st) conf)
      end
  end.

Definition learn_scene_states (entities : list string)
  : M (list (string * pydict)) :=
  learn_scene_states_loop entities [].

(** ** [Hub]: validating and extracting a scene configuration

    A scene configuration is the dict that the YAML loader produced; its
    keys are strings here. *)

(** [x in container] for a string [x]: a key of a dict, an element of a
    list or tuple, a substring of a string; anything else is a
    [TypeError]. *)
Definition py_contains (x : string) (container : pyval) : res bool :=
  match container with
  | VDict d => Ok (dict_contains x d)
  | VList l | VTuple l => Ok (existsb (py_eq (VStr x)) l)
  | VStr s =>
      Ok (match String.index 0 x s with Some _ => true | None => false end)
  | _ => Raise TypeError
  end.

(** [container.items()]: only a dict has the method. *)
Definition py_items (container : pyval) : res pydict :=
  match container with
  | VDict d => Ok d
  | _ => Raise AttributeError
  end.

(** [container[key]] for a string key: a dict looks it up, everything else
    refuses a string index. *)
Definition py_getitem (key : string) (container : pyval) : res pyval :=
  match container with
  | VDict d => getitem key d
  | _ => Raise TypeError
  end.

(** [prefix + value] for a string [prefix] *)
Definition py_add_str (prefix : string) (value : pyval) : res string :=
  match value with
  | VStr s => Ok (prefix +:+ s)
  | _ => Raise TypeError
  end.

(** The argument of [StatefulScenesYamlInvalid] in [validate_scene]:
    [prefix + scene_conf["name"]]. *)
Definition missing_message (prefix : string) (scene_conf : pydict)
  : res string :=
  scene_name ← getitem "name" scene_conf;
  py_add_str prefix scene_name.

(** The loop of [validate_scene] over the entities *)
Fixpoint validate_entities (items scene_conf : pydict) : res bool :=
  match items with
  | [] => Ok true
  | (entity_id, scene_attributes) :: rest =>
      has_state ← py_contains "state" scene_attributes;
      if has_state : bool then validate_entities rest scene_conf
      else
        msg ← missing_message
                 ("Scene is missing state for entity " +:+ entity_id)
                 scene_conf;
        Raise (StatefulScenesYamlInvalid msg)
  end.

Definition validate_scene (scene_conf : pydict) : res bool :=
  if negb (dict_contains "entities" scene_conf)
  then
    msg ← missing_message "Scene is missing entities: " scene_conf;
    Raise (StatefulScenesYamlInvalid msg)
  else if negb (dict_contains "id" scene_conf)
  then
    msg ← missing_message "Scene is missing id: " scene_conf;
    Raise (StatefulScenesYamlInvalid msg)
  else
    entities ← getitem "entities" scene_conf;
    items ← py_items entities;
    validate_entities items scene_conf.

(** [entity_id.split(".")[0]] *)
Fixpoint domain_of (entity_id : string) : string :=
  match entity_id with
  | EmptyString => EmptyString
  | String c rest =>
      if String.eqb (String c EmptyString) "." then EmptyString
      else String c (domain_of rest)
  end.

Section extract.
Variable ATTRIBUTES_TO_CHECK : list (string * list string).

(** The attributes kept for one entity: its state and, when the domain is
    in the table, the configured attributes that the table lists. *)
Definition extract_attributes (entity_id : string) (scene_attributes : pyval)
  : res pydict :=
  wanted_state ← py_getitem "state" scene_attributes;
  let attributes := [("state", wanted_state)] in
  match dict_get (domain_of entity_id) ATTRIBUTES_TO_CHECK with
  | Some attrs =>
      items ← py_items scene_attributes;
      Ok (foldl (λ attributes kv,
                   if bool_decide (kv.1 ∈ attrs)
                   then dict_set kv.1 kv.2 attributes
                   else attributes) attributes items)
  | None => Ok attributes
  end.

(** The first loop of [extract_scene_configuration], which builds
    [entities]; the rest of the method passes the configuration on and asks
    helpers outside this file for the icon and the area. *)
Fixpoint extract_entities_loop (items : pydict)
    (entities : list (string * pydict)) : res (list (string * pydict)) :=
  match items with
  | [] => Ok entities
  | (entity_id, scene_attributes) :: rest =>
      attributes ← extract_attributes entity_id scene_attributes;
      extract_entities_loop rest (dict_set entity_id attributes entities)
  end.

Definition extract_entities (scene_conf : pydict)
  : res (list (string * pydict)) :=
  configured_entities ← getitem "entities" scene_conf;
  items ← py_items configured_entities;
  extract_entities_loop items [].
End extract.

(** ** Everything a scene can be asked to do *)

Inductive action : Type :=
  | ActTurnOn
  | ActTurnOff
  | ActSetRestoreOnDeactivate (v : bool)
  | ActSetIgnoreUnavailable (v : bool)
  | ActSetNumberTolerance (t : option pyfloat)
  | ActSetTransitionTime (t : pyval)
  | ActSetDebounceTime (t : pyval)
  | ActRegisterCallback
  | ActUnregisterCallback
  | ActUpdateCallback (event : Event)
  | ActCheckAllStates.

Definition run_action (table : list (string * list string)) (a : action)
  : M unit :=
  match a with
  | ActTurnOn => turn_on
  | ActTurnOff => turn_off table
  | ActSetRestoreOnDeactivate v => set_restore_on_deactivate table v
  | ActSetIgnoreUnavailable v => set_ignore_unavailable v
  | ActSetNumberTolerance t => set_number_tolerance t
  | ActSetTransitionTime t => set_transition_time t
  | ActSetDebounceTime t => set_debounce_time t
  | ActRegisterCallback => register_callback
  | ActUnregisterCallback => unregister_callback
  | ActUpdateCallback event => update_callback table event
  | ActCheckAllStates => check_all_states table
  end.

(** As with [run_operations], an exception ends the action that raised
    it and the next one starts from the state it left behind. *)
Fixpoint run_actions (table : list (string * list string))
    (acts : list action) (w : World) : World :=
  match acts with
  | [] => w
  | a :: rest => run_actions table rest (run_action table a w).2
  end.

(** The two actions that switch the scene. *)
Definition is_switch (a : action) : bool :=
  match a with
  | ActTurnOn | ActTurnOff => true
  | _ => false
  end.

Definition is_callback (a : action) : bool :=
  match a with
  | ActUpdateCallback _ => true
  | _ => false
  end.

(** A value that an attribute can hold so that it matches itself: for a
    colour attribute [None] or a sequence of finite numbers, for any other
    attribute a value without NaN and infinity. *)
Definition self_matching (attribute : string) (v : pyval) : bool :=
  if endswith attribute "_color"
  then match v with
       | VNone => true
       | VList l | VTuple l => forallb finite_number l
       | _ => false
       end
  else well_formed v && is_finite v.

(** ** Concrete inputs used in the examples below *)

Definition sample_value : pyval :=
  VDict [("state", VStr "on"); ("brightness", VInt 100);
         ("rgb_color", VTuple [VInt 255; VInt 0; VInt 0]);
         ("xy_color", VList [VFloat (Fin (1 # 2)); VFloat (Fin (2 # 5))]);
         ("nested", VDict [("flag", VBool true); ("none", VNone)])].

(** Modelled from the spec: the table [ATTRIBUTES_TO_CHECK] of [const.py],
    which is not among the sources; this is the default that section 6 of
    the specification lists. *)
Definition spec_attributes_to_check : list (string * list string) :=
  [("light", ["brightness"; "color_temp"; "rgb_color"; "xy_color";
              "hs_color"; "effect"]);
   ("climate", ["temperature"; "hvac_mode"]);
   ("switch", []);
   ("cover", ["current_position"]);
   ("media_player", ["volume_level"; "source"])].

Definition red : pyval := VList [VInt 255; VInt 0; VInt 0].

(** The float [0.1], as a tolerance. *)
Definition tenth : pyfloat := fround (Fin (1 # 10)).

(** A scene of two lights, tolerance 3. *)
Definition living_room_conf : SceneConf :=
  mkSceneConf "Living room" (Some "scene.living_room") (of_int 3)
    "1700000000000" false
    [("light.sofa", [("state", VStr "on"); ("brightness", VInt 100)]);
     ("light.lamp", [("state", VStr "on"); ("rgb_color", red)])].

(** The same scene with the colour of the lamp written as a string. *)
Definition mistyped_conf : SceneConf :=
  mkSceneConf "Living room" (Some "scene.living_room") (of_int 3)
    "1700000000000" false
    [("light.sofa", [("state", VStr "on"); ("brightness", VInt 100)]);
     ("light.lamp", [("state", VStr "on"); ("rgb_color", VStr "255,0,0")])].

Definition light (st : string) (attrs : pydict) : State :=
  mkState (VStr st) "light" attrs.

Definition hass_with (sts : list (string * State)) : HomeAssistant :=
  mkHass sts [] [] [].

Definition both_unavailable : HomeAssistant :=
  hass_with [("light.sofa", light "unavailable" []);
             ("light.lamp", light "unavailable" [])].

Definition both_matching : HomeAssistant :=
  hass_with [("light.sofa", light "on" [("brightness", VInt 102)]);
             ("light.lamp", light "on" [("rgb_color", VTuple [VInt 254; VInt 1; VInt 0])])].

(** The sofa light is unavailable, the lamp matches. *)
Definition sofa_unavailable : HomeAssistant :=
  hass_with [("light.sofa", light "unavailable" []);
             ("light.lamp", light "on" [("rgb_color", red)])].

(** The sofa light is off, the lamp matches. *)
Definition sofa_off : HomeAssistant :=
  hass_with [("light.sofa", light "off" []);
             ("light.lamp", light "on" [("rgb_color", red)])].

(** A scene of three entities of different domains. *)
Definition hallway_conf : SceneConf :=
  mkSceneConf "Hallway" (Some "scene.hallway") (of_int 3)
    "1700000000001" false
    [("switch.fan", [("state", VStr "on")]);
     ("light.ceiling", [("state", VStr "on"); ("brightness", VInt 200)]);
     ("cover.blind", [("state", VStr "open")])].

(** The fan is on, the ceiling light is off, the blind is open. *)
Definition hallway_ceiling_off : HomeAssistant :=
  hass_with [("switch.fan", mkState (VStr "on") "switch" []);
             ("light.ceiling", light "off" []);
             ("cover.blind", mkState (VStr "open") "cover" [])].

(** The fan is on, the ceiling light is unavailable, the blind is open. *)
Definition hallway_ceiling_unavailable : HomeAssistant :=
  hass_with [("switch.fan", mkState (VStr "on") "switch" []);
             ("light.ceiling", light "unavailable" []);
             ("cover.blind", mkState (VStr "open") "cover" [])].

(** A scene whose [entity_id] is neither configured nor found by its id. *)
Definition orphan_conf : SceneConf :=
  mkSceneConf "Orphan" None (of_int 3) "1700000000002" false
    [("light.sofa", [("state", VStr "on")])].

(** The sofa light went from on (at the wanted brightness) to off. *)
Definition sofa_turned_off : Event :=
  mkEvent "light.sofa" (Some (light "off" []))
    (Some (light "on" [("brightness", VInt 100)])).

(** The world after [Scene(hass, conf)], once the platform has supplied
    its callback functions, the scene has registered and the two flags
    have been set. *)
Definition configured (h : HomeAssistant) (conf : SceneConf)
    (restore_on_deactivate ignore_unavailable : bool) : World :=
  let w := Scene_init h conf in
  let w :=
    mkWorld
      (with_callback_funcs [("schedule_update_func", HostCallable);
                            ("state_change_func", HostCallable)] (self w))
      (hass w) in
  let w := (register_callback w).2 in
  let w := (set_ignore_unavailable ignore_unavailable w).2 in
  mkWorld (with_restore_on_deactivate restore_on_deactivate (self w)) (hass w).

(** Two observations of the sofa light that differ in attributes outside
    the table only. *)
Definition sofa_plain : State :=
  light "on" [("brightness", VInt 100)].

Definition sofa_decorated : State :=
  light "on" [("friendly_name", VStr "Sofa"); ("brightness", VInt 100);
              ("supported_features", VInt 44)].

(** An earlier observation of the same light, filed under another domain
    and with another attribute outside the table. *)
Definition sofa_relabelled : State :=
  mkState (VStr "on") "switch"
    [("brightness", VInt 100); ("icon", VStr "mdi:sofa")].

(** The sofa light matches; the lamp reports its colour as a number. *)
Definition lamp_color_number : HomeAssistant :=
  hass_with [("light.sofa", light "on" [("brightness", VInt 100)]);
             ("light.lamp", light "on" [("rgb_color", VInt 5)])].

(** [all] of the results that are not [None] *)
Definition no_mismatch (results : list (option bool)) : bool :=
  forallb (λ r, match r with Some false => false | _ => true end) results.

(** A configuration as the YAML loader delivers it. *)
Definition porch_yaml : pydict :=
  [("name", VStr "Porch"); ("id", VStr "1700000000003");
   ("entities",
    VDict [("light.porch",
            VDict [("brightness", VInt 180); ("state", VStr "on");
                   ("friendly_name", VStr "Porch light")]);
           ("sensor.door",
            VDict [("state", VStr "off"); ("battery", VInt 90)])])].

(** The scene that the extraction of [porch_yaml] gives. *)
Definition porch_conf : SceneConf :=
  mkSceneConf "Porch" (Some "scene.porch") (of_int 3) "1700000000003" false
    [("light.porch", [("state", VStr "on"); ("brightness", VInt 180)]);
     ("sensor.door", [("state", VStr "off")])].

(** A lamp as the platform reports it, and the scene learned from it. *)
Definition lamp_reported : State :=
  light "on" [("brightness", VInt 102);
              ("rgb_color", VTuple [VInt 254; VInt 1; VInt 0]);
              ("friendly_name", VStr "Lamp")].

Definition learned_conf : SceneConf :=
  mkSceneConf "Learned" (Some "scene.learned") (of_int 3) "1700000000004"
    true [("light.lamp", learned_entry lamp_reported)].

(** * Properties *)

(** ** [compare_values] dispatches to [compare_dicts] and [compare_lists] *)

Lemma compare_values_dicts tol dict1 dict2 :
  compare_values tol (VDict dict1) (VDict dict2) = compare_dicts tol dict1 dict2.
Proof.
  unfold compare_dicts. cbn [compare_values].
  induction dict1 as [|[key value] r IH]; [done|].
  cbn [compare_dicts_items]. destruct (dict_get key dict2) as [other|]; [|done].
  destruct (compare_values tol value other) as [[]|]; [exact IH|done..].
Qed.

Lemma compare_values_lists tol value1 value2 list1 list2 :
  seq_items value1 = Some list1 → seq_items value2 = Some list2 →
  compare_values tol value1 value2 = compare_lists tol list1 list2.
Proof.
  intros H1 H2.
  assert (Hfix : ∀ l1 l2,
    (fix compare_lists (l1 l2 : list pyval) {struct l1} : res bool :=
       match l1, l2 with
       | v1 :: r1, v2 :: r2 =>
           matched ← compare_values tol v1 v2;
           if matched : bool then compare_lists r1 r2 else Ok false
       | _, _ => Ok true
       end) l1 l2 = compare_lists tol l1 l2).
  { unfold compare_lists. induction l1 as [|v1 r1 IH]; intros [|v2 r2]; try done.
    cbn [zip_with_pairs compare_lists_pairs]. rewrite IH.
    by destruct (compare_values tol v1 v2) as [[]|]. }
  destruct value1; try discriminate; destruct value2; try discriminate;
    cbn in H1, H2; simplify_eq; cbn [compare_values]; apply Hfix.
Qed.

(** Values that are not both dicts, both sequences or both numbers reach
    the final [value1 == value2]. *)
Lemma compare_values_scalars tol value1 value2 :
  as_number value1 = None → seq_items value1 = None →
  (∀ d, value1 ≠ VDict d) →
  compare_values tol value1 value2 = Ok (py_eq value1 value2).
Proof.
  intros Hn Hs Hd. destruct value1; try discriminate; try done.
  by destruct (Hd d).
Qed.

(** ** Association lists *)

Lemma dict_get_elem_of {A} key (d : list (string * A)) v :
  dict_get key d = Some v → (key, v) ∈ d.
Proof.
  induction d as [|[k x] r IH]; [done|]. cbn.
  destruct (String.eqb_spec key k) as [->|Hne].
  - intros [= ->]. left.
  - intros H. right. auto.
Qed.

Lemma dict_get_NoDup {A} key (d : list (string * A)) v :
  NoDup d.*1 → (key, v) ∈ d → dict_get key d = Some v.
Proof.
  induction d as [|[k x] r IH]; cbn; intros Hnd Hin.
  - by apply elem_of_nil in Hin.
  - apply NoDup_cons in Hnd as [Hk Hnd].
    apply elem_of_cons in Hin as [[= -> ->]|Hin].
    + by rewrite String.eqb_refl.
    + destruct (String.eqb_spec key k) as [->|Hne]; [|auto].
      destruct Hk. apply list_elem_of_fmap. by exists (k, v).
Qed.

Lemma zip_with_pairs_lookup {A B} (l1 : list A) (l2 : list B) i x y :
  zip_with_pairs l1 l2 !! i = Some (x, y) ↔ l1 !! i = Some x ∧ l2 !! i = Some y.
Proof.
  revert l2 i. induction l1 as [|a r1 IH]; intros [|b r2] [|i]; cbn;
    try (split; [done|intros [??]; done]).
  - split; [by intros [= -> ->]|by intros [[= ->] [= ->]]].
  - apply IH.
Qed.

Lemma zip_with_pairs_take {A B} (l1 : list A) (l2 : list B) :
  let n := length l1 `min` length l2 in
  zip_with_pairs (take n l1) (take n l2) = zip_with_pairs l1 l2.
Proof.
  revert l2. induction l1 as [|a r1 IH]; intros [|b r2]; cbn; try done.
  f_equal. apply IH.
Qed.

Lemma dict_get_None_keys {A} key (d : list (string * A)) :
  dict_get key d = None → key ∉ d.*1.
Proof.
  induction d as [|[k x] r IH]; cbn.
  - intros _. apply not_elem_of_nil.
  - destruct (String.eqb_spec key k) as [->|Hne]; [done|].
    intros H. apply not_elem_of_cons. auto.
Qed.

Lemma keys_distinct_NoDup {A} (d : list (string * A)) :
  keys_distinct d = true → NoDup d.*1.
Proof.
  induction d as [|[k x] r IH]; cbn.
  - intros _. constructor.
  - intros [Hk Hr]%andb_prop. constructor; [|auto].
    apply dict_get_None_keys. unfold dict_contains in Hk.
    by destruct (dict_get k r).
Qed.

(** ** Mappings: one-directional containment *)

Lemma compare_dicts_spec tol dict1 dict2 :
  compare_dicts tol dict1 dict2 = Ok true ↔
  ∀ key value, (key, value) ∈ dict1 →
    ∃ other, dict_get key dict2 = Some other
             ∧ compare_values tol value other = Ok true.
Proof.
  unfold compare_dicts.
  induction dict1 as [|[key value] r IH]; cbn [compare_dicts_items].
  - split; [|done]. intros _ key value Hin. by apply elem_of_nil in Hin.
  - split.
    + intros H k v Hin.
      destruct (dict_get key dict2) as [other|] eqn:Hget; [|done].
      destruct (compare_values tol value other) as [[]|] eqn:Hc; try done.
      apply elem_of_cons in Hin as [[= -> ->]|Hin]; [eauto|].
      by apply IH.
    + intros H.
      destruct (H key value) as (other & -> & ->); [left|]. cbn.
      apply IH. intros k v Hin. apply H. by right.
Qed.


(** ** Sequences: the zipped prefix *)

Lemma compare_lists_pairs_spec tol (pairs : list (pyval * pyval)) :
  compare_lists_pairs tol pairs = Ok true ↔
  ∀ i x y, pairs !! i = Some (x, y) → compare_values tol x y = Ok true.
Proof.
  induction pairs as [|[a b] r IH]; cbn [compare_lists_pairs].
  - split; [|done]. by intros _ [|i] x y.
  - split.
    + intros H i x y Hi.
      destruct (compare_values tol a b) as [[]|] eqn:Hc; try done.
      destruct i as [|i]; [by injection Hi as <- <-|].
      cbn in Hi. by apply (proj1 IH H i).
    + intros H. rewrite (H 0%nat a b eq_refl). cbn.
      apply IH. intros i x y Hi. by apply (H (S i)).
Qed.

Lemma compare_lists_spec tol list1 list2 :
  compare_lists tol list1 list2 = Ok true ↔
  ∀ i x y, list1 !! i = Some x → list2 !! i = Some y →
    compare_values tol x y = Ok true.
Proof.
  unfold compare_lists. rewrite compare_lists_pairs_spec. split.
  - intros H i x y Hx Hy. apply (H i). by apply zip_with_pairs_lookup.
  - intros H i x y Hi. apply zip_with_pairs_lookup in Hi as [Hx Hy]. eauto.
Qed.

(** C7. Comparing two sequences (lists or tuples) looks only at the zipped
    prefix: the result is that of comparing both sequences cut to the
    length of the shorter one, and it is true exactly when the elements at
    every index that both sequences have compare equal; what the longer
    sequence has beyond that is ignored.  E.g. [[1, 2, 3]] against [[1, 2]]
    is true at tolerance 0, while [[1, 5]] against [(1, 9, 7)] is false,
    since 5 and 9 differ inside the prefix. *)
Theorem compare_values_sequence_prefix tol value1 value2 a b :
  seq_items value1 = Some a → seq_items value2 = Some b →
  let n := length a `min` length b in
  compare_values tol value1 value2
    = compare_values tol (VList (take n a)) (VList (take n b))
  ∧ (compare_values tol value1 value2 = Ok true ↔
     ∀ i x y, a !! i = Some x → b !! i = Some y →
       compare_values tol x y = Ok true)
  ∧ compare_values (of_int 0)
      (VList [VInt 1; VInt 2; VInt 3]) (VList [VInt 1; VInt 2]) = Ok true
  ∧ compare_values (of_int 0)
      (VList [VInt 1; VInt 5]) (VTuple [VInt 1; VInt 9; VInt 7]) = Ok false
  ∧ compare_values (of_int 0)
      (VTuple [VInt 4; VInt 2; VInt 3]) (VList [VInt 1; VInt 2]) = Ok false.
Proof.
  intros Ha Hb n. split; [|split; [|repeat split]].
  - rewrite (compare_values_lists tol _ _ a b Ha Hb).
    rewrite (compare_values_lists tol _ _ (take n a) (take n b)); [|done..].
    unfold compare_lists. subst n.
    pose proof (zip_with_pairs_take a b) as Hz. cbv zeta in Hz. by rewrite Hz.
  - rewrite (compare_values_lists tol _ _ a b Ha Hb).
    apply compare_lists_spec.
Qed.

Lemma compare_values_sequence_prefix_witness :
  seq_items (VTuple [VInt 1; VInt 2; VInt 3]) = Some [VInt 1; VInt 2; VInt 3]
  ∧ seq_items (VList [VInt 1; VInt 2]) = Some [VInt 1; VInt 2]
  ∧ compare_values (of_int 0)
      (VTuple [VInt 1; VInt 2; VInt 3]) (VList [VInt 1; VInt 2])
    = compare_values (of_int 0)
        (VList (take 2 [VInt 1; VInt 2; VInt 3])) (VList (take 2 [VInt 1; VInt 2])).
Proof.
  split; [reflexivity|]. split; [reflexivity|].
  exact (proj1 (compare_values_sequence_prefix (of_int 0)
                  (VTuple [VInt 1; VInt 2; VInt 3]) (VList [VInt 1; VInt 2])
                  [VInt 1; VInt 2; VInt 3] [VInt 1; VInt 2] eq_refl eq_refl)).
Defined.

(** ** Rounding *)

(** Rationals that are equal round to the same double. *)
Lemma round53_comp q q' : (q == q')%Q → round53 q = round53 q'.
Proof. intros H. unfold round53. by rewrite (Qred_complete _ _ H). Qed.

Lemma round53_zero q : (q == 0)%Q → round53 q = Fin 0.
Proof. intros H. by rewrite (round53_comp _ _ H). Qed.

Lemma Qle_bool_Qeq_l x y z : (x == y)%Q → Qle_bool x z = Qle_bool y z.
Proof.
  intros H. destruct (Qle_bool y z) eqn:E.
  - apply Qle_bool_iff. rewrite H. by apply Qle_bool_iff.
  - destruct (Qle_bool x z) eqn:E'; [|done].
    apply Qle_bool_iff in E'. rewrite H in E'. apply Qle_bool_iff in E'.
    congruence.
Qed.

Lemma fle_fabs_fneg r t : fle (fabs (fneg r)) t = fle (fabs r) t.
Proof.
  destruct r as [x| | |], t as [y| | |]; try reflexivity.
  cbn [fneg fabs fle]. apply Qle_bool_Qeq_l, Qabs_opp.
Qed.

(** Rounding is symmetric about zero. *)
Lemma fle_fabs_round53_opp q t :
  fle (fabs (round53 (- q))) t = fle (fabs (round53 q)) t.
Proof.
  unfold round53. cbv zeta. rewrite Qred_opp.
  destruct (Qred q) as [[|n|n] d]; cbn [Qopp Qnum Qden Z.opp];
    [reflexivity|apply fle_fabs_fneg|symmetry; apply fle_fabs_fneg].
Qed.

Lemma fle_fabs_fsub_sym a b t :
  fle (fabs (fsub a b)) t = fle (fabs (fsub b a)) t.
Proof.
  destruct a as [x| | |], b as [y| | |]; try reflexivity.
  cbn [fsub].
  rewrite (round53_comp (y - x) (- (x - y))) by ring.
  symmetry. apply fle_fabs_round53_opp.
Qed.

Lemma fsub_diag q : fsub (Fin q) (Fin q) = Fin 0.
Proof. cbn [fsub]. apply round53_zero. ring. Qed.

(** Float arithmetic at work.  [0.8 - 0.7] is [0.10000000000000009],
    beyond a tolerance of [0.1], while [0.7 - 0.6] is
    [0.09999999999999998], within it; with the xy scaling
    [abs(0.07 - 0.0) * 100] is [7.000000000000001], beyond 7, while
    [abs(0.29 - 0) * 100] is [28.999999999999996], within 29; the [int]
    [2 ** 53 + 1] becomes the float [2.0 ** 53] when it meets a float, and
    stays exact against an [int]; [10 ** 400] cannot become a float;
    [1e308 - -1e308] is an infinity. *)
Example float_arithmetic :
  compare_values tenth (VFloat (Fin (8 # 10))) (VFloat (Fin (7 # 10)))
  = Ok false
  ∧ compare_values tenth (VFloat (Fin (7 # 10))) (VFloat (Fin (6 # 10)))
    = Ok true
  ∧ compare_colors (of_int 7) true
      (VList [VFloat (Fin (7 # 100))]) (VList [VFloat (Fin 0)]) = Ok false
  ∧ compare_colors (of_int 29) true
      (VList [VFloat (Fin (29 # 100))]) (VList [VInt 0]) = Ok true
  ∧ compare_values (of_int 0)
      (VInt (2 ^ 53 + 1)) (VFloat (Fin (inject_Z (2 ^ 53)))) = Ok true
  ∧ compare_values (of_int 0) (VInt (2 ^ 53 + 1)) (VInt (2 ^ 53)) = Ok false
  ∧ compare_values (of_int 3) (VInt (10 ^ 400)) (VFloat (Fin 1))
    = Raise OverflowError
  ∧ compare_colors (of_int 3) false
      (VList [VFloat (Fin 1)]) (VList [VInt (10 ^ 400)])
    = Raise OverflowError
  ∧ compare_values (of_int 3)
      (VFloat (Fin (inject_Z (10 ^ 308))))
      (VFloat (Fin (inject_Z (- 10 ^ 308)))) = Ok false.
Proof. repeat split; vm_compute; reflexivity. Qed.

(** ** Reflexivity at zero tolerance *)

(** A finite number is within every tolerance that is not negative of
    itself: the difference is an exact zero. *)
Lemma compare_numbers_refl tol n q :
  fle (of_int 0) tol = true → num_value n = Fin q →
  compare_numbers tol n n = Ok true.
Proof.
  intros Htol Hn. unfold compare_numbers. destruct n as [z|f].
  - cbn [num_sub mbind res_bind num_abs num_value].
    rewrite Z.sub_diag. change (Z.abs 0) with 0%Z. by rewrite Htol.
  - cbn in Hn. subst f. cbn [num_sub to_float mbind res_bind].
    rewrite fsub_diag. cbn [num_abs num_value].
    change (fabs (Fin 0)) with (of_int 0). by rewrite Htol.
Qed.

Lemma compare_numbers_refl_finite n q :
  num_value n = Fin q → compare_numbers (of_int 0) n n = Ok true.
Proof. by apply compare_numbers_refl. Qed.

Lemma compare_lists_refl tol (l : list pyval) :
  Forall (λ v, compare_values tol v v = Ok true) l →
  compare_lists tol l l = Ok true.
Proof.
  intros H. apply compare_lists_spec. intros i x y Hx Hy.
  rewrite Hx in Hy. injection Hy as <-.
  rewrite Forall_lookup in H. eauto.
Qed.

(** C8 (counterexample). A NaN, alone or inside a container, does not
    compare equal to itself, and neither does an infinity: [inf - inf] is
    NaN and [nan <= 0] is false. *)
Lemma compare_values_nan_irreflexive :
  well_formed (VFloat NaN) = true
  ∧ compare_values (of_int 0) (VFloat NaN) (VFloat NaN) = Ok false
  ∧ compare_values (of_int 0) (VFloat PInf) (VFloat PInf) = Ok false
  ∧ compare_values (of_int 0)
      (VDict [("temperature", VFloat NaN)])
      (VDict [("temperature", VFloat NaN)]) = Ok false.
Proof. repeat split. Qed.

(** C8 (amended). [compare_values] is reflexive at zero tolerance on every
    value that holds no NaN and no infinite float: scalars, numbers,
    sequences, mappings and any nesting of them compare equal to
    themselves. *)
Theorem compare_values_refl_finite (a : pyval) :
  well_formed a = true → is_finite a = true →
  compare_values (of_int 0) a a = Ok true.
Proof.
  induction a as [|b|z|f|s|l IH|l IH|d IH] using pyval_nested_ind;
    intros Hwf Hfin.
  - reflexivity.
  - by destruct b.
  - by apply (compare_numbers_refl_finite (NInt z) (inject_Z z)).
  - cbn in Hfin. destruct (fround f) as [q| | |] eqn:Hf; try discriminate.
    cbn [compare_values as_pynum]. rewrite Hf.
    by apply (compare_numbers_refl_finite (NFloat (Fin q)) q).
  - cbn. by rewrite String.eqb_refl.
  - rewrite (compare_values_lists _ (VList l) (VList l) l l eq_refl eq_refl).
    apply compare_lists_refl. cbn in Hwf, Hfin.
    rewrite forallb_forall in Hwf. rewrite forallb_forall in Hfin.
    rewrite Forall_forall in IH. apply Forall_forall. intros v Hv.
    apply IH; [done| |]; [apply Hwf|apply Hfin]; by apply list_elem_of_In.
  - rewrite (compare_values_lists _ (VTuple l) (VTuple l) l l eq_refl eq_refl).
    apply compare_lists_refl. cbn in Hwf, Hfin.
    rewrite forallb_forall in Hwf. rewrite forallb_forall in Hfin.
    rewrite Forall_forall in IH. apply Forall_forall. intros v Hv.
    apply IH; [done| |]; [apply Hwf|apply Hfin]; by apply list_elem_of_In.
  - rewrite compare_values_dicts. apply compare_dicts_spec.
    cbn in Hwf, Hfin. apply andb_prop in Hwf as [Hkeys Hwf].
    rewrite forallb_forall in Hwf. rewrite forallb_forall in Hfin.
    rewrite Forall_forall in IH. intros key value Hin.
    exists value. split.
    + apply dict_get_NoDup; [by apply keys_distinct_NoDup|done].
    + apply (IH (key, value) Hin);
        [apply (Hwf (key, value))|apply (Hfin (key, value))];
        by apply list_elem_of_In.
Qed.

Lemma compare_values_refl_finite_witness :
  well_formed sample_value = true ∧ is_finite sample_value = true
  ∧ compare_values (of_int 0) sample_value sample_value = Ok true.
Proof.
  split; [reflexivity|]. split; [reflexivity|].
  apply (compare_values_refl_finite sample_value); reflexivity.
Defined.

(** ** [compare_colors] *)

Lemma compare_colors_none tol xy :
  compare_colors tol xy VNone VNone = Ok true
  ∧ (∀ c, c ≠ VNone → compare_colors tol xy VNone c = Ok false)
  ∧ (∀ c, c ≠ VNone → compare_colors tol xy c VNone = Ok false).
Proof.
  split; [done|]. split; intros c Hc; by destruct c.
Qed.

Lemma compare_colors_no_sequence tol xy color1 color2 :
  color1 ≠ VNone → color2 ≠ VNone →
  is_sequence color1 = false → is_sequence color2 = false →
  compare_colors tol xy color1 color2 = Ok false.
Proof.
  intros H1 H2 S1 S2.
  destruct color1; try done; destruct color2; try done.
Qed.

Lemma as_number_pynum v x :
  as_number v = Some x ↔ ∃ n, as_pynum v = Some n ∧ num_value n = x.
Proof.
  unfold as_number. destruct (as_pynum v) as [n|]; cbn.
  - split; [intros [= <-]; eauto|by intros (? & [= <-] & <-)].
  - split; [done|by intros (? & ? & _)].
Qed.

(** A subtraction of two numbers gives a number, unless an [int] operand
    is too large for the float it has to become. *)
Lemma num_sub_outcome a b :
  (∃ d, num_sub a b = Ok d) ∨ num_sub a b = Raise OverflowError.
Proof.
  destruct a as [x|f], b as [y|g]; cbn [num_sub to_float];
    [left; eauto|..];
    repeat match goal with
           | |- context [round53 ?q] => destruct (round53 q)
           end; cbn; eauto.
Qed.

Lemma compare_colors_loop_numbers tol xy (pairs : list (pyval * pyval)) :
  Forall (λ p, is_Some (as_number p.1) ∧ is_Some (as_number p.2)) pairs →
  (∃ b, compare_colors_loop tol xy pairs = Ok b)
  ∨ compare_colors_loop tol xy pairs = Raise OverflowError.
Proof.
  induction 1 as [|[c1 c2] r [[x Hx] [y Hy]] _ IH]; [left; by eexists|].
  cbn in Hx, Hy.
  apply as_number_pynum in Hx as (n1 & Hx & _).
  apply as_number_pynum in Hy as (n2 & Hy & _).
  cbn [compare_colors_loop]. unfold py_sub. rewrite Hx, Hy.
  destruct (num_sub_outcome n1 n2) as [[d ->]| ->]; [|by right]. cbn.
  destruct (fgt _ _); [left; by eexists|exact IH].
Qed.

(** Two sequences of numbers are compared without an exception, unless an
    [int] component too large for a double meets a float. *)
Lemma compare_colors_numbers tol xy color1 color2 l1 l2 :
  seq_items color1 = Some l1 → seq_items color2 = Some l2 →
  Forall (λ v, is_Some (as_number v)) l1 →
  Forall (λ v, is_Some (as_number v)) l2 →
  (∃ b, compare_colors tol xy color1 color2 = Ok b)
  ∨ compare_colors tol xy color1 color2 = Raise OverflowError.
Proof.
  intros H1 H2 N1 N2.
  assert (Hloop :
    (∃ b, compare_colors_loop tol xy (zip_with_pairs l1 l2) = Ok b)
    ∨ compare_colors_loop tol xy (zip_with_pairs l1 l2) = Raise OverflowError).
  { apply compare_colors_loop_numbers. clear H1 H2. revert l2 N2.
    induction N1 as [|x r1 Hx _ IH]; intros l2 N2; [constructor|].
    destruct N2 as [|y r2 Hy N2]; constructor; [done|].
    by apply IH. }
  destruct color1; try discriminate; destruct color2; try discriminate;
    cbn in H1, H2; simplify_eq; exact Hloop.
Qed.

(** A sequence against a number, in either order, reaches [zip] and
    raises. *)
Lemma compare_colors_sequence_and_number tol xy color number :
  is_sequence color = true → is_Some (as_number number) →
  compare_colors tol xy color number = Raise TypeError
  ∧ compare_colors tol xy number color = Raise TypeError.
Proof.
  intros Hs [x Hx].
  destruct color; try discriminate; destruct number; try discriminate; done.
Qed.

(** The colour examples of the specification: equal xy colours, a delta of
    0.02 (scaled to 2, within a tolerance of 3) and one of 0.05 (scaled to
    5, beyond it); without the scaling a delta of 3 is within tolerance and
    one of 4 is not. *)
Example compare_colors_tolerance :
  compare_colors (of_int 0) true
    (VList [VFloat (Fin (1 # 2)); VFloat (Fin (1 # 2))])
    (VList [VFloat (Fin (1 # 2)); VFloat (Fin (1 # 2))]) = Ok true
  ∧ compare_colors (of_int 3) true
      (VList [VInt 0; VInt 0]) (VList [VFloat (Fin (2 # 100)); VInt 0])
    = Ok true
  ∧ compare_colors (of_int 3) true
      (VList [VInt 0; VInt 0]) (VList [VFloat (Fin (5 # 100)); VInt 0])
    = Ok false
  ∧ compare_colors (of_int 3) false red (VTuple [VInt 252; VInt 3; VInt 0])
    = Ok true
  ∧ compare_colors (of_int 3) false red (VTuple [VInt 251; VInt 0; VInt 0])
    = Ok false.
Proof. repeat split. Qed.

(** C2. The failing inputs: a colour sequence against a value that is
    neither a sequence nor [None] passes the guard (which rejects only the
    case where both sides are not sequences) and reaches [zip]; the
    comparison raises [TypeError] instead of returning false, and against
    an empty string it returns true. *)
Theorem compare_colors_raises_on_mixed_shapes :
  compare_colors (of_int 3) false red (VInt 5) = Raise TypeError
  ∧ compare_colors (of_int 3) false (VInt 5) red = Raise TypeError
  ∧ compare_colors (of_int 3) false red (VStr "#ff0000") = Raise TypeError
  ∧ compare_colors (of_int 3) false (VStr "255,0,0")
      (VTuple [VInt 255; VInt 0; VInt 0]) = Raise TypeError
  ∧ compare_colors (of_int 3) false red (VStr "") = Ok true.
Proof. repeat split. Qed.

(** ** [check_state] *)

Section check_state_facts.
Variable table : list (string * list string).

Lemma check_state_absent self entity_id :
  check_state table self entity_id None = Ok (Some false).
Proof. reflexivity. Qed.

(** [None] is returned for an unavailable entity when unavailable entities
    are ignored, and in no other case. *)
Lemma check_state_unknown_iff self entity_id new_state :
  check_state table self entity_id new_state = Ok None ↔
  ∃ o, new_state = Some o ∧ _ignore_unavailable self = true
       ∧ py_eq (state o) (VStr "unavailable") = true.
Proof.
  destruct new_state as [o|]; cbn [check_state].
  - destruct (_ignore_unavailable self && py_eq (state o) (VStr "unavailable"))
      eqn:Hu.
    + apply andb_prop in Hu as [??]. split; [eauto|done].
    + split.
      * intros H. exfalso. revert H. unfold getitem.
        destruct (dict_get entity_id (entities self)) as [wanted|]; [|done].
        cbn. destruct (dict_get "state" wanted) as [ws|]; [|done]. cbn.
        destruct (compare_values _ _ _) as [[]|]; cbn; [|done..].
        destruct (dict_get (domain o) table) as [attrs|]; [|done].
        by destruct (attributes_match _ _ _ _).
      * intros (o' & [= <-] & Hi & He). rewrite Hi, He in Hu. done.
  - split; [done|]. by intros (o & ? & _).
Qed.

(** While every comparison of the loop returns, the loop tells whether all
    attributes that both sides have compare equal. *)
Lemma attributes_match_returns tol wanted got attrs :
  (∀ a w g, a ∈ attrs → dict_get a wanted = Some w → dict_get a got = Some g →
     ∃ b, attribute_compare tol a w g = Ok b) →
  ∃ m, attributes_match tol wanted got attrs = Ok m
    ∧ (m = true ↔
       ∀ a w g, a ∈ attrs → dict_get a wanted = Some w →
         dict_get a got = Some g → attribute_compare tol a w g = Ok true)
    ∧ (m = false ↔
       ∃ a w g, a ∈ attrs ∧ dict_get a wanted = Some w
         ∧ dict_get a got = Some g ∧ attribute_compare tol a w g = Ok false).
Proof.
  induction attrs as [|a rest IH]; intros Hret.
  - exists true. split; [done|]. split.
    + split; [|done]. intros _ a w g Hin. by apply elem_of_nil in Hin.
    + split; [done|]. intros (a & w & g & Hin & _). by apply elem_of_nil in Hin.
  - destruct IH as (m & Hm & Ht & Hf).
    { intros a' w g Hin. apply Hret. by right. }
    assert (Hskip :
      (∀ w g, dict_get a wanted = Some w → dict_get a got = Some g → False) →
      ∃ m, attributes_match tol wanted got (a :: rest) = Ok m
        ∧ (m = true ↔
           ∀ a' w g, a' ∈ a :: rest → dict_get a' wanted = Some w →
             dict_get a' got = Some g → attribute_compare tol a' w g = Ok true)
        ∧ (m = false ↔
           ∃ a' w g, a' ∈ a :: rest ∧ dict_get a' wanted = Some w
             ∧ dict_get a' got = Some g
             ∧ attribute_compare tol a' w g = Ok false)).
    { intros Habs. exists m. split.
      - cbn [attributes_match].
        destruct (dict_get a wanted) as [w|] eqn:Hw; [|done].
        destruct (dict_get a got) as [g|] eqn:Hg; [|done].
        destruct (Habs w g eq_refl eq_refl).
      - split.
        + rewrite Ht. split.
          * intros H a' w g [->|Hin]%elem_of_cons Hw Hg; [|eauto].
            destruct (Habs w g Hw Hg).
          * intros H a' w g Hin. apply H. by right.
        + rewrite Hf. split.
          * intros (a' & w & g & Hin & ?). exists a', w, g. split; [by right|done].
          * intros (a' & w & g & [->|Hin]%elem_of_cons & Hw & Hg & Hc).
            -- destruct (Habs w g Hw Hg).
            -- by exists a', w, g. }
    destruct (dict_get a wanted) as [w|] eqn:Hw;
      [|apply Hskip; intros ?? [=]].
    destruct (dict_get a got) as [g|] eqn:Hg;
      [|apply Hskip; intros ?? _ [=]].
    destruct (Hret a w g) as [b Hb]; [by left|done|done|].
    cbn [attributes_match]. rewrite Hw, Hg, Hb. cbn.
    destruct b.
    + exists m. split; [done|]. split.
      * rewrite Ht. split.
        -- intros H a' w' g' [->|Hin]%elem_of_cons Hw' Hg'; [|eauto].
           congruence.
        -- intros H a' w' g' Hin. apply H. by right.
      * rewrite Hf. split.
        -- intros (a' & w' & g' & Hin & ?). exists a', w', g'.
           split; [by right|done].
        -- intros (a' & w' & g' & [->|Hin]%elem_of_cons & Hw' & Hg' & Hc).
           ++ congruence.
           ++ by exists a', w', g'.
    + exists false. split; [done|]. split.
      * split; [done|]. intros H.
        specialize (H a w g (list_elem_of_here _ _) Hw Hg). congruence.
      * split; [|done]. intros _. exists a, w, g. split; [left|done].
Qed.
End check_state_facts.

(** What [check_state] decides for an observed entity whose target has a
    [state], as long as no comparison raises: unknown
    for an ignored unavailable entity; otherwise not matched when the state
    or some allow-listed attribute that both sides have compares unequal;
    otherwise matched.  Attributes that only one side has are passed over. *)
Lemma check_state_decides table self entity_id o wanted wanted_state
    state_ok :
  dict_get entity_id (entities self) = Some wanted →
  dict_get "state" wanted = Some wanted_state →
  let tol := _number_tolerance self in
  let attrs := default [] (dict_get (domain o) table) in
  let unknown :=
    _ignore_unavailable self && py_eq (state o) (VStr "unavailable") in
  compare_values tol wanted_state (state o) = Ok state_ok →
  (∀ a w g, a ∈ attrs → dict_get a wanted = Some w →
     dict_get a (attributes o) = Some g →
     ∃ b, attribute_compare tol a w g = Ok b) →
  ∃ r, check_state table self entity_id (Some o) = Ok r
    ∧ (r = None ↔ unknown = true)
    ∧ (r = Some false ↔
       unknown = false
       ∧ (state_ok = false
          ∨ ∃ a w g, a ∈ attrs ∧ dict_get a wanted = Some w
              ∧ dict_get a (attributes o) = Some g
              ∧ attribute_compare tol a w g = Ok false))
    ∧ (r = Some true ↔
       unknown = false ∧ state_ok = true
       ∧ ∀ a w g, a ∈ attrs → dict_get a wanted = Some w →
           dict_get a (attributes o) = Some g →
           attribute_compare tol a w g = Ok true).
Proof.
  intros Hwanted Hstate tol attrs unknown Hstate_ok Hret.
  destruct (attributes_match_returns tol wanted (attributes o) attrs Hret)
    as (m & Hm & Ht & Hf).
  cbn [check_state]. fold unknown. unfold getitem.
  rewrite Hwanted. cbn. rewrite Hstate. cbn. fold tol. rewrite Hstate_ok.
  cbn.
  destruct unknown.
  { exists None. split; [done|]. repeat split; try done; by intros [? _]. }
  destruct state_ok; cbn.
  - assert (Hloop :
      match dict_get (domain o) table with
      | Some attrs =>
          attributes_match tol wanted (attributes o) attrs
          ≫= λ matched : bool, Ok (Some matched)
      | None => Ok (Some true)
      end = Ok (Some m)).
    { subst attrs. destruct (dict_get (domain o) table) as [l|]; cbn in *.
      - by rewrite Hm.
      - by injection Hm as <-. }
    rewrite Hloop. exists (Some m). split; [done|]. split; [done|].
    destruct m.
    + split.
      * split; [done|]. intros [_ [?|Hex]]; [done|].
        apply Hf in Hex. done.
      * split; [|done]. intros _. split; [done|]. split; [done|].
        by apply Ht.
    + split.
      * split; [|done]. intros _. split; [done|]. right. by apply Hf.
      * split; [done|]. intros (_ & _ & Hall). apply Ht in Hall. done.
  - exists (Some false). split; [done|]. split; [done|]. split.
    + split; [|done]. intros _. split; [done|]. by left.
    + split; [done|]. by intros (_ & ? & _).
Qed.

(** C5. The failing inputs: the lamp of the living-room scene reports
    [rgb_color] as a single number (or as a string) while the scene wants a
    list; or the scene wants the string ["255,0,0"] and the lamp reports a
    tuple.  The state matches and [rgb_color] is on both sides, so the
    colour comparison runs; it raises, and [check_state] raises with it
    instead of returning a result. *)
Theorem check_state_raises_on_color_shape :
  check_state spec_attributes_to_check
    (self (Scene_init both_matching living_room_conf)) "light.lamp"
    (Some (light "on" [("rgb_color", VInt 5)])) = Raise TypeError
  ∧ check_state spec_attributes_to_check
      (self (Scene_init both_matching living_room_conf)) "light.lamp"
      (Some (light "on" [("rgb_color", VStr "#ff0000")])) = Raise TypeError
  ∧ check_state spec_attributes_to_check
      (self (Scene_init both_matching mistyped_conf)) "light.lamp"
      (Some (light "on" [("rgb_color", VTuple [VInt 255; VInt 0; VInt 0])]))
    = Raise TypeError.
Proof. repeat split; vm_compute; reflexivity. Qed.

(** ** The scan of [check_all_states] *)

Ltac run_M :=
  unfold mbind, M_bind, mret, M_ret, hass_states_get, get_self, lift,
    modify_self, raise; cbn.

Lemma foldl_insert_notin {V} (m : gmap string V) (ps : list (string * V)) k :
  k ∉ ps.*1 → foldl (λ m p, <[p.1 := p.2]> m) m ps !! k = m !! k.
Proof.
  revert m. induction ps as [|[k' v] r IH]; intros m Hk; [done|].
  cbn in *. apply not_elem_of_cons in Hk as [Hne Hk].
  rewrite IH by done. by apply lookup_insert_ne.
Qed.

Lemma foldl_insert_last {V} (m : gmap string V) (ps : list (string * V)) k v :
  foldl (λ m p, <[p.1 := p.2]> m) m (ps ++ [(k, v)]) !! k = Some v.
Proof. rewrite foldl_app. cbn. apply lookup_insert_eq. Qed.

Lemma zip_with_pairs_fst {A B} (l1 : list A) (l2 : list B) :
  length l1 = length l2 → (zip_with_pairs l1 l2).*1 = l1.
Proof.
  revert l2. induction l1 as [|a r IH]; intros [|b r2]; cbn; try done.
  intros [= H]. f_equal. by apply IH.
Qed.

Lemma zip_with_pairs_app {A B} (l1 l1' : list A) (l2 l2' : list B) :
  length l1 = length l2 →
  zip_with_pairs (l1 ++ l1') (l2 ++ l2')
  = zip_with_pairs l1 l2 ++ zip_with_pairs l1' l2'.
Proof.
  revert l2. induction l1 as [|a r IH]; intros [|b r2]; cbn; try done.
  intros [= H]. f_equal. by apply IH.
Qed.

Lemma after_scan_nil w : after_scan w [] [] = w.
Proof.
  destruct w as [s h]. destruct s, h. unfold after_scan. cbn.
  by rewrite app_nil_r.
Qed.

Lemma after_scan_cons w e r ids rs :
  after_scan (after_scan w [e] [r]) ids rs = after_scan w (e :: ids) (r :: rs).
Proof. unfold after_scan. cbn. by rewrite <- app_assoc. Qed.

Section scan.
Variable table : list (string * list string).

(** The scan never changes what [check_state] reads. *)
Lemma live_result_after_scan w ids rs e :
  live_result table (after_scan w ids rs) e = live_result table w e.
Proof. reflexivity. Qed.

(** One iteration that does not leave the method. *)
Lemma check_all_states_loop_step w e rest r :
  live_result table w e = Ok r →
  _restore_on_deactivate (self w) = true ∨ r = Some true →
  check_all_states_loop table (e :: rest) w
  = check_all_states_loop table rest (after_scan w [e] [r]).
Proof.
  intros Hr Hgo. unfold live_result in Hr.
  cbn [check_all_states_loop]. run_M. rewrite Hr.
  rewrite lookup_insert_eq.
  replace (negb (_restore_on_deactivate (self w)) && negb (truthy r))
    with false; [done|].
  destruct Hgo as [->| ->]; [done|]. cbn. by rewrite andb_false_r.
Qed.

(** One iteration that leaves the method through the shortcut. *)
Lemma check_all_states_loop_exit w e rest r :
  live_result table w e = Ok r →
  _restore_on_deactivate (self w) = false → r ≠ Some true →
  check_all_states_loop table (e :: rest) w
  = (Ok true,
     mkWorld (with_is_on (Some false) (self (after_scan w [e] [r])))
       (hass (after_scan w [e] [r]))).
Proof.
  intros Hr Hno Hne. unfold live_result in Hr.
  cbn [check_all_states_loop]. run_M. rewrite Hr.
  rewrite lookup_insert_eq, Hno.
  replace (truthy r) with false; [done|].
  destruct r as [[|]|]; done.
Qed.

(** A whole prefix that does not leave the method. *)
Lemma check_all_states_loop_prefix w pre rest rs :
  Forall2 (λ e r, live_result table w e = Ok r
                  ∧ (_restore_on_deactivate (self w) = true ∨ r = Some true))
    pre rs →
  check_all_states_loop table (pre ++ rest) w
  = check_all_states_loop table rest (after_scan w pre rs).
Proof.
  intros H. revert w H. revert rs.
  induction pre as [|e pre IH]; intros rs w H.
  - apply Forall2_nil_inv_l in H as ->. by rewrite after_scan_nil.
  - apply Forall2_cons_inv_l in H as (r & rs' & [Hr Hgo] & H & ->).
    cbn [app]. rewrite (check_all_states_loop_step w e _ r Hr Hgo).
    rewrite (IH rs' (after_scan w [e] [r])); [by rewrite after_scan_cons|].
    exact H.
Qed.
End scan.

(** ** The shortcut of [check_all_states] *)

(** The shortcut, for any result that is not [True]. *)
Lemma check_all_states_shortcut table w pre e post r :
  _restore_on_deactivate (self w) = false →
  (entities (self w)).*1 = pre ++ e :: post →
  NoDup (entities (self w)).*1 →
  (∀ e', e' ∈ pre → live_result table w e' = Ok (Some true)) →
  live_result table w e = Ok r →
  r ≠ Some true →
  ∃ w', check_all_states table w = (Ok tt, w')
    ∧ _is_on (self w') = Some false
    ∧ states_fetched (hass w') = states_fetched (hass w) ++ pre ++ [e]
    ∧ states (self w') !! e = Some r
    ∧ (∀ e', e' ∈ post → states (self w') !! e' = states (self w) !! e').
Proof.
  intros Hno Hids Hnd Hpre Hr Hne.
  set (rs := (λ _ : string, Some true) <$> pre).
  assert (Hlen : length pre = length rs) by (subst rs; by rewrite length_fmap).
  assert (Hscan : Forall2 (λ e r, live_result table w e = Ok r
      ∧ (_restore_on_deactivate (self w) = true ∨ r = Some true)) pre rs).
  { subst rs. apply Forall2_fmap_r, Forall_Forall2_diag, Forall_forall.
    intros e' He'. split; [by apply Hpre|by right]. }
  unfold check_all_states. run_M. rewrite Hids.
  rewrite (check_all_states_loop_prefix table w pre (e :: post) rs Hscan).
  rewrite (check_all_states_loop_exit table (after_scan w pre rs) e post r);
    [|done..].
  eexists. split; [reflexivity|]. cbn.
  rewrite Hids in Hnd. apply NoDup_app in Hnd as (_ & Hdisj & Hnd).
  apply NoDup_cons in Hnd as [Hepost _].
  split; [done|]. split; [by rewrite <- app_assoc|]. split.
  - apply lookup_insert_eq.
  - intros e' He'.
    assert (e ≠ e') by (intros ->; done).
    rewrite lookup_insert_ne by done.
    apply foldl_insert_notin. rewrite zip_with_pairs_fst by done.
    intros Hin. apply (Hdisj e' Hin). by right.
Qed.

(** C4. With [restore_on_deactivate] off, the first entity in declared
    order whose result is not Matched ends the scan: the method returns
    there with the scene off, the entities after it are never fetched from
    the platform, and their cached results stay what they were. *)
Theorem check_all_states_stops_at_first_mismatch table w pre e post r :
  _restore_on_deactivate (self w) = false →
  (entities (self w)).*1 = pre ++ e :: post →
  NoDup (entities (self w)).*1 →
  (∀ e', e' ∈ pre → live_result table w e' = Ok (Some true)) →
  live_result table w e = Ok r →
  r ≠ Some true →
  ∃ w', check_all_states table w = (Ok tt, w')
    ∧ _is_on (self w') = Some false
    ∧ states_fetched (hass w') = states_fetched (hass w) ++ pre ++ [e]
    ∧ states (self w') !! e = Some r
    ∧ (∀ e', e' ∈ post → states (self w') !! e' = states (self w) !! e').
Proof. apply check_all_states_shortcut. Qed.

(** C10. With [restore_on_deactivate] off, an entity that is unavailable
    while unavailable entities are ignored gets the result [None], and
    that result ends the scan exactly as [False] does: the method returns
    with the scene off and the later entities are not looked at.  So on
    this path an unknown result is not left out of the verdict. *)
Theorem check_all_states_unknown_triggers_shortcut table w pre e post o :
  _restore_on_deactivate (self w) = false →
  _ignore_unavailable (self w) = true →
  dict_get e (hass_states (hass w)) = Some o →
  py_eq (state o) (VStr "unavailable") = true →
  (entities (self w)).*1 = pre ++ e :: post →
  NoDup (entities (self w)).*1 →
  (∀ e', e' ∈ pre → live_result table w e' = Ok (Some true)) →
  live_result table w e = Ok None
  ∧ ∃ w', check_all_states table w = (Ok tt, w')
      ∧ _is_on (self w') = Some false
      ∧ states_fetched (hass w') = states_fetched (hass w) ++ pre ++ [e]
      ∧ states (self w') !! e = Some None
      ∧ (∀ e', e' ∈ post → states (self w') !! e' = states (self w) !! e').
Proof.
  intros Hno Hign Hget Hun Hids Hnd Hpre.
  assert (Hr : live_result table w e = Ok None).
  { unfold live_result. apply check_state_unknown_iff. eauto. }
  split; [done|].
  by apply (check_all_states_shortcut table w pre e post None).
Qed.

Lemma check_all_states_stops_at_first_mismatch_witness :
  ∃ w',
    check_all_states spec_attributes_to_check
      (configured hallway_ceiling_off hallway_conf false false) = (Ok tt, w')
    ∧ _is_on (self w') = Some false
    ∧ states_fetched (hass w') = [] ++ ["switch.fan"] ++ ["light.ceiling"]
    ∧ states (self w') !! "light.ceiling" = Some (Some false)
    ∧ (∀ e', e' ∈ ["cover.blind"] →
         states (self w') !! e'
         = states (self (configured hallway_ceiling_off hallway_conf
                           false false)) !! e').
Proof.
  apply (check_all_states_stops_at_first_mismatch spec_attributes_to_check
           (configured hallway_ceiling_off hallway_conf false false)
           ["switch.fan"] "light.ceiling" ["cover.blind"] (Some false)).
  - reflexivity.
  - reflexivity.
  - cbn. apply (bool_decide_unpack _). vm_compute. exact I.
  - intros e' ->%list_elem_of_singleton. vm_compute. reflexivity.
  - vm_compute. reflexivity.
  - discriminate.
Defined.

Lemma check_all_states_unknown_triggers_shortcut_witness :
  live_result spec_attributes_to_check
    (configured hallway_ceiling_unavailable hallway_conf false true)
    "light.ceiling" = Ok None
  ∧ ∃ w',
      check_all_states spec_attributes_to_check
        (configured hallway_ceiling_unavailable hallway_conf false true)
      = (Ok tt, w')
      ∧ _is_on (self w') = Some false
      ∧ states_fetched (hass w') = [] ++ ["switch.fan"] ++ ["light.ceiling"]
      ∧ states (self w') !! "light.ceiling" = Some None
      ∧ (∀ e', e' ∈ ["cover.blind"] →
           states (self w') !! e'
           = states (self (configured hallway_ceiling_unavailable hallway_conf
                             false true)) !! e').
Proof.
  apply (check_all_states_unknown_triggers_shortcut spec_attributes_to_check
           (configured hallway_ceiling_unavailable hallway_conf false true)
           ["switch.fan"] "light.ceiling" ["cover.blind"]
           (light "unavailable" [])).
  - reflexivity.
  - reflexivity.
  - reflexivity.
  - reflexivity.
  - reflexivity.
  - cbn. apply (bool_decide_unpack _). vm_compute. exact I.
  - intros e' ->%list_elem_of_singleton. vm_compute. reflexivity.
Defined.

(** The same hallway with [restore_on_deactivate] on: the unavailable
    ceiling light is left out and the scene is on. *)
Lemma check_all_states_unknown_excluded_when_restoring :
  _is_on (self (check_all_states spec_attributes_to_check
                  (configured hallway_ceiling_unavailable hallway_conf
                     true true)).2) = Some true.
Proof. vm_compute. reflexivity. Qed.

(** ** The verdict of a full pass *)

Lemma check_all_states_full_pass table w rs :
  Forall2 (λ e r, live_result table w e = Ok r
                  ∧ (_restore_on_deactivate (self w) = true ∨ r = Some true))
    (entities (self w)).*1 rs →
  let w' := after_scan w (entities (self w)).*1 rs in
  check_all_states table w
  = (Ok tt,
     mkWorld (with_is_on (Some (all (known_states (states (self w')))))
                (self w'))
       (hass w')).
Proof.
  intros Hscan w'. unfold check_all_states. run_M.
  rewrite <- (app_nil_r (entities (self w)).*1) at 1.
  rewrite (check_all_states_loop_prefix table w _ [] rs Hscan).
  cbn [check_all_states_loop]. run_M.
  by destruct (bool_decide _).
Qed.

Lemma zip_with_pairs_const {A B} (l : list A) (c : B) :
  zip_with_pairs l ((λ _, c) <$> l) = (λ a, (a, c)) <$> l.
Proof. induction l as [|a r IH]; cbn; [done|]. by rewrite IH. Qed.

Lemma fmap_pair_const_fst {A B} (l : list A) (c : B) :
  ((λ a, (a, c)) <$> l).*1 = l.
Proof. induction l as [|a r IH]; cbn; [done|]. by rewrite IH. Qed.

Lemma foldl_insert_const_in {V} (m : gmap string V) (l : list string) c k :
  k ∈ l → foldl (λ m p, <[p.1 := p.2]> m) m ((λ a, (a, c)) <$> l) !! k = Some c.
Proof.
  revert m. induction l as [|a r IH]; intros m Hk.
  - by apply elem_of_nil in Hk.
  - cbn. destruct (decide (k ∈ r)) as [Hr|Hr]; [by apply IH|].
    apply elem_of_cons in Hk as [->|Hk]; [|done].
    rewrite foldl_insert_notin.
    + apply lookup_insert_eq.
    + by rewrite fmap_pair_const_fst.
Qed.

Lemma known_states_all_unknown (m : gmap string (option bool)) :
  (∀ k v, m !! k = Some v → v = None) → known_states m = [].
Proof.
  intros H. unfold known_states.
  assert (Hall : Forall (λ v, v = None) (map_to_list m).*2).
  { apply Forall_fmap, Forall_forall. intros [k v] Hin.
    apply elem_of_map_to_list in Hin. cbn. eauto. }
  induction Hall as [|v l -> _ IH]; [done|exact IH].
Qed.

(** When every entity is unavailable and ignored, a full pass caches
    [None] for each of them, the list of known results is empty, and the
    last assignment [self._is_on = all(states)] turns the scene on. *)
Lemma check_all_states_all_unknown table w :
  _ignore_unavailable (self w) = true →
  _restore_on_deactivate (self w) = true →
  (∀ e, e ∈ (entities (self w)).*1 →
     ∃ o, dict_get e (hass_states (hass w)) = Some o
          ∧ py_eq (state o) (VStr "unavailable") = true) →
  (∀ e, is_Some (states (self w) !! e) → e ∈ (entities (self w)).*1) →
  ∃ w', check_all_states table w = (Ok tt, w')
    ∧ known_states (states (self w')) = []
    ∧ _is_on (self w') = Some true.
Proof.
  intros Hign Hrest Hun Hdom.
  set (ids := (entities (self w)).*1) in *.
  set (rs := (λ _ : string, @None bool) <$> ids).
  assert (Hscan : Forall2 (λ e r, live_result table w e = Ok r
      ∧ (_restore_on_deactivate (self w) = true ∨ r = Some true)) ids rs).
  { subst rs. apply Forall2_fmap_r, Forall_Forall2_diag, Forall_forall.
    intros e He. split; [|by left].
    destruct (Hun e He) as (o & Ho & Hs).
    unfold live_result. apply check_state_unknown_iff. eauto. }
  assert (Hnone : known_states (states (self (after_scan w ids rs))) = []).
  { apply known_states_all_unknown. intros k v. cbn. subst rs.
    rewrite zip_with_pairs_const.
    destruct (decide (k ∈ ids)) as [Hin|Hin].
    - rewrite foldl_insert_const_in by done. by intros [= <-].
    - rewrite foldl_insert_notin.
      + intros Hk. destruct Hin. apply Hdom. by eexists.
      + by rewrite fmap_pair_const_fst. }
  eexists. split; [by apply check_all_states_full_pass|].
  split; [exact Hnone|].
  change (Some (all (known_states (states (self (after_scan w ids rs)))))
          = Some true).
  by rewrite Hnone.
Qed.

(** C1. The failing input: the living-room scene with both lights
    unavailable, unavailable entities ignored and [restore_on_deactivate]
    on.  The pass is complete, every result is unknown, nothing is left
    after the unknown results are dropped, and the scene ends up on, not
    off. *)
Theorem check_all_states_all_unknown_turns_on :
  live_result spec_attributes_to_check
    (configured both_unavailable living_room_conf true true) "light.sofa"
  = Ok None
  ∧ live_result spec_attributes_to_check
      (configured both_unavailable living_room_conf true true) "light.lamp"
    = Ok None
  ∧ (check_all_states spec_attributes_to_check
       (configured both_unavailable living_room_conf true true)).1 = Ok tt
  ∧ states_fetched
      (hass (check_all_states spec_attributes_to_check
               (configured both_unavailable living_room_conf true true)).2)
    = ["light.sofa"; "light.lamp"]
  ∧ known_states
      (states (self (check_all_states spec_attributes_to_check
                       (configured both_unavailable living_room_conf
                          true true)).2)) = []
  ∧ _is_on (self (check_all_states spec_attributes_to_check
                    (configured both_unavailable living_room_conf
                       true true)).2) = Some true.
Proof. repeat split; vm_compute; reflexivity. Qed.

(** ** [turn_on] *)

Lemma turn_on_resolved w entity_id :
  _entity_id (self w) = Some entity_id →
  (turn_on w).1 = Ok tt
  ∧ _is_on (self (turn_on w).2) = Some true
  ∧ services_calls (hass (turn_on w).2)
    = services_calls (hass w)
      ++ [mkServiceCall "scene" "turn_on" [entity_id]
            [("transition", _transition_time (self w))]].
Proof. intros H. unfold turn_on. run_M. unfold hass_services_call. by rewrite H. Qed.

(** C9. When the scene has no [entity_id], [turn_on] raises (building the
    message of the intended exception already fails, with [TypeError]);
    the exception reaches the caller, the scene's on/off state is what it
    was and no service has been called. *)
Theorem turn_on_unresolved_raises w :
  _entity_id (self w) = None →
  turn_on w = (Raise TypeError, w)
  ∧ _is_on (self (turn_on w).2) = _is_on (self w)
  ∧ services_calls (hass (turn_on w).2) = services_calls (hass w).
Proof. intros H. unfold turn_on. run_M. by rewrite H. Qed.

Lemma turn_on_unresolved_raises_witness :
  _entity_id (self (configured (hass_with []) orphan_conf true false)) = None
  ∧ turn_on (configured (hass_with []) orphan_conf true false)
    = (Raise TypeError, configured (hass_with []) orphan_conf true false).
Proof.
  split; [reflexivity|].
  exact (proj1 (turn_on_unresolved_raises
                  (configured (hass_with []) orphan_conf true false) eq_refl)).
Defined.

(** ** The two caches are written separately *)

Lemma check_all_states_loop_restore_states table ids w :
  restore_states (self (check_all_states_loop table ids w).2)
  = restore_states (self w).
Proof.
  revert w. induction ids as [|e rest IH]; intros w; [done|].
  cbn [check_all_states_loop]. run_M.
  destruct (check_state table (self w) e _) as [r|err]; [|done].
  cbn. rewrite lookup_insert_eq.
  destruct (negb (_restore_on_deactivate (self w)) && negb (truthy r));
    [done|].
  by rewrite IH.
Qed.

Lemma check_all_states_restore_states table w :
  restore_states (self (check_all_states table w).2) = restore_states (self w).
Proof.
  unfold check_all_states. run_M.
  pose proof (check_all_states_loop_restore_states table
                (entities (self w)).*1 w) as H.
  destruct (check_all_states_loop table _ w) as [[[|]|err] w']; cbn in *;
    try done.
  by destruct (bool_decide _).
Qed.

Lemma update_callback_caches table event w :
  states (self (update_callback table event w).2) = states (self w)
  ∧ restore_states (self (update_callback table event w).2)
    = <[ev_entity_id event := ev_old_state event]> (restore_states (self w)).
Proof.
  unfold update_callback, store_entity_state. run_M.
  destruct (is_interesting_update table _ _ _) as [[|]|err]; cbn; try done.
  unfold call_schedule_update. cbn.
  by destruct (schedule_update (self w)) as [[]|].
Qed.

(** C3 (counterexample). The sofa light goes from on to off; the callback
    runs and the scene is re-evaluated.  The cached observation of the sofa
    light is then the old state (on), not the latest one, and the cached
    match result (False, from the live state) is not what comparing the
    cached observation gives (True).  A re-evaluation alone also breaks
    the agreement: the lamp matches while its cached observation is still
    absent. *)
Lemma caches_disagree_after_operations :
  ¬ caches_agree spec_attributes_to_check
      (run_operations spec_attributes_to_check
         [OpUpdateCallback sofa_turned_off; OpCheckAllStates]
         (configured sofa_off living_room_conf true false))
  ∧ ¬ caches_agree spec_attributes_to_check
        (run_operations spec_attributes_to_check [OpCheckAllStates]
           (configured sofa_off living_room_conf true false))
  ∧ restore_states
      (self (run_operations spec_attributes_to_check
               [OpUpdateCallback sofa_turned_off; OpCheckAllStates]
               (configured sofa_off living_room_conf true false)))
      !! "light.sofa" = Some (ev_old_state sofa_turned_off)
  ∧ ev_old_state sofa_turned_off ≠ ev_new_state sofa_turned_off.
Proof.
  split; [|split; [|split]].
  - intros H.
    specialize (H "light.sofa" (Some false) (ev_old_state sofa_turned_off)).
    assert (Hc : check_state spec_attributes_to_check
        (self (run_operations spec_attributes_to_check
                 [OpUpdateCallback sofa_turned_off; OpCheckAllStates]
                 (configured sofa_off living_room_conf true false)))
        "light.sofa" (ev_old_state sofa_turned_off) = Ok (Some true))
      by (vm_compute; reflexivity).
    rewrite Hc in H. discriminate H; vm_compute; reflexivity.
  - intros H. specialize (H "light.lamp" (Some true) None).
    assert (Hc : check_state spec_attributes_to_check
        (self (run_operations spec_attributes_to_check [OpCheckAllStates]
                 (configured sofa_off living_room_conf true false)))
        "light.lamp" None = Ok (Some false)) by reflexivity.
    rewrite Hc in H. discriminate H; vm_compute; reflexivity.
  - vm_compute. reflexivity.
  - discriminate.
Qed.

Lemma run_operation_caches table op w :
  match op with
  | OpUpdateCallback event =>
      states (self (run_operation table op w).2) = states (self w)
      ∧ restore_states (self (run_operation table op w).2)
        = <[ev_entity_id event := ev_old_state event]>
            (restore_states (self w))
  | OpCheckAllStates =>
      restore_states (self (run_operation table op w).2)
      = restore_states (self w)
  end.
Proof.
  destruct op as [event|]; cbn [run_operation].
  - apply update_callback_caches.
  - apply check_all_states_restore_states.
Qed.

Lemma run_operations_restore_states table ops w :
  restore_states (self (run_operations table ops w))
  = foldl record_event (restore_states (self w)) ops.
Proof.
  revert w. induction ops as [|op rest IH]; intros w; [done|].
  cbn [run_operations foldl]. rewrite IH. f_equal.
  pose proof (run_operation_caches table op w) as Hop.
  destruct op as [event|]; cbn [record_event]; [apply Hop|exact Hop].
Qed.

Lemma run_callbacks_states table events w :
  states (self (run_operations table (OpUpdateCallback <$> events) w))
  = states (self w).
Proof.
  revert w. induction events as [|event rest IH]; intros w; [done|].
  cbn [fmap list_fmap run_operations]. rewrite IH.
  apply (run_operation_caches table (OpUpdateCallback event) w).
Qed.

(** What the scan caches: the results of [check_state] on the states it
    fetches, for the first [k] entities, where the scan covers all
    entities unless it stops after a result that is not [True] while
    [restore_on_deactivate] is off, or at an entity whose check raises. *)
Lemma check_all_states_loop_scan table ids w :
  ∃ k rs,
    states (self (check_all_states_loop table ids w).2)
    = foldl (λ m p, <[p.1 := p.2]> m) (states (self w))
        (zip_with_pairs (take k ids) rs)
    ∧ Forall2 (λ e r, live_result table w e = Ok r) (take k ids) rs
    ∧ (k = length ids
       ∨ (_restore_on_deactivate (self w) = false
          ∧ ∃ r, last rs = Some r ∧ r ≠ Some true)
       ∨ ∃ e err, ids !! k = Some e ∧ live_result table w e = Raise err).
Proof.
  revert w. induction ids as [|e rest IH]; intros w.
  - exists 0%nat, []. cbn. split; [done|]. split; [constructor|by left].
  - destruct (live_result table w e) as [r|err] eqn:Hr.
    + destruct (decide (_restore_on_deactivate (self w) = true
                        ∨ r = Some true)) as [Hgo|Hstop].
      * rewrite (check_all_states_loop_step table w e rest r Hr Hgo).
        destruct (IH (after_scan w [e] [r])) as (k & rs & Hs & Hl & Hc).
        exists (S k), (r :: rs). cbn [take zip_with_pairs foldl].
        split; [exact Hs|]. split; [by constructor|].
        destruct Hc as [->|[[Hno (r0 & Hlast & Hne)]|(e' & err & He' & Herr)]].
        -- by left.
        -- right; left. split; [done|]. exists r0. split; [|done].
           by destruct rs.
        -- right; right. by exists e', err.
      * assert (Hno : _restore_on_deactivate (self w) = false).
        { destruct (_restore_on_deactivate (self w)); [|done].
          destruct Hstop. by left. }
        assert (Hne : r ≠ Some true) by (intros ->; destruct Hstop; by right).
        rewrite (check_all_states_loop_exit table w e rest r Hr Hno Hne).
        exists 1%nat, [r]. cbn. split; [done|].
        split; [by repeat constructor|]. right; left. split; [done|].
        by exists r.
    + exists 0%nat, []. split.
      * unfold live_result in Hr. cbn [check_all_states_loop]. run_M.
        by rewrite Hr.
      * split; [constructor|]. right; right. by exists e, err.
Qed.

Lemma check_all_states_states table w :
  states (self (check_all_states table w).2)
  = states (self (check_all_states_loop table (entities (self w)).*1 w).2).
Proof.
  unfold check_all_states. run_M.
  destruct (check_all_states_loop table _ w) as [[[|]|err] w']; cbn;
    try done.
  by destruct (bool_decide _).
Qed.

(** C3 (amended). The two caches are written by different operations.
    After any sequence of callbacks and re-evaluations, [restore_states]
    holds, for each entity, the old state of the last callback event for
    it; callbacks, however many, leave every cached match result as it
    was.  A re-evaluation leaves [restore_states] as it was and writes
    [states] from what it fetches: for each entity that the scan reaches,
    in declared order, the cached result becomes that of [check_state] on
    the live state; the scan reaches every entity unless it stops behind
    a result that is not [True] while [restore_on_deactivate] is off, or
    at an entity whose check raises. *)
Theorem caches_written_separately table ops events w :
  restore_states (self (run_operations table ops w))
  = foldl record_event (restore_states (self w)) ops
  ∧ states (self (run_operations table (OpUpdateCallback <$> events) w))
    = states (self w)
  ∧ restore_states (self (check_all_states table w).2)
    = restore_states (self w)
  ∧ ∃ k rs,
      states (self (check_all_states table w).2)
      = foldl (λ m p, <[p.1 := p.2]> m) (states (self w))
          (zip_with_pairs (take k (entities (self w)).*1) rs)
      ∧ Forall2 (λ e r, live_result table w e = Ok r)
          (take k (entities (self w)).*1) rs
      ∧ (k = length (entities (self w)).*1
         ∨ (_restore_on_deactivate (self w) = false
            ∧ ∃ r, last rs = Some r ∧ r ≠ Some true)
         ∨ ∃ e err, (entities (self w)).*1 !! k = Some e
                    ∧ live_result table w e = Raise err).
Proof.
  split; [apply run_operations_restore_states|].
  split; [apply run_callbacks_states|].
  split; [apply check_all_states_restore_states|].
  rewrite check_all_states_states. apply check_all_states_loop_scan.
Qed.

(** ** The end-to-end example of the specification *)

(** Two lights within tolerance of their targets: the scene is on, with or
    without [restore_on_deactivate]; with the sofa light off it is off. *)
Example check_all_states_end_to_end :
  _is_on (self (check_all_states spec_attributes_to_check
                  (configured both_matching living_room_conf true false)).2)
  = Some true
  ∧ _is_on (self (check_all_states spec_attributes_to_check
                    (configured both_matching living_room_conf false false)).2)
    = Some true
  ∧ _is_on (self (check_all_states spec_attributes_to_check
                    (configured sofa_off living_room_conf true false)).2)
    = Some false
  ∧ _is_on (self (check_all_states spec_attributes_to_check
                    (configured sofa_unavailable living_room_conf true true)).2)
    = Some true.
Proof. repeat split; vm_compute; reflexivity. Qed.

(** * Further properties of the comparison functions *)

Lemma fle_trans a b c : fle a b = true → fle b c = true → fle a c = true.
Proof.
  destruct a as [x| | |], b as [y| | |], c as [z| | |]; cbn; try done.
  rewrite !Qle_bool_iff. apply Qle_trans.
Qed.

Lemma compare_numbers_sym tol x y :
  compare_numbers tol x y = compare_numbers tol y x.
Proof.
  unfold compare_numbers.
  destruct x as [x|f], y as [y|g]; cbn [num_sub to_float mbind res_bind].
  - cbn [num_abs num_value].
    replace (y - x)%Z with (- (x - y))%Z by lia. by rewrite Z.abs_opp.
  - destruct (round53 (inject_Z x)); cbn [mbind res_bind]; try done.
    cbn [num_abs num_value]. by rewrite fle_fabs_fsub_sym.
  - destruct (round53 (inject_Z y)); cbn [mbind res_bind]; try done.
    cbn [num_abs num_value]. by rewrite fle_fabs_fsub_sym.
  - cbn [num_abs num_value]. by rewrite fle_fabs_fsub_sym.
Qed.

Lemma compare_numbers_monotone tol tol' x y :
  fle tol tol' = true →
  compare_numbers tol x y = Ok true → compare_numbers tol' x y = Ok true.
Proof.
  unfold compare_numbers. intros Ht.
  destruct (num_sub x y) as [d|err]; cbn [mbind res_bind]; [|done].
  intros [= Hc]. f_equal. by apply (fle_trans _ tol).
Qed.

(** The tolerance only matters where numbers are compared. *)
Lemma compare_values_not_number tol tol' value1 value2 :
  as_number value1 = None → seq_items value1 = None →
  (∀ d, value1 ≠ VDict d) →
  compare_values tol value1 value2 = compare_values tol' value1 value2.
Proof.
  intros Hn Hs Hd. by rewrite !compare_values_scalars.
Qed.

(** X1. A larger tolerance never turns a match into a mismatch, whatever
    the shape of the two values. *)
Theorem compare_values_tolerance_monotone tol tol' (a : pyval) :
  fle tol tol' = true →
  ∀ b, compare_values tol a b = Ok true → compare_values tol' a b = Ok true.
Proof.
  intros Ht.
  induction a as [|x|z|f|s|l IH|l IH|d IH] using pyval_nested_ind; intros b.
  - by destruct b.
  - destruct b; try done; apply (compare_numbers_monotone _ _ _ _ Ht).
  - destruct b; try done; apply (compare_numbers_monotone _ _ _ _ Ht).
  - destruct b; try done; apply (compare_numbers_monotone _ _ _ _ Ht).
  - by destruct b.
  - destruct (seq_items b) as [l2|] eqn:Hb.
    + rewrite !(compare_values_lists _ (VList l) b l l2 eq_refl Hb).
      rewrite !compare_lists_spec. intros H i x y Hx Hy.
      rewrite Forall_lookup in IH. apply (IH i x Hx), (H i x y Hx Hy).
    + by destruct b.
  - destruct (seq_items b) as [l2|] eqn:Hb.
    + rewrite !(compare_values_lists _ (VTuple l) b l l2 eq_refl Hb).
      rewrite !compare_lists_spec. intros H i x y Hx Hy.
      rewrite Forall_lookup in IH. apply (IH i x Hx), (H i x y Hx Hy).
    + by destruct b.
  - destruct b as [| | | | | | |d2]; try done.
    rewrite !compare_values_dicts, !compare_dicts_spec.
    intros H key value Hin. destruct (H key value Hin) as (other & Hget & Hc).
    exists other. split; [done|].
    rewrite Forall_forall in IH. by apply (IH (key, value) Hin).
Qed.

Lemma compare_values_tolerance_monotone_witness :
  fle (of_int 3) (of_int 5) = true
  ∧ compare_values (of_int 3) (VList [VInt 100; VStr "on"])
      (VTuple [VInt 102; VStr "on"]) = Ok true
  ∧ compare_values (of_int 5) (VList [VInt 100; VStr "on"])
      (VTuple [VInt 102; VStr "on"]) = Ok true.
Proof.
  split; [reflexivity|]. split; [reflexivity|].
  apply (compare_values_tolerance_monotone (of_int 3) (of_int 5));
    reflexivity.
Defined.

Lemma compare_lists_sym tol (l1 l2 : list pyval) :
  Forall (λ x, ∀ y, no_dict y = true →
            compare_values tol x y = compare_values tol y x) l1 →
  forallb no_dict l2 = true →
  compare_lists tol l1 l2 = compare_lists tol l2 l1.
Proof.
  unfold compare_lists. intros H. revert l2.
  induction H as [|x r1 Hx _ IH]; intros [|y r2] Hl2; try done.
  cbn in Hl2. apply andb_prop in Hl2 as [Hy Hr2].
  cbn [zip_with_pairs compare_lists_pairs].
  by rewrite (Hx y Hy), (IH r2 Hr2).
Qed.

(** X2. On values that hold no dict the comparison is symmetric: numbers,
    strings, [None], sequences and any nesting of them compare the same
    in both directions, at every tolerance. *)
Theorem compare_values_sym_without_dict tol (a : pyval) :
  no_dict a = true →
  ∀ b, no_dict b = true → compare_values tol a b = compare_values tol b a.
Proof.
  induction a as [|x|z|f|s|l IH|l IH|d IH] using pyval_nested_ind;
    intros Ha b Hb.
  - by destruct b.
  - destruct b; try done; apply compare_numbers_sym.
  - destruct b; try done; apply compare_numbers_sym.
  - destruct b; try done; apply compare_numbers_sym.
  - destruct b; try done. cbn. f_equal. apply String.eqb_sym.
  - destruct (seq_items b) as [l2|] eqn:Hs; [|by destruct b].
    rewrite (compare_values_lists _ (VList l) b l l2 eq_refl Hs).
    rewrite (compare_values_lists _ b (VList l) l2 l Hs eq_refl).
    cbn in Ha. rewrite forallb_forall in Ha.
    apply compare_lists_sym.
    + rewrite Forall_forall in IH. apply Forall_forall. intros x Hx.
      apply IH; [done|]. by apply Ha, list_elem_of_In.
    + by destruct b; try discriminate; cbn in Hs, Hb; simplify_eq.
  - destruct (seq_items b) as [l2|] eqn:Hs; [|by destruct b].
    rewrite (compare_values_lists _ (VTuple l) b l l2 eq_refl Hs).
    rewrite (compare_values_lists _ b (VTuple l) l2 l Hs eq_refl).
    cbn in Ha. rewrite forallb_forall in Ha.
    apply compare_lists_sym.
    + rewrite Forall_forall in IH. apply Forall_forall. intros x Hx.
      apply IH; [done|]. by apply Ha, list_elem_of_In.
    + by destruct b; try discriminate; cbn in Hs, Hb; simplify_eq.
  - discriminate.
Qed.

Lemma compare_values_sym_without_dict_witness :
  no_dict (VList [VInt 1; VTuple [VStr "a"; VNone]]) = true
  ∧ no_dict (VTuple [VFloat (Fin (3 # 2)); VList [VStr "a"]; VInt 7]) = true
  ∧ compare_values (of_int 1) (VList [VInt 1; VTuple [VStr "a"; VNone]])
      (VTuple [VFloat (Fin (3 # 2)); VList [VStr "a"]; VInt 7])
    = compare_values (of_int 1)
        (VTuple [VFloat (Fin (3 # 2)); VList [VStr "a"]; VInt 7])
        (VList [VInt 1; VTuple [VStr "a"; VNone]]).
Proof.
  split; [reflexivity|]. split; [reflexivity|].
  apply (compare_values_sym_without_dict (of_int 1)); reflexivity.
Defined.

(** X3. A bool is compared as the number 0 or 1: at every tolerance
    [True] and [False] stand for [1] and [0] against every value, and two
    bools match exactly when the tolerance is at least their distance (0
    for equal bools, 1 for different ones); so once the tolerance is 1 or
    more any two bools compare equal, while at tolerance 0 [True] does not
    match [False]. *)
Theorem compare_values_bool_is_number tol (b1 b2 : bool) :
  (∀ v, compare_values tol (VBool b1) v
        = compare_values tol (VInt (if b1 then 1 else 0)) v)
  ∧ compare_values tol (VBool b1) (VBool b2)
    = Ok (fle (of_int (if eqb b1 b2 then 0 else 1)) tol)
  ∧ (fle (of_int 1) tol = true →
     compare_values tol (VBool b1) (VBool b2) = Ok true)
  ∧ compare_values (of_int 0) (VBool true) (VBool false) = Ok false.
Proof.
  assert (Hd : compare_values tol (VBool b1) (VBool b2)
               = Ok (fle (of_int (if eqb b1 b2 then 0 else 1)) tol))
    by (by destruct b1, b2).
  split; [|split; [exact Hd|split; [|reflexivity]]].
  - intros v. by destruct v.
  - intros Ht. rewrite Hd. f_equal.
    apply (fle_trans _ (of_int 1)); [by destruct b1, b2|done].
Qed.

Lemma compare_values_bool_is_number_witness :
  fle (of_int 1) (of_int 3) = true
  ∧ compare_values (of_int 3) (VBool true) (VBool false) = Ok true.
Proof.
  split; [reflexivity|].
  exact (proj1 (proj2 (proj2
           (compare_values_bool_is_number (of_int 3) true false))) eq_refl).
Defined.

(** X4. Values of different shapes never compare equal, at any tolerance:
    the number 100 does not match the string ["100"], a list does not
    match a dict, [None] matches only [None]. *)
Theorem compare_values_shape_mismatch tol a b :
  kind_of a ≠ kind_of b → compare_values tol a b = Ok false.
Proof. destruct a, b; cbn; intros H; try done. Qed.

Lemma compare_values_shape_mismatch_witness :
  kind_of (VInt 100) ≠ kind_of (VStr "100")
  ∧ compare_values (of_int 3) (VInt 100) (VStr "100") = Ok false.
Proof.
  split; [discriminate|].
  apply (compare_values_shape_mismatch (of_int 3)). discriminate.
Defined.

Lemma or_zero_negative tol :
  fgt (of_int 0) tol = true → or_zero (Some tol) = tol.
Proof.
  intros Ht. destruct tol as [t| | |]; cbn in *; try done.
  destruct (Qeq_bool t 0) eqn:Hz; [|done].
  apply Qeq_bool_iff in Hz. apply negb_true_iff in Ht.
  apply not_true_iff_false in Ht. destruct Ht.
  apply Qle_bool_iff. rewrite Hz. apply Qle_refl.
Qed.

Lemma fabs_not_below_zero tol d :
  fgt (of_int 0) tol = true → fle (num_value (num_abs d)) tol = false.
Proof.
  intros Ht. apply not_true_is_false. intros Hle.
  destruct d as [z|[p| | |]], tol as [t| | |]; cbn in Hle, Ht; try done;
    apply negb_true_iff, not_true_iff_false in Ht; apply Ht;
    apply Qle_bool_iff; apply Qle_bool_iff in Hle.
  - apply (Qle_trans _ (inject_Z (Z.abs z))); [|done].
    change 0%Q with (inject_Z 0). rewrite <- Zle_Qle. apply Z.abs_nonneg.
  - apply (Qle_trans _ (Qabs p)); [apply Qabs_nonneg|done].
Qed.

Lemma compare_numbers_negative_tolerance tol x y :
  fgt (of_int 0) tol = true →
  compare_numbers tol x y = Ok false
  ∨ compare_numbers tol x y = Raise OverflowError.
Proof.
  intros Ht. unfold compare_numbers.
  destruct (num_sub_outcome x y) as [[d ->]| ->]; [left|by right].
  cbn [mbind res_bind]. f_equal. by apply fabs_not_below_zero.
Qed.

(** X5. [set_number_tolerance] accepts a negative tolerance as it is, and
    with it no two numbers compare equal, not even a number and itself:
    the comparison gives false (or ends in the [OverflowError] of an [int]
    too large for the float it is compared with). *)
Theorem negative_tolerance_matches_no_number w tol a b x y :
  fgt (of_int 0) tol = true →
  as_number a = Some x → as_number b = Some y →
  _number_tolerance (self (set_number_tolerance (Some tol) w).2) = tol
  ∧ (compare_values
       (_number_tolerance (self (set_number_tolerance (Some tol) w).2)) a b
     = Ok false
     ∨ compare_values
         (_number_tolerance (self (set_number_tolerance (Some tol) w).2)) a b
       = Raise OverflowError).
Proof.
  intros Ht Ha Hb.
  assert (Hset : _number_tolerance
                   (self (set_number_tolerance (Some tol) w).2) = tol)
    by (cbn; by apply or_zero_negative).
  split; [done|]. rewrite Hset.
  destruct a; try discriminate; destruct b; try discriminate;
    by apply compare_numbers_negative_tolerance.
Qed.

Lemma negative_tolerance_matches_no_number_witness :
  fgt (of_int 0) (of_int (-1)) = true
  ∧ as_number (VInt 100) = Some (of_int 100)
  ∧ compare_values
      (_number_tolerance
         (self (set_number_tolerance (Some (of_int (-1)))
                  (configured both_matching living_room_conf true false)).2))
      (VInt 100) (VInt 100) = Ok false.
Proof.
  split; [reflexivity|]. split; [reflexivity|].
  destruct (proj2 (negative_tolerance_matches_no_number
                     (configured both_matching living_room_conf true false)
                     (of_int (-1)) (VInt 100) (VInt 100) _ _
                     eq_refl eq_refl eq_refl)) as [H|H];
    [exact H|discriminate H].
Defined.

(** ** Colours *)

Lemma fgt_negb_fle a tol :
  a ≠ NaN → tol ≠ NaN → fgt a tol = negb (fle a tol).
Proof. by destruct a, tol. Qed.

Lemma finite_number_inv v :
  finite_number v = true → ∃ p, as_number v = Some (Fin p).
Proof.
  unfold finite_number. destruct (as_number v) as [[p| | |]|]; try done.
  by exists p.
Qed.

Lemma int_like_pynum v :
  int_like v = true → ∃ z, as_pynum v = Some (NInt z).
Proof. destruct v; try done; by eexists. Qed.

(** On two [int]s the test of the colour loop without scaling is the
    negation of the test of [compare_numbers], and neither raises. *)
Lemma color_test_is_compare_numbers tol x y :
  tol ≠ NaN →
  compare_numbers tol (NInt x) (NInt y)
  = Ok (negb (fgt (num_value (num_mul (num_abs (NInt (x - y))) 1)) tol)).
Proof.
  intros Ht. unfold compare_numbers.
  cbn [num_sub mbind res_bind num_abs num_mul num_value].
  rewrite Z.mul_1_r, fgt_negb_fle by done. by rewrite negb_involutive.
Qed.

(** X6. On two sequences of [int]s (as the components of an RGB colour
    are), with a tolerance that is not NaN, the colour comparison without
    the xy scaling returns a truth value, and it is the one that the
    generic comparison returns. *)
Theorem compare_colors_agrees_with_compare_values tol color1 color2 l1 l2 :
  tol ≠ NaN →
  seq_items color1 = Some l1 → seq_items color2 = Some l2 →
  Forall (λ v, int_like v = true) l1 →
  Forall (λ v, int_like v = true) l2 →
  ∃ b, compare_colors tol false color1 color2 = Ok b
       ∧ compare_values tol color1 color2 = Ok b.
Proof.
  intros Ht H1 H2 F1 F2.
  rewrite (compare_values_lists tol color1 color2 l1 l2 H1 H2).
  assert (Hloop : ∃ b,
    compare_colors_loop tol false (zip_with_pairs l1 l2) = Ok b
    ∧ compare_lists tol l1 l2 = Ok b).
  { clear H1 H2. unfold compare_lists. revert l2 F2.
    induction F1 as [|x r1 Hx _ IH]; intros l2 F2; [by exists true|].
    destruct F2 as [|y r2 Hy F2]; [by exists true|].
    cbn [zip_with_pairs compare_colors_loop compare_lists_pairs].
    destruct (int_like_pynum x Hx) as [zx Hzx].
    destruct (int_like_pynum y Hy) as [zy Hzy].
    assert (Hc : compare_values tol x y = compare_numbers tol (NInt zx) (NInt zy)).
    { destruct x; try discriminate; destruct y; try discriminate;
        cbn in Hzx, Hzy; simplify_eq; reflexivity. }
    rewrite Hc, (color_test_is_compare_numbers tol zx zy Ht).
    unfold py_sub. rewrite Hzx, Hzy. cbn [num_sub mbind res_bind].
    destruct (fgt _ _); cbn [negb]; [by exists false|]. by apply IH. }
  destruct color1; try discriminate; destruct color2; try discriminate;
    cbn in H1, H2; simplify_eq; exact Hloop.
Qed.

Lemma compare_colors_agrees_with_compare_values_witness :
  of_int 3 ≠ NaN
  ∧ ∃ b, compare_colors (of_int 3) false red
           (VTuple [VInt 254; VInt 1; VInt 0]) = Ok b
         ∧ compare_values (of_int 3) red (VTuple [VInt 254; VInt 1; VInt 0])
           = Ok b.
Proof.
  split; [discriminate|].
  apply (compare_colors_agrees_with_compare_values (of_int 3) red
           (VTuple [VInt 254; VInt 1; VInt 0])
           [VInt 255; VInt 0; VInt 0] [VInt 254; VInt 1; VInt 0]).
  - discriminate.
  - reflexivity.
  - reflexivity.
  - repeat constructor.
  - repeat constructor.
Defined.

(** The difference of a finite number and itself is an exact zero. *)
Lemma num_sub_diag n q :
  num_value n = Fin q →
  num_sub n n = Ok (NInt 0) ∨ num_sub n n = Ok (NFloat (Fin 0)).
Proof.
  intros Hn. destruct n as [z|f]; cbn [num_sub to_float mbind res_bind].
  - left. by rewrite Z.sub_diag.
  - right. cbn in Hn. subst f. by rewrite fsub_diag.
Qed.

Lemma compare_colors_refl_numbers tol xy color l :
  fle (of_int 0) tol = true →
  seq_items color = Some l →
  Forall (λ v, finite_number v = true) l →
  compare_colors tol xy color color = Ok true.
Proof.
  intros Ht Hs Hf.
  assert (Htest : fgt (Fin 0) tol = false).
  { rewrite fgt_negb_fle; [|done|by destruct tol].
    assert (fle (Fin 0) tol = true) as -> by exact Ht. done. }
  assert (Hloop : compare_colors_loop tol xy (zip_with_pairs l l) = Ok true).
  { clear Hs. induction Hf as [|x r Hx _ IH]; [done|].
    cbn [zip_with_pairs compare_colors_loop].
    destruct (finite_number_inv x Hx) as [p Hp].
    apply as_number_pynum in Hp as (n & Hn & Hv).
    unfold py_sub. rewrite Hn.
    destruct (num_sub_diag n p Hv) as [-> | ->]; cbn [mbind res_bind].
    - replace (num_value _) with (Fin 0) by (by destruct xy).
      by rewrite Htest.
    - replace (num_value _) with (Fin 0) by (by destruct xy).
      by rewrite Htest. }
  destruct color; try discriminate; cbn in Hs; simplify_eq; exact Hloop.
Qed.

(** X7. A colour that is a sequence of finite numbers matches itself,
    with or without the xy scaling, whenever the tolerance is not
    negative. *)
Theorem compare_colors_refl tol xy color l :
  fle (of_int 0) tol = true →
  seq_items color = Some l →
  Forall (λ v, finite_number v = true) l →
  compare_colors tol xy color color = Ok true.
Proof. apply compare_colors_refl_numbers. Qed.

Lemma compare_colors_refl_witness :
  fle (of_int 0) (of_int 0) = true
  ∧ compare_colors (of_int 0) true
      (VList [VFloat (Fin (1 # 2)); VFloat (Fin (2 # 5))])
      (VList [VFloat (Fin (1 # 2)); VFloat (Fin (2 # 5))]) = Ok true.
Proof.
  split; [reflexivity|].
  apply (compare_colors_refl (of_int 0) true _
           [VFloat (Fin (1 # 2)); VFloat (Fin (2 # 5))]).
  - reflexivity.
  - reflexivity.
  - repeat constructor.
Defined.

(** * Further properties of the matcher *)

Lemma attributes_match_ext tol wanted wanted' got got' attrs :
  (∀ a, a ∈ attrs → dict_get a wanted = dict_get a wanted') →
  (∀ a, a ∈ attrs → dict_get a got = dict_get a got') →
  attributes_match tol wanted got attrs
  = attributes_match tol wanted' got' attrs.
Proof.
  induction attrs as [|a rest IH]; intros Hw Hg; [done|].
  cbn [attributes_match].
  rewrite <- (Hw a), <- (Hg a) by left.
  rewrite IH; [done| |]; intros a' Ha'; [apply Hw|apply Hg]; by right.
Qed.

(** X8. Besides the state and the domain of an observation, [check_state]
    and [is_interesting_update] read only the attributes that the table
    lists for that domain, and of the old state of an event only its state
    and those same attributes (not even its domain): observations that
    agree on those get the same verdict, whatever else they carry. *)
Theorem matcher_ignores_unlisted_attributes table self entity_id
    old old' o o' :
  state o = state o' →
  domain o = domain o' →
  state old = state old' →
  (∀ attrs a, dict_get (domain o) table = Some attrs → a ∈ attrs →
     dict_get a (attributes o) = dict_get a (attributes o')
     ∧ dict_get a (attributes old) = dict_get a (attributes old')) →
  check_state table self entity_id (Some o)
  = check_state table self entity_id (Some o')
  ∧ is_interesting_update table self (Some old) (Some o)
    = is_interesting_update table self (Some old') (Some o').
Proof.
  intros Hs Hd Hso Ha. split.
  - cbn [check_state]. rewrite <- Hs, <- Hd.
    destruct (_ && _); [done|].
    destruct (getitem entity_id (entities self)) as [wanted|]; [|done].
    cbn. destruct (getitem "state" wanted) as [ws|]; [|done]. cbn.
    destruct (compare_values _ ws (state o)) as [[]|]; cbn; [|done..].
    destruct (dict_get (domain o) table) as [attrs|] eqn:Ht; [|done].
    by rewrite (attributes_match_ext _ wanted wanted
                  (attributes o) (attributes o') attrs);
      [|done|intros a Hin; by apply (Ha attrs a)].
  - cbn. rewrite <- Hs, <- Hd, <- Hso.
    destruct (compare_values _ (state old) (state o)) as [[]|]; cbn;
      [|done..].
    destruct (dict_get (domain o) table) as [attrs|] eqn:Ht; [|done].
    by rewrite (attributes_match_ext _ (attributes old) (attributes old')
                  (attributes o) (attributes o') attrs);
      [|intros a Hin; by apply (Ha attrs a)..].
Qed.

(** The target of an entity is looked up late: for an entity that the
    scene does not list, or whose target has no [state], an absent
    observation is still not matched and an ignored unavailable one is
    still unknown; every other observation raises [KeyError]. *)
Lemma check_state_missing_target table self entity_id :
  (∀ wanted, dict_get entity_id (entities self) = Some wanted →
     dict_get "state" wanted = None) →
  check_state table self entity_id None = Ok (Some false)
  ∧ ∀ o, check_state table self entity_id (Some o)
         = if _ignore_unavailable self
              && py_eq (state o) (VStr "unavailable")
           then Ok None else Raise KeyError.
Proof.
  intros H. split; [done|]. intros o. cbn [check_state].
  destruct (_ && _); [done|]. unfold getitem.
  destruct (dict_get entity_id (entities self)) as [wanted|]; [|done].
  cbn. by rewrite (H wanted).
Qed.

Lemma matcher_ignores_unlisted_attributes_witness :
  state sofa_plain = state sofa_decorated
  ∧ domain sofa_plain = domain sofa_decorated
  ∧ state sofa_relabelled = state sofa_plain
  ∧ domain sofa_relabelled ≠ domain sofa_plain
  ∧ check_state spec_attributes_to_check
      (self (configured both_matching living_room_conf true false))
      "light.sofa" (Some sofa_plain)
    = check_state spec_attributes_to_check
        (self (configured both_matching living_room_conf true false))
        "light.sofa" (Some sofa_decorated)
  ∧ is_interesting_update spec_attributes_to_check
      (self (configured both_matching living_room_conf true false))
      (Some sofa_relabelled) (Some sofa_plain)
    = is_interesting_update spec_attributes_to_check
        (self (configured both_matching living_room_conf true false))
        (Some sofa_plain) (Some sofa_decorated).
Proof.
  split; [reflexivity|]. split; [reflexivity|]. split; [reflexivity|].
  split; [discriminate|].
  apply (matcher_ignores_unlisted_attributes spec_attributes_to_check
           (self (configured both_matching living_room_conf true false))
           "light.sofa" sofa_relabelled sofa_plain sofa_plain sofa_decorated).
  - reflexivity.
  - reflexivity.
  - reflexivity.
  - intros attrs a [= <-] Ha.
    repeat (apply elem_of_cons in Ha as [->|Ha]; [split; reflexivity|]).
    by apply elem_of_nil in Ha.
Defined.

Lemma check_state_missing_target_witness :
  check_state spec_attributes_to_check
    (self (configured both_matching living_room_conf true false))
    "light.unknown" None = Ok (Some false)
  ∧ check_state spec_attributes_to_check
      (self (configured both_matching living_room_conf true false))
      "light.unknown" (Some sofa_plain) = Raise KeyError.
Proof.
  destruct (check_state_missing_target spec_attributes_to_check
              (self (configured both_matching living_room_conf true false))
              "light.unknown") as [H1 H2].
  - intros wanted H. discriminate H.
  - split; [exact H1|]. exact (H2 sofa_plain).
Defined.

(** * Further properties of the callback *)

Lemma update_callback_writes table event w :
  _is_on (self (update_callback table event w).2) = _is_on (self w)
  ∧ states (self (update_callback table event w).2) = states (self w)
  ∧ restore_states (self (update_callback table event w).2)
    = <[ev_entity_id event := ev_old_state event]> (restore_states (self w))
  ∧ services_calls (hass (update_callback table event w).2)
    = services_calls (hass w)
  ∧ states_fetched (hass (update_callback table event w).2)
    = states_fetched (hass w)
  ∧ updates_scheduled (hass (update_callback table event w).2)
    = updates_scheduled (hass w)
      ++ match is_interesting_update table (self w) (ev_old_state event)
                 (ev_new_state event), schedule_update (self w) with
         | Ok true, Some _ => [true]
         | _, _ => []
         end.
Proof.
  unfold update_callback, store_entity_state. run_M.
  change (is_interesting_update table
            (with_restore_states _ (self w)) (ev_old_state event)
            (ev_new_state event))
    with (is_interesting_update table (self w) (ev_old_state event)
            (ev_new_state event)).
  destruct (is_interesting_update table (self w) _ _) as [[|]|err]; cbn;
    rewrite ?app_nil_r; try done.
  unfold call_schedule_update. cbn.
  destruct (schedule_update (self w)) as [[]|]; cbn;
    rewrite ?app_nil_r; done.
Qed.


(** X10. When an entity is removed (an old state but no new state) the
    callback fails with [AttributeError], from reading [new_state.state];
    the old state has been stored by then and no update is requested. *)
Theorem update_callback_removed_entity table event w old :
  ev_old_state event = Some old →
  ev_new_state event = None →
  (update_callback table event w).1 = Raise AttributeError
  ∧ restore_states (self (update_callback table event w).2)
      !! ev_entity_id event = Some (Some old)
  ∧ updates_scheduled (hass (update_callback table event w).2)
    = updates_scheduled (hass w).
Proof.
  intros Hold Hnew. unfold update_callback, store_entity_state. run_M.
  rewrite Hold, Hnew. cbn. split; [done|]. split; [|done].
  apply lookup_insert_eq.
Qed.

Lemma update_callback_removed_entity_witness :
  (update_callback spec_attributes_to_check
     (mkEvent "light.sofa" None (Some sofa_plain))
     (configured both_matching living_room_conf true false)).1
  = Raise AttributeError.
Proof.
  exact (proj1 (update_callback_removed_entity spec_attributes_to_check
                  (mkEvent "light.sofa" None (Some sofa_plain))
                  (configured both_matching living_room_conf true false)
                  sofa_plain eq_refl eq_refl)).
Defined.

(** * Further properties of [check_all_states] *)

Lemma scene_eta (s : Scene) : with_is_on (_is_on s) (with_states (states s) s) = s.
Proof. by destruct s. Qed.

Lemma check_all_states_loop_frame table ids w :
  ∃ m v k,
    (check_all_states_loop table ids w).2
    = mkWorld (with_is_on v (with_states m (self w)))
        (mkHass (hass_states (hass w)) (services_calls (hass w))
           (states_fetched (hass w) ++ take k ids)
           (updates_scheduled (hass w)))
    ∧ (∀ e, is_Some (states (self w) !! e) → is_Some (m !! e))
    ∧ (∀ e, is_Some (m !! e) → is_Some (states (self w) !! e) ∨ e ∈ ids).
Proof.
  revert w. induction ids as [|e rest IH]; intros w.
  - exists (states (self w)), (_is_on (self w)), 0. cbn.
    rewrite scene_eta, app_nil_r. split; [by destruct w as [s []]|].
    split; [done|]. intros e He. by left.
  - cbn [check_all_states_loop]. run_M.
    destruct (check_state table (self w) e _) as [r|err]; cbn.
    + rewrite lookup_insert_eq.
      assert (Hgrow : ∀ e', is_Some (states (self w) !! e') →
                is_Some (<[e:=r]> (states (self w)) !! e')).
      { intros e' He'. destruct (decide (e = e')) as [->|Hne].
        - rewrite lookup_insert_eq. by eexists.
        - by rewrite lookup_insert_ne. }
      assert (Hnew : ∀ e', is_Some (<[e:=r]> (states (self w)) !! e') →
                is_Some (states (self w) !! e') ∨ e' ∈ e :: rest).
      { intros e' He'. destruct (decide (e = e')) as [->|Hne].
        - right. left.
        - left. by rewrite lookup_insert_ne in He'. }
      destruct (negb (_restore_on_deactivate (self w)) && negb (truthy r)).
      * exists (<[e:=r]> (states (self w))), (Some false), 1. done.
      * edestruct IH as (m & v & k & -> & Hm1 & Hm2). exists m, v, (S k).
        cbn in *. split; [by rewrite <- app_assoc|]. split.
        -- intros e' He'. by apply Hm1, Hgrow.
        -- intros e' He'. destruct (Hm2 e' He') as [H|H].
           ++ by apply Hnew.
           ++ right. by right.
    + exists (states (self w)), (_is_on (self w)), 1. cbn.
      rewrite scene_eta. split; [done|]. split; [done|]. intros e' He'. by left.
Qed.

Lemma check_all_states_changes table w :
  ∃ m v k,
    (check_all_states table w).2
    = mkWorld (with_is_on v (with_states m (self w)))
        (mkHass (hass_states (hass w)) (services_calls (hass w))
           (states_fetched (hass w) ++ take k (entities (self w)).*1)
           (updates_scheduled (hass w)))
    ∧ (∀ e, is_Some (states (self w) !! e) → is_Some (m !! e))
    ∧ (∀ e, is_Some (m !! e) →
         is_Some (states (self w) !! e) ∨ e ∈ (entities (self w)).*1).
Proof.
  unfold check_all_states. run_M.
  destruct (check_all_states_loop_frame table (entities (self w)).*1 w)
    as (m & v & k & Hw & Hm1 & Hm2).
  destruct (check_all_states_loop table _ w) as [[[|]|err] w'];
    cbn in Hw; subst w'; cbn.
  - by exists m, v, k.
  - eexists m, _, k. split; [|done]. by destruct (bool_decide _).
  - by exists m, v, k.
Qed.

(** X11. Whatever happens in it, [check_all_states] changes only the
    cached match results and the verdict: the configuration, the flags,
    [restore_states] and the registered callbacks stay as they are, no
    service is called, no update is requested, and the states it fetches
    are an initial stretch of the entities in declared order.  No cached
    result is dropped, and new ones appear for entities of the scene
    only. *)
Theorem check_all_states_frame table w :
  ∃ m v k,
    (check_all_states table w).2
    = mkWorld (with_is_on v (with_states m (self w)))
        (mkHass (hass_states (hass w)) (services_calls (hass w))
           (states_fetched (hass w) ++ take k (entities (self w)).*1)
           (updates_scheduled (hass w)))
    ∧ (∀ e, is_Some (states (self w) !! e) → is_Some (m !! e))
    ∧ (∀ e, is_Some (m !! e) →
         is_Some (states (self w) !! e) ∨ e ∈ (entities (self w)).*1).
Proof. apply check_all_states_changes. Qed.

Lemma check_all_states_loop_raise table w e rest err :
  live_result table w e = Raise err →
  check_all_states_loop table (e :: rest) w
  = (Raise err,
     mkWorld (self w)
       (mkHass (hass_states (hass w)) (services_calls (hass w))
          (states_fetched (hass w) ++ [e]) (updates_scheduled (hass w)))).
Proof.
  intros Herr. unfold live_result in Herr.
  cbn [check_all_states_loop]. run_M. by rewrite Herr.
Qed.

(** X12. An exception of [check_state] for one entity ends the whole
    re-evaluation: it reaches the caller, the verdict stays what it was,
    the results of the entities before it have been cached and nothing
    after it is fetched. *)
Theorem check_all_states_propagates table w pre e post rs err :
  (entities (self w)).*1 = pre ++ e :: post →
  Forall2 (λ e r, live_result table w e = Ok r
                  ∧ (_restore_on_deactivate (self w) = true ∨ r = Some true))
    pre rs →
  live_result table w e = Raise err →
  (check_all_states table w).1 = Raise err
  ∧ _is_on (self (check_all_states table w).2) = _is_on (self w)
  ∧ states (self (check_all_states table w).2)
    = states (self (after_scan w pre rs))
  ∧ states_fetched (hass (check_all_states table w).2)
    = states_fetched (hass w) ++ pre ++ [e].
Proof.
  intros Hids Hscan Herr. unfold check_all_states. run_M. rewrite Hids.
  rewrite (check_all_states_loop_prefix table w pre (e :: post) rs Hscan).
  rewrite (check_all_states_loop_raise table (after_scan w pre rs) e post err)
    by done.
  cbn. by rewrite <- app_assoc.
Qed.

Lemma check_all_states_propagates_witness :
  (check_all_states spec_attributes_to_check
     (configured lamp_color_number living_room_conf true false)).1
  = Raise TypeError
  ∧ _is_on (self (check_all_states spec_attributes_to_check
                    (configured lamp_color_number living_room_conf
                       true false)).2) = None.
Proof.
  destruct (check_all_states_propagates spec_attributes_to_check
              (configured lamp_color_number living_room_conf true false)
              ["light.sofa"] "light.lamp" [] [Some true] TypeError)
    as (H1 & H2 & _).
  - reflexivity.
  - repeat constructor.
  - reflexivity.
  - split; [exact H1|exact H2].
Defined.

Lemma list_to_map_const_is_Some {V} (ids : list string) (c : V) k :
  is_Some ((list_to_map ((λ e, (e, c)) <$> ids) : gmap string V) !! k)
  ↔ k ∈ ids.
Proof.
  split.
  - intros [v Hv]. apply elem_of_list_to_map_2 in Hv.
    apply list_elem_of_fmap in Hv as (e & [= -> _] & He). done.
  - intros Hk. destruct (list_to_map _ !! k) as [v|] eqn:Hv; [by eexists|].
    apply not_elem_of_list_to_map in Hv. destruct Hv.
    by rewrite fmap_pair_const_fst.
Qed.

Lemma Scene_init_self h conf :
  entities (self (Scene_init h conf)) = conf_entities conf
  ∧ states (self (Scene_init h conf))
    = list_to_map ((λ e, (e, Some false)) <$> (conf_entities conf).*1)
  ∧ restore_states (self (Scene_init h conf))
    = list_to_map ((λ e, (e, None)) <$> (conf_entities conf).*1)
  ∧ _is_on (self (Scene_init h conf)) = None
  ∧ _restore_on_deactivate (self (Scene_init h conf)) = true
  ∧ _ignore_unavailable (self (Scene_init h conf)) = false.
Proof.
  unfold Scene_init. destruct (conf_entity_id conf) as [e|]; [done|].
  by destruct (get_entity_id_from_id h (conf_id conf)).
Qed.

Lemma configured_self h conf restore ignore :
  entities (self (configured h conf restore ignore)) = conf_entities conf
  ∧ states (self (configured h conf restore ignore))
    = list_to_map ((λ e, (e, Some false)) <$> (conf_entities conf).*1).
Proof.
  destruct (Scene_init_self h conf) as (He & Hs & _). split.
  - transitivity (entities (self (Scene_init h conf))); [reflexivity|done].
  - transitivity (states (self (Scene_init h conf))); [reflexivity|done].
Qed.

Lemma configured_states_dom h conf restore ignore k :
  is_Some (states (self (configured h conf restore ignore)) !! k) →
  k ∈ (entities (self (configured h conf restore ignore))).*1.
Proof.
  destruct (configured_self h conf restore ignore) as [-> ->].
  apply list_to_map_const_is_Some.
Qed.

Lemma foldl_insert_zip_lookup {V} (m : gmap string V) ids (rs : list V) i e r :
  NoDup ids → ids !! i = Some e → rs !! i = Some r →
  foldl (λ m p, <[p.1 := p.2]> m) m (zip_with_pairs ids rs) !! e = Some r.
Proof.
  intros Hnd. revert m i rs.
  induction Hnd as [|e0 ids' Hnotin _ IH]; intros m i rs He Hr; [done|].
  destruct rs as [|r0 rs']; [done|]. destruct i as [|i]; cbn in *.
  - simplify_eq. rewrite foldl_insert_notin; [apply lookup_insert_eq|].
    intros Hin. apply Hnotin.
    apply list_elem_of_fmap in Hin as ([k v] & -> & Hin).
    apply list_elem_of_lookup in Hin as [j Hj].
    apply zip_with_pairs_lookup in Hj as [Hj _].
    apply list_elem_of_lookup. by exists j.
  - by apply (IH _ i).
Qed.

Lemma foldl_insert_zip_inv {V} (m : gmap string V) ids (rs : list V) k v :
  NoDup ids → length ids = length rs →
  foldl (λ m p, <[p.1 := p.2]> m) m (zip_with_pairs ids rs) !! k = Some v →
  (∃ i, ids !! i = Some k ∧ rs !! i = Some v)
  ∨ ((k ∉ ids) ∧ (m !! k = Some v)).
Proof.
  intros Hnd Hlen Hk. destruct (decide (k ∈ ids)) as [Hin|Hin].
  - left. apply list_elem_of_lookup in Hin as [i Hi]. exists i.
    split; [done|].
    destruct (rs !! i) as [r|] eqn:Hr.
    + rewrite (foldl_insert_zip_lookup m ids rs i k r Hnd Hi Hr) in Hk.
      by simplify_eq.
    + apply lookup_ge_None in Hr. apply lookup_lt_Some in Hi. lia.
  - right. split; [done|].
    rewrite foldl_insert_notin in Hk; [done|].
    by rewrite zip_with_pairs_fst.
Qed.

Lemma all_known_states (m : gmap string (option bool)) :
  all (known_states m) = true ↔ ∀ k b, m !! k = Some (Some b) → b = true.
Proof.
  unfold all, known_states. rewrite forallb_forall. split.
  - intros H k b Hk. apply (H b), list_elem_of_In, list_elem_of_omap.
    exists (Some b). split; [|done].
    apply list_elem_of_fmap. exists (k, Some b). split; [done|].
    by apply elem_of_map_to_list.
  - intros H b Hb.
    apply list_elem_of_In, list_elem_of_omap in Hb as (y & Hy & Hb).
    cbn in Hb. subst y.
    apply list_elem_of_fmap in Hy as ([k v] & Hv & Hy). cbn in Hv. subst v.
    apply elem_of_map_to_list in Hy. by apply (H k).
Qed.

Lemma no_mismatch_lookup rs :
  no_mismatch rs = true ↔ ∀ i b, rs !! i = Some (Some b) → b = true.
Proof.
  unfold no_mismatch. rewrite forallb_forall. split.
  - intros H i b Hi.
    assert (Hin : In (Some b) rs)
      by (apply list_elem_of_In, list_elem_of_lookup; eauto).
    specialize (H _ Hin). by destruct b.
  - intros H r Hr.
    apply list_elem_of_In, list_elem_of_lookup in Hr as [i Hi].
    destruct r as [[|]|]; try done. by specialize (H i false Hi).
Qed.

(** X13. With [restore_on_deactivate] on and no exception, one
    re-evaluation fetches every entity once, in declared order, caches
    the result of each, and turns the scene on exactly when no result is
    [False]: unknown results do not count, and a scene all of whose
    results are unknown is on. *)
Theorem check_all_states_full_verdict table w rs :
  _restore_on_deactivate (self w) = true →
  NoDup (entities (self w)).*1 →
  Forall2 (λ e r, live_result table w e = Ok r) (entities (self w)).*1 rs →
  (∀ k, is_Some (states (self w) !! k) → k ∈ (entities (self w)).*1) →
  (check_all_states table w).1 = Ok tt
  ∧ (∀ i e r, (entities (self w)).*1 !! i = Some e → rs !! i = Some r →
       states (self (check_all_states table w).2) !! e = Some r)
  ∧ states_fetched (hass (check_all_states table w).2)
    = states_fetched (hass w) ++ (entities (self w)).*1
  ∧ _is_on (self (check_all_states table w).2) = Some (no_mismatch rs).
Proof.
  intros Hrest Hnd Hres Hdom.
  set (ids := (entities (self w)).*1) in *.
  assert (Hlen : length ids = length rs) by (by eapply Forall2_length).
  assert (Hscan : Forall2 (λ e r, live_result table w e = Ok r
      ∧ (_restore_on_deactivate (self w) = true ∨ r = Some true)) ids rs).
  { eapply Forall2_impl; [exact Hres|]. intros e r Hr. split; [done|by left]. }
  rewrite (check_all_states_full_pass table w rs Hscan). cbn.
  fold ids. split; [done|]. split; [|split; [done|]].
  - intros i e r. by apply foldl_insert_zip_lookup.
  - f_equal. apply eq_iff_eq_true.
    rewrite all_known_states, no_mismatch_lookup. split.
    + intros H i b Hi.
      destruct (ids !! i) as [e|] eqn:He.
      * apply (H e). by apply (foldl_insert_zip_lookup _ ids rs i).
      * apply lookup_ge_None in He. apply lookup_lt_Some in Hi. lia.
    + intros H k b Hk.
      apply foldl_insert_zip_inv in Hk as [(i & _ & Hi)|[Hnotin Hk]];
        [by apply (H i)| |done|done].
      destruct Hnotin. apply Hdom. by eexists.
Qed.

Lemma check_all_states_full_verdict_witness :
  (check_all_states spec_attributes_to_check
     (configured hallway_ceiling_unavailable hallway_conf true true)).1
  = Ok tt
  ∧ _is_on (self (check_all_states spec_attributes_to_check
                    (configured hallway_ceiling_unavailable hallway_conf
                       true true)).2)
    = Some (no_mismatch [Some true; None; Some true]).
Proof.
  destruct (check_all_states_full_verdict spec_attributes_to_check
              (configured hallway_ceiling_unavailable hallway_conf true true)
              [Some true; None; Some true]) as (H1 & _ & _ & H4).
  - reflexivity.
  - cbn. apply (bool_decide_unpack _). vm_compute. exact I.
  - repeat constructor.
  - intros k. apply configured_states_dom.
  - split; [exact H1|exact H4].
Defined.

(** X14. Switching [restore_on_deactivate] from off to on re-evaluates
    the scene at once, and that pass is a full one: when no comparison
    raises, every entity is fetched and its cached result is the live
    one, so whatever an earlier shortcut left stale is fresh again. *)
Theorem enabling_restore_refreshes_every_entity table w rs :
  _restore_on_deactivate (self w) = false →
  NoDup (entities (self w)).*1 →
  Forall2 (λ e r, live_result table w e = Ok r) (entities (self w)).*1 rs →
  (set_restore_on_deactivate table true w).1 = Ok tt
  ∧ _restore_on_deactivate (self (set_restore_on_deactivate table true w).2)
    = true
  ∧ states_fetched (hass (set_restore_on_deactivate table true w).2)
    = states_fetched (hass w) ++ (entities (self w)).*1
  ∧ ∀ i e r, (entities (self w)).*1 !! i = Some e → rs !! i = Some r →
      states (self (set_restore_on_deactivate table true w).2) !! e = Some r.
Proof.
  intros Hold Hnd Hres.
  set (w1 := mkWorld (with_restore_on_deactivate true (self w)) (hass w)).
  assert (Hrun : set_restore_on_deactivate table true w
                 = check_all_states table w1).
  { unfold set_restore_on_deactivate. run_M. by rewrite Hold. }
  assert (Hscan : Forall2 (λ e r, live_result table w1 e = Ok r
      ∧ (_restore_on_deactivate (self w1) = true ∨ r = Some true))
      (entities (self w1)).*1 rs).
  { eapply Forall2_impl; [exact Hres|]. intros e r Hr. split; [exact Hr|by left]. }
  rewrite Hrun, (check_all_states_full_pass table w1 rs Hscan). cbn.
  split; [done|]. split; [done|]. split; [done|].
  intros i e r. by apply foldl_insert_zip_lookup.
Qed.

Lemma enabling_restore_refreshes_every_entity_witness :
  _restore_on_deactivate
    (self (configured hallway_ceiling_off hallway_conf false false)) = false
  ∧ states_fetched
      (hass (set_restore_on_deactivate spec_attributes_to_check true
               (configured hallway_ceiling_off hallway_conf false false)).2)
    = [] ++ ["switch.fan"; "light.ceiling"; "cover.blind"].
Proof.
  split; [reflexivity|].
  destruct (enabling_restore_refreshes_every_entity spec_attributes_to_check
              (configured hallway_ceiling_off hallway_conf false false)
              [Some true; Some false; Some true]) as (_ & _ & H & _).
  - reflexivity.
  - cbn. apply (bool_decide_unpack _). vm_compute. exact I.
  - repeat constructor.
  - exact H.
Defined.

(** * Invariants of a scene under all its methods *)

Ltac frame_same :=
  repeat match goal with
         | |- _ ∧ _ => split
         | |- ∃ l, ?x = ?x ++ l ∧ _ => exists []; rewrite app_nil_r; cbn
         | |- ∃ l, ?x ++ [?c] = ?x ++ l ∧ _ => exists [c]; cbn
         end;
  try done; try lia; try (intros; by left).

Lemma run_action_frame table a w :
  entities (self (run_action table a w).2) = entities (self w)
  ∧ (∀ k, is_Some (states (self w) !! k) →
       is_Some (states (self (run_action table a w).2) !! k))
  ∧ (∀ k, is_Some (states (self (run_action table a w).2) !! k) →
       is_Some (states (self w) !! k) ∨ k ∈ (entities (self w)).*1)
  ∧ (∀ k, is_Some (restore_states (self w) !! k) →
       is_Some (restore_states (self (run_action table a w).2) !! k))
  ∧ (is_callback a = false →
     restore_states (self (run_action table a w).2) = restore_states (self w))
  ∧ ∃ l, services_calls (hass (run_action table a w).2)
         = services_calls (hass w) ++ l
         ∧ (List.length l ≤ (if is_switch a then 1 else 0))%nat.
Proof.
  destruct a as [| |v|v|t|t|t| | |event|];
    cbn [run_action is_switch is_callback].
  - unfold turn_on, hass_services_call. run_M.
    destruct (_entity_id (self w)); cbn; frame_same.
  - unfold turn_off, restore, hass_services_call. run_M.
    destruct (truthy (_is_on (self w))); cbn; [|frame_same].
    destruct (_restore_on_deactivate (self w)); cbn; frame_same.
  - unfold set_restore_on_deactivate, mbind, M_bind, get_self, modify_self,
      mret, M_ret.
    cbn -[check_all_states].
    destruct (_restore_on_deactivate (self w)), v; cbn -[check_all_states];
      [frame_same|frame_same| |frame_same].
    destruct (check_all_states_changes table
                (mkWorld (with_restore_on_deactivate true (self w)) (hass w)))
      as (m & v' & k & -> & Hm1 & Hm2).
    cbn in *. frame_same.
  - unfold set_ignore_unavailable. run_M. frame_same.
  - unfold set_number_tolerance. run_M. frame_same.
  - unfold set_transition_time. run_M. frame_same.
  - unfold set_debounce_time. run_M. frame_same.
  - unfold register_callback. run_M.
    destruct (dict_get "schedule_update_func" _); cbn; [|frame_same].
    destruct (dict_get "state_change_func" _); cbn; frame_same.
  - unfold unregister_callback. run_M.
    destruct (callback (self w)) as [[]|]; cbn; frame_same.
  - destruct (update_callback_writes table event w)
      as (_ & Hs & Hr & Hc & _).
    assert (He : entities (self (update_callback table event w).2)
                 = entities (self w)).
    { unfold update_callback, store_entity_state. run_M.
      destruct (is_interesting_update _ _ _ _) as [[|]|]; cbn; try done.
      unfold call_schedule_update. cbn.
      by destruct (schedule_update (self w)) as [[]|]. }
    rewrite He, Hs, Hr, Hc. frame_same.
    intros k Hk. destruct (decide (ev_entity_id event = k)) as [->|Hne].
    + rewrite lookup_insert_eq. by eexists.
    + by rewrite lookup_insert_ne.
  - destruct (check_all_states_changes table w)
      as (m & v' & k & -> & Hm1 & Hm2).
    cbn in *. frame_same.
Qed.

Lemma run_actions_invariant table acts w (E : list (string * pydict)) :
  entities (self w) = E →
  (∀ k, is_Some (states (self w) !! k) ↔ k ∈ E.*1) →
  (∀ k, k ∈ E.*1 → is_Some (restore_states (self w) !! k)) →
  entities (self (run_actions table acts w)) = E
  ∧ (∀ k, is_Some (states (self (run_actions table acts w)) !! k) ↔ k ∈ E.*1)
  ∧ (∀ k, k ∈ E.*1 →
       is_Some (restore_states (self (run_actions table acts w)) !! k)).
Proof.
  revert w. induction acts as [|a rest IH]; intros w He Hs Hr; [done|].
  cbn [run_actions].
  destruct (run_action_frame table a w) as (He' & Hs1 & Hs2 & Hr' & _).
  apply IH.
  - by rewrite He'.
  - intros k. split.
    + intros Hk. destruct (Hs2 k Hk) as [H|H]; [by apply Hs|by rewrite <- He].
    + intros Hk. by apply Hs1, Hs.
  - intros k Hk. by apply Hr', Hr.
Qed.

(** X15. Whatever is done with a scene after its construction, in any
    order and whether or not it raises: its entities stay the configured
    ones, the cache of match results has an entry for exactly those
    entities, and the cache of observations has an entry for each of
    them. *)
Theorem scene_invariants table h conf acts :
  entities (self (run_actions table acts (Scene_init h conf)))
  = conf_entities conf
  ∧ (∀ k, is_Some (states (self (run_actions table acts (Scene_init h conf)))
                     !! k) ↔ k ∈ (conf_entities conf).*1)
  ∧ (∀ k, k ∈ (conf_entities conf).*1 →
       is_Some (restore_states
                  (self (run_actions table acts (Scene_init h conf))) !! k)).
Proof.
  destruct (Scene_init_self h conf) as (He & Hs & Hr & _).
  apply run_actions_invariant; [done| |].
  - intros k. rewrite Hs. apply list_to_map_const_is_Some.
  - intros k Hk. rewrite Hr. by apply list_to_map_const_is_Some.
Qed.

(** X16. Only [turn_on] and [turn_off] call services: over any sequence
    of actions the service log only grows, and by at most one call for
    each of the two; re-evaluations, callbacks and setters add none. *)
Theorem services_called_by_switching_only table acts w :
  ∃ l, services_calls (hass (run_actions table acts w))
       = services_calls (hass w) ++ l
       ∧ (List.length l ≤ List.length (List.filter is_switch acts))%nat.
Proof.
  revert w. induction acts as [|a rest IH]; intros w.
  - exists []. by rewrite app_nil_r.
  - cbn [run_actions List.filter].
    destruct (run_action_frame table a w) as (_ & _ & _ & _ & _ & l1 & H1 & L1).
    destruct (IH (run_action table a w).2) as (l2 & H2 & L2).
    exists (l1 ++ l2). rewrite H2, H1, <- app_assoc. split; [done|].
    rewrite length_app. destruct (is_switch a); cbn; lia.
Qed.

(** * Ordered dicts *)

Lemma dict_get_dict_set_eq {A} key (value : A) d :
  dict_get key (dict_set key value d) = Some value.
Proof.
  induction d as [|[k v] r IH]; cbn.
  - by rewrite String.eqb_refl.
  - destruct (String.eqb_spec key k) as [->|Hne]; cbn.
    + by rewrite String.eqb_refl.
    + by destruct (String.eqb_spec key k).
Qed.

Lemma dict_get_dict_set_ne {A} key key' (value : A) d :
  key ≠ key' → dict_get key' (dict_set key value d) = dict_get key' d.
Proof.
  intros Hne. induction d as [|[k v] r IH]; cbn.
  - by destruct (String.eqb_spec key' key) as [->|].
  - destruct (String.eqb_spec key k) as [->|Hk]; cbn.
    + by destruct (String.eqb_spec key' k) as [->|].
    + by rewrite IH.
Qed.

Lemma dict_set_keys {A} key (value : A) d k :
  k ∈ (dict_set key value d).*1 ↔ k = key ∨ k ∈ d.*1.
Proof.
  induction d as [|[k0 v] r IH]; cbn.
  - rewrite list_elem_of_singleton. split; [by left|intros [?|H]; [done|]].
    by apply elem_of_nil in H.
  - destruct (String.eqb_spec key k0) as [->|Hk]; cbn.
    + rewrite !elem_of_cons. tauto.
    + rewrite !elem_of_cons, IH. tauto.
Qed.

Lemma dict_set_NoDup {A} key (value : A) d :
  NoDup d.*1 → NoDup (dict_set key value d).*1.
Proof.
  induction d as [|[k v] r IH]; cbn; intros Hnd.
  - apply NoDup_singleton.
  - apply NoDup_cons in Hnd as [Hk Hnd].
    destruct (String.eqb_spec key k) as [->|Hne]; cbn.
    + by apply NoDup_cons.
    + apply NoDup_cons. split; [|by apply IH].
      rewrite dict_set_keys. intros [->|H]; done.
Qed.

(** * Restoring *)

Section restore_facts.
Variable table : list (string * list string).

(** The value that the table lets through for an attribute of a state. *)
Lemma restore_entry_lookup stored a :
  dict_get a (restore_entry table stored)
  = match dict_get (domain stored) table with
    | Some attrs =>
        match dict_get a (attributes stored) with
        | Some value =>
            if bool_decide (a ∈ attrs) then Some value
            else dict_get a [("state", state stored)]
        | None => dict_get a [("state", state stored)]
        end
    | None => dict_get a [("state", state stored)]
    end.
Proof.
  unfold restore_entry.
  destruct (dict_get (domain stored) table) as [attrs|]; [|done].
  generalize [("state", state stored)] as entry.
  induction attrs as [|x rest IH]; intros entry.
  - cbn. rewrite bool_decide_eq_false_2 by apply not_elem_of_nil.
    by destruct (dict_get a (attributes stored)).
  - cbn [foldl]. rewrite IH.
    destruct (dict_get a (attributes stored)) as [value|] eqn:Ha.
    + destruct (decide (a ∈ rest)) as [Hin|Hin].
      * rewrite !bool_decide_eq_true_2; [done|by right|done].
      * rewrite (bool_decide_eq_false_2 (a ∈ rest)) by done.
        destruct (decide (a = x)) as [->|Hne].
        -- rewrite Ha, dict_get_dict_set_eq.
           by rewrite bool_decide_eq_true_2 by left.
        -- rewrite (bool_decide_eq_false_2 (a ∈ x :: rest));
             [|by intros [?|?]%elem_of_cons].
           destruct (dict_get x (attributes stored)); [|done].
           by rewrite dict_get_dict_set_ne.
    + destruct (dict_get x (attributes stored)) as [vx|] eqn:Hx; [|done].
      rewrite dict_get_dict_set_ne; [done|]. intros ->. congruence.
Qed.

(** X17. What [restore] sends for an entity after a callback has stored
    its old state: an entry for that entity whose [state] is the stored
    state and which carries exactly those attributes of the stored state
    that the table lists for its domain (the table is taken not to list
    [state] itself). *)
Theorem restore_after_callback event stored w attrs :
  ev_old_state event = Some stored →
  dict_get (domain stored) table = Some attrs →
  "state" ∉ attrs →
  restore_entities table (self (update_callback table event w).2)
    !! ev_entity_id event = Some (restore_entry table stored)
  ∧ dict_get "state" (restore_entry table stored) = Some (state stored)
  ∧ ∀ a, a ≠ "state" →
      dict_get a (restore_entry table stored)
      = if bool_decide (a ∈ attrs) then dict_get a (attributes stored)
        else None.
Proof.
  intros Hold Hattrs Hstate. split; [|split].
  - unfold restore_entities. rewrite lookup_omap.
    destruct (update_callback_writes table event w) as (_ & _ & -> & _).
    by rewrite lookup_insert_eq, Hold.
  - rewrite restore_entry_lookup, Hattrs.
    destruct (dict_get "state" (attributes stored)); [|done].
    by rewrite bool_decide_eq_false_2.
  - intros a Ha. rewrite restore_entry_lookup, Hattrs.
    assert (Hs : dict_get a [("state", state stored)] = None).
    { cbn. by destruct (String.eqb_spec a "state"). }
    rewrite Hs. destruct (dict_get a (attributes stored)); [done|].
    by destruct (bool_decide _).
Qed.

Lemma restore_entities_unobserved (s : Scene) ids :
  restore_states s = list_to_map ((λ e, (e, None)) <$> ids) →
  restore_entities table s = ∅.
Proof.
  intros Hr. apply map_eq. intros k. unfold restore_entities.
  rewrite lookup_omap, lookup_empty, Hr.
  destruct (list_to_map _ !! k) as [v|] eqn:Hv; [|done].
  apply elem_of_list_to_map_2 in Hv.
  by apply list_elem_of_fmap in Hv as (e & [= -> ->] & _).
Qed.

Lemma run_actions_restore_states acts w :
  Forall (λ a, is_callback a = false) acts →
  restore_states (self (run_actions table acts w)) = restore_states (self w).
Proof.
  intros H. revert w. induction H as [|a rest Ha _ IH]; intros w; [done|].
  cbn [run_actions]. rewrite IH.
  by apply (run_action_frame table a w).
Qed.

(** X18. As long as no callback has run, nothing is stored for restoring:
    whatever else has been done with the scene since its construction,
    [restore] sends [scene.apply] with an empty set of entities, and with
    the transition time unless that has been set to [None]. *)
Theorem restore_without_callback_is_empty h conf acts :
  Forall (λ a, is_callback a = false) acts →
  restore_entities table (self (run_actions table acts (Scene_init h conf)))
  = ∅
  ∧ services_calls
      (hass (restore table (run_actions table acts (Scene_init h conf))).2)
    = services_calls (hass (run_actions table acts (Scene_init h conf)))
      ++ [mkServiceCall "scene" "apply" []
            match _transition_time
                    (self (run_actions table acts (Scene_init h conf))) with
            | VNone => [("entities", VDict [])]
            | transition_time =>
                [("entities", VDict []); ("transition", transition_time)]
            end].
Proof.
  intros Hacts.
  assert (He : restore_entities table
                 (self (run_actions table acts (Scene_init h conf))) = ∅).
  { apply (restore_entities_unobserved _ (conf_entities conf).*1).
    rewrite run_actions_restore_states by done.
    apply (Scene_init_self h conf). }
  split; [done|].
  unfold restore, hass_services_call. run_M. rewrite He.
  rewrite fmap_empty, map_to_list_empty.
  by destruct (_transition_time _).
Qed.
End restore_facts.

Lemma restore_after_callback_witness :
  restore_entities spec_attributes_to_check
    (self (update_callback spec_attributes_to_check sofa_turned_off
             (configured sofa_off living_room_conf true false)).2)
    !! "light.sofa"
  = Some (restore_entry spec_attributes_to_check sofa_plain)
  ∧ dict_get "state" (restore_entry spec_attributes_to_check sofa_plain)
    = Some (VStr "on").
Proof.
  destruct (restore_after_callback spec_attributes_to_check sofa_turned_off
              sofa_plain (configured sofa_off living_room_conf true false)
              ["brightness"; "color_temp"; "rgb_color"; "xy_color";
               "hs_color"; "effect"]) as (H1 & H2 & _).
  - reflexivity.
  - reflexivity.
  - apply (bool_decide_unpack _). vm_compute. exact I.
  - split; [exact H1|exact H2].
Defined.

Lemma restore_without_callback_is_empty_witness :
  Forall (λ a, is_callback a = false)
    [ActCheckAllStates; ActSetTransitionTime VNone; ActTurnOn]
  ∧ services_calls
      (hass (restore spec_attributes_to_check
               (run_actions spec_attributes_to_check
                  [ActCheckAllStates; ActSetTransitionTime VNone; ActTurnOn]
                  (Scene_init both_matching living_room_conf))).2)
    = [mkServiceCall "scene" "turn_on" ["scene.living_room"]
         [("transition", VNone)];
       mkServiceCall "scene" "apply" [] [("entities", VDict [])]].
Proof.
  split; [repeat constructor|].
  apply (restore_without_callback_is_empty spec_attributes_to_check
           both_matching living_room_conf
           [ActCheckAllStates; ActSetTransitionTime VNone; ActTurnOn]).
  repeat constructor.
Defined.

(** * Switching off *)

(** X19. A scene that is not on (its verdict is [False], or still [None]
    after construction) is left alone by [turn_off]: no service is
    called and nothing changes.  After any [turn_off] the scene is not on,
    so a second [turn_off] does nothing. *)
Theorem turn_off_idempotent table w :
  turn_off table (mkWorld (with_is_on None (self w)) (hass w))
  = (Ok tt, mkWorld (with_is_on None (self w)) (hass w))
  ∧ turn_off table (mkWorld (with_is_on (Some false) (self w)) (hass w))
    = (Ok tt, mkWorld (with_is_on (Some false) (self w)) (hass w))
  ∧ truthy (_is_on (self (turn_off table w).2)) = false
  ∧ turn_off table (turn_off table w).2 = (Ok tt, (turn_off table w).2).
Proof.
  split; [done|]. split; [done|].
  unfold turn_off, restore, hass_services_call. run_M.
  destruct (truthy (_is_on (self w))) eqn:Hon; cbn.
  - by destruct (_restore_on_deactivate (self w)).
  - by rewrite Hon.
Qed.

(** X20. Activating a scene and deactivating it again: two service calls
    in this order, [scene.turn_on] for the scene's own entity with the
    transition time as it is (be it [None]), then either [scene.apply]
    with what has been stored for restoring, and with the transition time
    unless that is [None], or, with [restore_on_deactivate] off,
    [homeassistant.turn_off] for all entities of the scene; the scene
    ends up off. *)
Theorem turn_on_then_turn_off table w entity_id :
  _entity_id (self w) = Some entity_id →
  (turn_on w).1 = Ok tt
  ∧ (turn_off table (turn_on w).2).1 = Ok tt
  ∧ _is_on (self (turn_off table (turn_on w).2).2) = Some false
  ∧ services_calls (hass (turn_off table (turn_on w).2).2)
    = services_calls (hass w)
      ++ [mkServiceCall "scene" "turn_on" [entity_id]
            [("transition", _transition_time (self w))];
          if _restore_on_deactivate (self w)
          then mkServiceCall "scene" "apply" []
                 (("entities",
                   VDict (map_to_list
                            (VDict <$> restore_entities table (self w))))
                  :: match _transition_time (self w) with
                     | VNone => []
                     | transition_time => [("transition", transition_time)]
                     end)
          else mkServiceCall "homeassistant" "turn_off"
                 (entities (self w)).*1 []].
Proof.
  intros He. unfold turn_off, turn_on, restore, hass_services_call. run_M.
  rewrite He. cbn.
  destruct (_restore_on_deactivate (self w)); cbn;
    rewrite <- app_assoc; [|done].
  by destruct (_transition_time (self w)).
Qed.

Lemma turn_on_then_turn_off_witness :
  _entity_id (self (set_transition_time VNone
                      (configured both_matching living_room_conf
                         true false)).2)
  = Some "scene.living_room"
  ∧ services_calls
      (hass (turn_off spec_attributes_to_check
               (turn_on (set_transition_time VNone
                           (configured both_matching living_room_conf
                              true false)).2).2).2)
    = [mkServiceCall "scene" "turn_on" ["scene.living_room"]
         [("transition", VNone)];
       mkServiceCall "scene" "apply" [] [("entities", VDict [])]].
Proof.
  split; [reflexivity|].
  destruct (turn_on_then_turn_off spec_attributes_to_check
              (set_transition_time VNone
                 (configured both_matching living_room_conf true false)).2
              "scene.living_room" eq_refl) as (_ & _ & _ & H).
  exact H.
Defined.

(** * Validating a scene configuration *)

Lemma validate_entities_result items scene_conf :
  validate_entities items scene_conf ≠ Ok false
  ∧ (validate_entities items scene_conf = Ok true ↔
     ∀ e sa, (e, sa) ∈ items → py_contains "state" sa = Ok true).
Proof.
  induction items as [|[e sa] rest [IH1 IH2]].
  - split; [done|]. split; [|done]. intros _ e sa H.
    by apply elem_of_nil in H.
  - cbn [validate_entities].
    destruct (py_contains "state" sa) as [[|]|err] eqn:Hc; cbn.
    + split; [done|]. rewrite IH2. split.
      * intros H e' sa' [[= -> ->]|Hin]%elem_of_cons; [done|eauto].
      * intros H e' sa' Hin. apply (H e' sa'). by right.
    + split.
      * by destruct (missing_message _ scene_conf).
      * split.
        -- by destruct (missing_message _ scene_conf).
        -- intros H. specialize (H e sa (list_elem_of_here _ _)). congruence.
    + split; [done|]. split; [done|].
      intros H. specialize (H e sa (list_elem_of_here _ _)). congruence.
Qed.

(** X21. [validate_scene] returns [True] or raises, never [False]: it
    returns [True] exactly when the configuration has [entities] that are
    a dict, has an [id], and [state] is found in what is configured for
    every entity. *)
Theorem validate_scene_true_or_raises scene_conf :
  validate_scene scene_conf ≠ Ok false
  ∧ (validate_scene scene_conf = Ok true ↔
     ∃ items, dict_get "entities" scene_conf = Some (VDict items)
       ∧ dict_contains "id" scene_conf = true
       ∧ ∀ e sa, (e, sa) ∈ items → py_contains "state" sa = Ok true).
Proof.
  unfold validate_scene, dict_contains, getitem.
  destruct (dict_get "entities" scene_conf) as [entities|]; cbn.
  - destruct (dict_get "id" scene_conf) as [id|]; cbn.
    + destruct entities as [| | | | | | |items]; cbn;
        try (split; [done|]; split; [done|]; by intros (items & [=] & _)).
      destruct (validate_entities_result items scene_conf) as [H1 H2].
      split; [done|]. rewrite H2. split.
      * intros H. by exists items.
      * by intros (items' & [= <-] & _ & H).
    + split; [by destruct (missing_message _ scene_conf)|].
      split; [by destruct (missing_message _ scene_conf)|].
      by intros (items & _ & [=] & _).
  - split; [by destruct (missing_message _ scene_conf)|].
    split; [by destruct (missing_message _ scene_conf)|].
    by intros (items & [=] & _).
Qed.

Lemma missing_message_without_name prefix scene_conf :
  dict_get "name" scene_conf = None →
  missing_message prefix scene_conf = Raise KeyError.
Proof. intros H. unfold missing_message, getitem. by rewrite H. Qed.

Lemma validate_entities_without_name items scene_conf :
  dict_get "name" scene_conf = None →
  validate_entities items scene_conf = Ok true
  ∨ validate_entities items scene_conf = Raise KeyError
  ∨ validate_entities items scene_conf = Raise TypeError.
Proof.
  intros Hname. induction items as [|[e sa] rest IH]; [by left|].
  cbn [validate_entities].
  destruct sa; cbn; try (right; by right);
    match goal with
    | |- context [if ?c then _ else _] => destruct c; [exact IH|]
    end;
    rewrite missing_message_without_name by done; right; by left.
Qed.

(** X22. A configuration without a [name] is never reported as invalid:
    building the message of [StatefulScenesYamlInvalid] reads the name
    first, so such a configuration either passes or fails with
    [KeyError], [AttributeError] or [TypeError]. *)
Theorem validate_scene_without_name scene_conf :
  dict_get "name" scene_conf = None →
  validate_scene scene_conf = Ok true
  ∨ validate_scene scene_conf = Raise KeyError
  ∨ validate_scene scene_conf = Raise AttributeError
  ∨ validate_scene scene_conf = Raise TypeError.
Proof.
  intros Hname. unfold validate_scene, dict_contains, getitem.
  destruct (dict_get "entities" scene_conf) as [entities|]; cbn;
    [|rewrite missing_message_without_name by done; right; by left].
  destruct (dict_get "id" scene_conf) as [id|]; cbn;
    [|rewrite missing_message_without_name by done; right; by left].
  destruct entities as [| | | | | | |items]; cbn;
    try (right; right; by left).
  destruct (validate_entities_without_name items scene_conf Hname)
    as [->|[->| ->]]; auto.
Qed.

Lemma validate_scene_without_name_witness :
  dict_get "name" [("entities", VDict [("light.sofa", VDict [])])] = None
  ∧ validate_scene [("entities", VDict [("light.sofa", VDict [])])]
    = Raise KeyError.
Proof.
  split; [reflexivity|].
  destruct (validate_scene_without_name
              [("entities", VDict [("light.sofa", VDict [])])] eq_refl)
    as [H|[H|[H|H]]]; first [exact H | discriminate H].
Defined.

(** * Extracting the entities of a scene *)

Lemma dict_get_is_Some {A} key (d : list (string * A)) :
  is_Some (dict_get key d) ↔ key ∈ d.*1.
Proof.
  split.
  - intros [v Hv]. apply dict_get_elem_of in Hv.
    apply list_elem_of_fmap. by exists (key, v).
  - intros Hin. destruct (dict_get key d) eqn:Hd; [by eexists|].
    by apply dict_get_None_keys in Hd.
Qed.

Lemma dict_set_preserves {A} key (value : A) d k :
  is_Some (dict_get k d) → is_Some (dict_get k (dict_set key value d)).
Proof. rewrite !dict_get_is_Some, dict_set_keys. by right. Qed.

Section extract_facts.
Variable table : list (string * list string).

Lemma extract_fold_lookup (attrs : list string) (d acc : pydict) a :
  NoDup d.*1 →
  dict_get a
    (foldl (λ attributes kv,
              if bool_decide (kv.1 ∈ attrs)
              then dict_set kv.1 kv.2 attributes else attributes) acc d)
  = match (if bool_decide (a ∈ attrs) then dict_get a d else None) with
    | Some v => Some v
    | None => dict_get a acc
    end.
Proof.
  intros Hnd. revert acc.
  induction d as [|[k v] rest IH]; intros acc.
  - cbn. by destruct (bool_decide _).
  - cbn in Hnd. apply NoDup_cons in Hnd as [Hk Hnd].
    cbn [foldl fst snd]. rewrite (IH Hnd). cbn [dict_get].
    destruct (String.eqb_spec a k) as [->|Hne].
    + assert (Hrest : dict_get k rest = None).
      { destruct (dict_get k rest) eqn:Hd; [|done].
        destruct Hk. apply dict_get_is_Some. by eexists. }
      rewrite Hrest. destruct (bool_decide (k ∈ attrs)).
      * by rewrite dict_get_dict_set_eq.
      * done.
    + destruct (bool_decide (a ∈ attrs)); [|destruct (bool_decide (k ∈ attrs))].
      * destruct (dict_get a rest); [done|].
        destruct (bool_decide (k ∈ attrs)); [|done].
        by rewrite dict_get_dict_set_ne.
      * by rewrite dict_get_dict_set_ne.
      * done.
Qed.

Lemma extract_fold_preserves (attrs : list string) (d acc : pydict) k :
  is_Some (dict_get k acc) →
  is_Some (dict_get k
    (foldl (λ attributes kv,
              if bool_decide (kv.1 ∈ attrs)
              then dict_set kv.1 kv.2 attributes else attributes) acc d)).
Proof.
  revert acc. induction d as [|[k' v] rest IH]; intros acc Hk; [done|].
  cbn [foldl]. apply IH. destruct (bool_decide _); [|done].
  by apply dict_set_preserves.
Qed.

(** Extraction succeeds for a dict with a [state], and only for that. *)
Lemma extract_attributes_ok e sa entry :
  extract_attributes table e sa = Ok entry →
  ∃ d ws, sa = VDict d ∧ dict_get "state" d = Some ws
          ∧ is_Some (dict_get "state" entry).
Proof.
  unfold extract_attributes. destruct sa as [| | | | | | |d]; try done.
  cbn. unfold getitem.
  destruct (dict_get "state" d) as [ws|] eqn:Hs; [|done]. cbn.
  intros H. exists d, ws. split; [done|]. split; [done|].
  destruct (dict_get (domain_of e) table) as [attrs|]; cbn in H;
    simplify_eq.
  - apply extract_fold_preserves. cbn. by eexists.
  - cbn. by eexists.
Qed.

Lemma extract_attributes_lookup e d ws entry a :
  extract_attributes table e (VDict d) = Ok entry →
  dict_get "state" d = Some ws → NoDup d.*1 →
  dict_get a entry
  = match dict_get (domain_of e) table with
    | Some attrs =>
        match (if bool_decide (a ∈ attrs) then dict_get a d else None) with
        | Some v => Some v
        | None => dict_get a [("state", ws)]
        end
    | None => dict_get a [("state", ws)]
    end.
Proof.
  unfold extract_attributes. cbn. unfold getitem. intros H Hs Hnd.
  rewrite Hs in H. cbn in H.
  destruct (dict_get (domain_of e) table) as [attrs|]; cbn in H;
    simplify_eq; [|done].
  by apply extract_fold_lookup.
Qed.

Lemma extract_entities_loop_spec items acc ents :
  NoDup items.*1 →
  extract_entities_loop table items acc = Ok ents →
  (∀ k, k ∉ items.*1 → dict_get k ents = dict_get k acc)
  ∧ (∀ k, k ∈ ents.*1 ↔ k ∈ acc.*1 ∨ k ∈ items.*1)
  ∧ ∀ e sa, (e, sa) ∈ items →
      ∃ entry, extract_attributes table e sa = Ok entry
               ∧ dict_get e ents = Some entry.
Proof.
  intros Hnd. revert acc.
  induction items as [|[e sa] rest IH]; intros acc Hloop.
  - cbn in Hloop. simplify_eq. split; [done|]. split.
    + intros k. split; [by left|]. intros [H|H]; [done|].
      by apply elem_of_nil in H.
    + intros e sa H. by apply elem_of_nil in H.
  - cbn in Hnd. apply NoDup_cons in Hnd as [He Hnd].
    cbn [extract_entities_loop] in Hloop.
    destruct (extract_attributes table e sa) as [entry|] eqn:Hx; [|done].
    cbn in Hloop. destruct (IH Hnd _ Hloop) as (H1 & H2 & H3).
    split; [|split].
    + intros k Hk. cbn in Hk. apply not_elem_of_cons in Hk as [Hne Hk].
      rewrite (H1 k Hk). by apply dict_get_dict_set_ne.
    + intros k. rewrite H2, dict_set_keys. cbn. rewrite elem_of_cons. tauto.
    + intros e' sa' [[= -> ->]|Hin]%elem_of_cons; [|by apply H3].
      exists entry. split; [done|].
      rewrite (H1 e He). apply dict_get_dict_set_eq.
Qed.

Lemma extract_entities_loop_state items acc ents :
  extract_entities_loop table items acc = Ok ents →
  Forall (λ kv, is_Some (dict_get "state" kv.2)) acc →
  Forall (λ kv, is_Some (dict_get "state" kv.2)) ents.
Proof.
  revert acc. induction items as [|[e sa] rest IH]; intros acc Hloop Hacc.
  - cbn in Hloop. by simplify_eq.
  - cbn [extract_entities_loop] in Hloop.
    destruct (extract_attributes table e sa) as [entry|] eqn:Hx; [|done].
    cbn in Hloop. apply (IH _ Hloop).
    apply extract_attributes_ok in Hx as (_ & _ & _ & _ & Hs).
    clear Hloop IH. induction Hacc as [|[k v] r Hk Hr IHr]; cbn.
    + by constructor.
    + destruct (String.eqb e k); constructor; done.
Qed.

(** X23. When the extraction of a configuration with distinct keys
    succeeds, the extracted entities are the configured ones, and each
    keeps the configured state plus exactly those configured attributes
    that the table lists for its domain (the part of the entity id before
    the first dot); for a domain that the table does not know, only the
    state is kept. *)
Theorem extract_entities_keeps_listed_attributes scene_conf items ents :
  dict_get "entities" scene_conf = Some (VDict items) →
  well_formed (VDict items) = true →
  extract_entities table scene_conf = Ok ents →
  (∀ k, k ∈ ents.*1 ↔ k ∈ items.*1)
  ∧ ∀ e sa, (e, sa) ∈ items →
      ∃ d ws entry,
        sa = VDict d ∧ dict_get "state" d = Some ws
        ∧ dict_get e ents = Some entry
        ∧ dict_get "state" entry = Some ws
        ∧ ∀ a, a ≠ "state" →
            dict_get a entry
            = match dict_get (domain_of e) table with
              | Some attrs =>
                  if bool_decide (a ∈ attrs) then dict_get a d else None
              | None => None
              end.
Proof.
  intros Hget Hwf Hx. unfold extract_entities, getitem in Hx.
  rewrite Hget in Hx. cbn in Hx, Hwf.
  apply andb_prop in Hwf as [Hkeys Hwf]. rewrite forallb_forall in Hwf.
  apply keys_distinct_NoDup in Hkeys.
  destruct (extract_entities_loop_spec items [] ents Hkeys Hx)
    as (_ & H2 & H3).
  split.
  - intros k. rewrite H2. split; [|by right]. intros [H|H]; [|done].
    by apply elem_of_nil in H.
  - intros e sa Hin. destruct (H3 e sa Hin) as (entry & Hentry & Hlook).
    destruct (extract_attributes_ok e sa entry Hentry) as (d & ws & -> & Hs & _).
    assert (Hnd : NoDup d.*1).
    { apply keys_distinct_NoDup.
      specialize (Hwf (e, VDict d)). cbn in Hwf.
      apply list_elem_of_In in Hin. specialize (Hwf Hin).
      by apply andb_prop in Hwf as [? _]. }
    exists d, ws, entry. split; [done|]. split; [done|]. split; [done|].
    split.
    + rewrite (extract_attributes_lookup e d ws entry "state" Hentry Hs Hnd).
      destruct (dict_get (domain_of e) table) as [attrs|]; [|done].
      rewrite Hs. by destruct (bool_decide _).
    + intros a Ha.
      rewrite (extract_attributes_lookup e d ws entry a Hentry Hs Hnd).
      assert (Hstate : dict_get a [("state", ws)] = None).
      { cbn. by destruct (String.eqb_spec a "state"). }
      rewrite Hstate.
      destruct (dict_get (domain_of e) table) as [attrs|]; [|done].
      destruct (bool_decide _); [|done]. by destruct (dict_get a d).
Qed.
End extract_facts.

Lemma extract_entities_keeps_listed_attributes_witness :
  well_formed (VDict [("light.porch",
                       VDict [("brightness", VInt 180); ("state", VStr "on");
                              ("friendly_name", VStr "Porch light")]);
                      ("sensor.door",
                       VDict [("state", VStr "off"); ("battery", VInt 90)])])
  = true
  ∧ extract_entities spec_attributes_to_check porch_yaml
    = Ok [("light.porch", [("state", VStr "on"); ("brightness", VInt 180)]);
          ("sensor.door", [("state", VStr "off")])]
  ∧ (∀ k, k ∈ ["light.porch"; "sensor.door"]
          ↔ k ∈ ["light.porch"; "sensor.door"]).
Proof.
  split; [reflexivity|]. split; [reflexivity|].
  exact (proj1 (extract_entities_keeps_listed_attributes
                  spec_attributes_to_check porch_yaml _
                  [("light.porch",
                    [("state", VStr "on"); ("brightness", VInt 180)]);
                   ("sensor.door", [("state", VStr "off")])]
                  eq_refl eq_refl eq_refl)).
Defined.

(** * The exceptions of the matcher *)

Lemma compare_numbers_raises tol x y err :
  compare_numbers tol x y = Raise err → err = OverflowError.
Proof.
  unfold compare_numbers.
  destruct (num_sub_outcome x y) as [[d ->]| ->]; [done|by intros [= <-]].
Qed.

(** The generic comparison raises nothing but the [OverflowError] of a
    subtraction. *)
Lemma compare_values_raises tol a b err :
  compare_values tol a b = Raise err → err = OverflowError.
Proof.
  revert b.
  assert (Hlists : ∀ l1 l2,
    Forall (λ x, ∀ y, compare_values tol x y = Raise err →
                      err = OverflowError) l1 →
    compare_lists tol l1 l2 = Raise err → err = OverflowError).
  { unfold compare_lists. intros l1 l2 H. revert l2.
    induction H as [|x r1 Hx _ IH]; intros [|y r2]; try done.
    cbn [zip_with_pairs compare_lists_pairs].
    destruct (compare_values tol x y) as [[]|e] eqn:Hc; cbn; try done.
    - apply IH.
    - intros [= ->]. by apply (Hx y). }
  induction a as [|x|z|f|s|l IH|l IH|d IH] using pyval_nested_ind; intros b.
  - by destruct b.
  - destruct b; try done; apply compare_numbers_raises.
  - destruct b; try done; apply compare_numbers_raises.
  - destruct b; try done; apply compare_numbers_raises.
  - by destruct b.
  - destruct (seq_items b) as [l2|] eqn:Hb; [|by destruct b].
    rewrite (compare_values_lists _ (VList l) b l l2 eq_refl Hb).
    by apply Hlists.
  - destruct (seq_items b) as [l2|] eqn:Hb; [|by destruct b].
    rewrite (compare_values_lists _ (VTuple l) b l l2 eq_refl Hb).
    by apply Hlists.
  - destruct b as [| | | | | | |d2]; try done.
    rewrite compare_values_dicts. unfold compare_dicts.
    induction IH as [|[key value] r Hv _ IHr]; [done|].
    cbn [compare_dicts_items].
    destruct (dict_get key d2) as [other|]; [|done].
    destruct (compare_values tol value other) as [[]|e] eqn:Hc; cbn;
      try done.
    intros [= ->]. by apply (Hv other).
Qed.

Lemma compare_colors_loop_raises tol xy pairs err :
  compare_colors_loop tol xy pairs = Raise err →
  err = TypeError ∨ err = OverflowError.
Proof.
  induction pairs as [|[c1 c2] rest IH]; [done|].
  cbn [compare_colors_loop]. unfold py_sub.
  destruct (as_pynum c1) as [n1|]; [|intros [= <-]; by left].
  destruct (as_pynum c2) as [n2|]; [|intros [= <-]; by left].
  destruct (num_sub_outcome n1 n2) as [[d ->]| ->];
    [|intros [= <-]; by right].
  cbn. by destruct (fgt _ _).
Qed.

Lemma compare_colors_raises tol xy color1 color2 err :
  compare_colors tol xy color1 color2 = Raise err →
  err = TypeError ∨ err = OverflowError.
Proof.
  assert (Hzip : ∀ c1 c2,
    (py_zip c1 c2 ≫= compare_colors_loop tol xy) = Raise err →
    err = TypeError ∨ err = OverflowError).
  { intros c1 c2. unfold py_zip.
    destruct (py_iter c1) as [l1|e1] eqn:H1; cbn;
      [|intros [= <-]; left; destruct c1; cbn in H1; by simplify_eq].
    destruct (py_iter c2) as [l2|e2] eqn:H2; cbn;
      [|intros [= <-]; left; destruct c2; cbn in H2; by simplify_eq].
    apply compare_colors_loop_raises. }
  destruct color1, color2; unfold compare_colors;
    cbn [is_sequence negb andb]; try done; apply Hzip.
Qed.

Lemma attributes_match_raises tol wanted got attrs err :
  attributes_match tol wanted got attrs = Raise err →
  err = TypeError ∨ err = OverflowError.
Proof.
  induction attrs as [|a rest IH]; [done|]. cbn [attributes_match].
  destruct (dict_get a wanted) as [w|]; [|done].
  destruct (dict_get a got) as [g|]; [|done].
  unfold attribute_compare. destruct (endswith a "_color").
  - destruct (compare_colors _ _ w g) as [[|]|e] eqn:Hc; cbn; try done.
    intros [= <-]. by apply compare_colors_raises in Hc.
  - destruct (compare_values _ w g) as [[|]|e] eqn:Hc; cbn; try done.
    intros [= <-]. right. by apply compare_values_raises in Hc.
Qed.

Lemma check_state_raises table self entity_id observed err :
  check_state table self entity_id observed = Raise err →
  err = TypeError ∨ err = OverflowError
  ∨ (err = KeyError
     ∧ ∀ wanted, dict_get entity_id (entities self) = Some wanted →
         dict_get "state" wanted = None).
Proof.
  destruct observed as [o|]; [|done]. cbn [check_state].
  destruct (_ && _); [done|]. unfold getitem.
  destruct (dict_get entity_id (entities self)) as [wanted|]; cbn;
    [|intros [= <-]; right; right; by split].
  destruct (dict_get "state" wanted) as [ws|] eqn:Hs; cbn;
    [|intros [= <-]; right; right; split; [done|]; by intros ? [= <-]].
  destruct (compare_values _ ws (state o)) as [[]|e] eqn:Hc; cbn;
    [|done|intros [= <-]; right; left; by apply compare_values_raises in Hc].
  destruct (dict_get (domain o) table) as [attrs|]; [|done].
  destruct (attributes_match _ wanted _ attrs) as [m|e] eqn:Hm; cbn; [done|].
  intros [= <-]. apply attributes_match_raises in Hm. tauto.
Qed.

(** X24. [check_state] raises [KeyError] exactly when it is given an
    observation, which is not an ignored unavailable one, for an entity
    that the scene has no target state for (the entity is not listed, or
    what is listed for it has no [state]). *)
Theorem check_state_key_error_iff table self entity_id observed :
  check_state table self entity_id observed = Raise KeyError ↔
  ∃ o, observed = Some o
       ∧ _ignore_unavailable self && py_eq (state o) (VStr "unavailable")
         = false
       ∧ ∀ wanted, dict_get entity_id (entities self) = Some wanted →
           dict_get "state" wanted = None.
Proof.
  split.
  - intros Hraise.
    destruct (check_state_raises _ _ _ _ _ Hraise) as [?|[?|[_ Hnone]]];
      [done..|].
    destruct observed as [o|]; [|done]. exists o. split; [done|].
    split; [|done]. cbn [check_state] in Hraise.
    by destruct (_ && _).
  - intros (o & -> & Hu & Hnone).
    destruct (check_state_missing_target table self entity_id Hnone)
      as [_ H].
    by rewrite H, Hu.
Qed.

Lemma check_state_key_error_iff_witness :
  check_state spec_attributes_to_check
    (self (configured both_matching living_room_conf true true))
    "light.unknown" (Some sofa_plain) = Raise KeyError
  ∧ check_state spec_attributes_to_check
      (self (configured both_matching living_room_conf true true))
      "light.unknown" (Some (light "unavailable" [])) = Ok None
  ∧ check_state spec_attributes_to_check
      (self (configured both_matching living_room_conf true true))
      "light.unknown" None = Ok (Some false).
Proof.
  split; [|split; reflexivity].
  apply (check_state_key_error_iff spec_attributes_to_check
           (self (configured both_matching living_room_conf true true))
           "light.unknown" (Some sofa_plain)).
  exists sofa_plain. split; [reflexivity|]. split; [reflexivity|].
  intros wanted H. discriminate H.
Defined.

(** X25. A scene whose entities were extracted from a configuration never
    lacks a target state: whatever is observed, and whatever table is
    used for matching, [check_state] does not raise [KeyError] for any of
    its entities. *)
Theorem extracted_entities_have_state table table' scene_conf self :
  extract_entities table scene_conf = Ok (entities self) →
  ∀ entity_id observed, entity_id ∈ (entities self).*1 →
    check_state table' self entity_id observed ≠ Raise KeyError.
Proof.
  intros Hx entity_id observed Hin Hraise.
  apply check_state_raises in Hraise as [?|[?|[_ Hnone]]]; [done..|].
  apply dict_get_is_Some in Hin as [wanted Hw].
  specialize (Hnone wanted Hw).
  unfold extract_entities in Hx.
  destruct (getitem "entities" scene_conf) as [configured_entities|];
    [|done].
  cbn in Hx. destruct (py_items configured_entities) as [items|]; [|done].
  cbn in Hx.
  pose proof (extract_entities_loop_state table items [] _ Hx (Forall_nil_2 _))
    as Hall.
  rewrite Forall_forall in Hall.
  specialize (Hall (entity_id, wanted) (dict_get_elem_of _ _ _ Hw)).
  cbn in Hall. rewrite Hnone in Hall. by destruct Hall.
Qed.

Lemma extracted_entities_have_state_witness :
  extract_entities spec_attributes_to_check porch_yaml
  = Ok (entities (self (Scene_init both_matching porch_conf)))
  ∧ check_state spec_attributes_to_check
      (self (Scene_init both_matching porch_conf)) "sensor.door"
      (Some (mkState (VStr "on") "sensor" [])) ≠ Raise KeyError.
Proof.
  split; [reflexivity|].
  apply (extracted_entities_have_state spec_attributes_to_check
           spec_attributes_to_check porch_yaml
           (self (Scene_init both_matching porch_conf)) eq_refl).
  apply (bool_decide_unpack _). vm_compute. exact I.
Defined.

(** * Learning a scene *)

Lemma dict_set_absent {A} key (value : A) d :
  key ∉ d.*1 → dict_set key value d = d ++ [(key, value)].
Proof.
  induction d as [|[k v] r IH]; cbn; intros Hk; [done|].
  apply not_elem_of_cons in Hk as [Hne Hk].
  destruct (String.eqb_spec key k); [done|]. by rewrite IH.
Qed.

Lemma foldl_dict_set_lookup {A} (l acc : list (string * A)) a :
  NoDup l.*1 →
  dict_get a (foldl (λ d kv, dict_set kv.1 kv.2 d) acc l)
  = match dict_get a l with
    | Some v => Some v
    | None => dict_get a acc
    end.
Proof.
  intros Hnd. revert acc. induction l as [|[k v] rest IH]; intros acc; [done|].
  cbn in Hnd. apply NoDup_cons in Hnd as [Hk Hnd].
  cbn [foldl fst snd dict_get]. rewrite (IH Hnd).
  destruct (String.eqb_spec a k) as [->|Hne].
  - assert (Hrest : dict_get k rest = None).
    { destruct (dict_get k rest) eqn:Hd; [|done].
      destruct Hk. apply dict_get_is_Some. by eexists. }
    by rewrite Hrest, dict_get_dict_set_eq.
  - destruct (dict_get a rest); [done|]. by rewrite dict_get_dict_set_ne.
Qed.

Lemma learned_entry_lookup st a :
  NoDup (attributes st).*1 →
  dict_get a (learned_entry st)
  = match dict_get a (attributes st) with
    | Some v => Some v
    | None => if String.eqb a "state" then Some (state st) else None
    end.
Proof. intros Hnd. unfold learned_entry. by rewrite foldl_dict_set_lookup. Qed.

Lemma learn_scene_states_loop_found ids sts conf w :
  Forall2 (λ e st, dict_get e (hass_states (hass w)) = Some st) ids sts →
  learn_scene_states_loop ids conf w
  = (Ok (foldl (λ c p, dict_set p.1 (learned_entry p.2) c) conf
           (zip_with_pairs ids sts)),
     mkWorld (self w)
       (mkHass (hass_states (hass w)) (services_calls (hass w))
          (states_fetched (hass w) ++ ids) (updates_scheduled (hass w)))).
Proof.
  intros H. revert conf w H. revert sts.
  induction ids as [|e rest IH]; intros sts conf w H.
  - apply Forall2_nil_inv_l in H as ->. cbn. run_M.
    rewrite app_nil_r. by destruct w as [s []].
  - apply Forall2_cons_inv_l in H as (st & sts' & Hst & H & ->).
    cbn [learn_scene_states_loop]. run_M. rewrite Hst.
    rewrite (IH sts'); [|exact H]. cbn. by rewrite <- app_assoc.
Qed.

Lemma foldl_dict_set_fresh {A B} (f : B → A) ids (vs : list B)
    (acc : list (string * A)) :
  NoDup ids → (∀ k, k ∈ ids → k ∉ acc.*1) →
  foldl (λ c p, dict_set p.1 (f p.2) c) acc (zip_with_pairs ids vs)
  = acc ++ zip_with_pairs ids (f <$> vs).
Proof.
  intros Hnd. revert vs acc.
  induction Hnd as [|e rest He _ IH]; intros vs acc Hfresh.
  - cbn. by rewrite app_nil_r.
  - destruct vs as [|v vs']; [cbn; by rewrite app_nil_r|].
    cbn [zip_with_pairs foldl fmap list_fmap fst snd].
    rewrite dict_set_absent by (apply Hfresh; left).
    rewrite IH, <- app_assoc; [done|].
    intros k Hk. rewrite fmap_app. cbn. intros Hin.
    apply elem_of_app in Hin as [Hin|Hin%list_elem_of_singleton].
    + apply (Hfresh k); [by right|done].
    + by subst.
Qed.

(** X26. Learning from entities that the platform knows fetches each of
    them once and returns, in their order, one entry per entity: all the
    attributes of its state, and its state under the key [state] unless
    an attribute of that name takes its place. *)
Theorem learn_scene_states_result ids sts w :
  NoDup ids →
  Forall2 (λ e st, dict_get e (hass_states (hass w)) = Some st) ids sts →
  Forall (λ st, NoDup (attributes st).*1) sts →
  learn_scene_states ids w
  = (Ok (zip_with_pairs ids (learned_entry <$> sts)),
     mkWorld (self w)
       (mkHass (hass_states (hass w)) (services_calls (hass w))
          (states_fetched (hass w) ++ ids) (updates_scheduled (hass w))))
  ∧ ∀ st a, st ∈ sts →
      dict_get a (learned_entry st)
      = match dict_get a (attributes st) with
        | Some v => Some v
        | None => if String.eqb a "state" then Some (state st) else None
        end.
Proof.
  intros Hnd Hfound Hattrs. split.
  - unfold learn_scene_states.
    rewrite (learn_scene_states_loop_found ids sts [] w Hfound).
    rewrite (foldl_dict_set_fresh learned_entry ids sts []); [done|done|].
    intros k _. apply not_elem_of_nil.
  - intros st a Hin. apply learned_entry_lookup.
    rewrite Forall_forall in Hattrs. by apply Hattrs.
Qed.

(** X27. Learning stops at the first entity that the platform does not
    know: reading the state of [None] raises [AttributeError], after that
    entity has been fetched and before any later one is. *)
Theorem learn_scene_states_missing_entity pre e post sts w :
  Forall2 (λ e st, dict_get e (hass_states (hass w)) = Some st) pre sts →
  dict_get e (hass_states (hass w)) = None →
  (learn_scene_states (pre ++ e :: post) w).1 = Raise AttributeError
  ∧ states_fetched (hass (learn_scene_states (pre ++ e :: post) w).2)
    = states_fetched (hass w) ++ pre ++ [e].
Proof.
  intros Hpre He. unfold learn_scene_states.
  generalize (@nil (string * pydict)) as conf.
  revert w sts Hpre He. induction pre as [|e' pre IH]; intros w sts Hpre He conf.
  - cbn [app learn_scene_states_loop]. run_M. by rewrite He.
  - apply Forall2_cons_inv_l in Hpre as (st & sts' & Hst & Hpre & ->).
    cbn [app learn_scene_states_loop]. run_M. rewrite Hst.
    edestruct (IH (mkWorld (self w)
                     (mkHass (hass_states (hass w)) (services_calls (hass w))
                        (states_fetched (hass w) ++ [e'])
                        (updates_scheduled (hass w)))) sts' Hpre He)
      as [H1 H2].
    rewrite H1, H2. cbn. by rewrite <- app_assoc.
Qed.

Lemma learn_scene_states_result_witness :
  NoDup ["light.sofa"; "light.lamp"]
  ∧ (learn_scene_states ["light.sofa"; "light.lamp"]
       (configured both_matching living_room_conf true false)).1
    = Ok [("light.sofa", [("state", VStr "on"); ("brightness", VInt 102)]);
          ("light.lamp",
           [("state", VStr "on");
            ("rgb_color", VTuple [VInt 254; VInt 1; VInt 0])])].
Proof.
  assert (Hnd : NoDup ["light.sofa"; "light.lamp"])
    by (apply (bool_decide_unpack _); vm_compute; exact I).
  split; [exact Hnd|].
  destruct (learn_scene_states_result ["light.sofa"; "light.lamp"]
              [light "on" [("brightness", VInt 102)];
               light "on" [("rgb_color", VTuple [VInt 254; VInt 1; VInt 0])]]
              (configured both_matching living_room_conf true false))
    as [H _].
  - exact Hnd.
  - repeat constructor.
  - repeat constructor; cbn; apply (bool_decide_unpack _); vm_compute;
      exact I.
  - by rewrite H.
Defined.

Lemma learn_scene_states_missing_entity_witness :
  dict_get "light.attic" (hass_states both_matching) = None
  ∧ (learn_scene_states ["light.sofa"; "light.attic"; "light.lamp"]
       (configured both_matching living_room_conf true false)).1
    = Raise AttributeError.
Proof.
  split; [reflexivity|].
  exact (proj1 (learn_scene_states_missing_entity ["light.sofa"]
                  "light.attic" ["light.lamp"]
                  [light "on" [("brightness", VInt 102)]]
                  (configured both_matching living_room_conf true false)
                  ltac:(repeat constructor) eq_refl)).
Defined.

(** * A learned entity matches the state it was learned from *)

Lemma compare_values_refl_nonneg tol (a : pyval) :
  fle (of_int 0) tol = true →
  well_formed a = true → is_finite a = true →
  compare_values tol a a = Ok true.
Proof.
  intros Ht.
  induction a as [|b|z|f|s|l IH|l IH|d IH] using pyval_nested_ind;
    intros Hwf Hfin.
  - reflexivity.
  - by apply (compare_numbers_refl tol (NInt (if b then 1 else 0))
                (inject_Z (if b then 1 else 0))).
  - by apply (compare_numbers_refl tol (NInt z) (inject_Z z)).
  - cbn in Hfin. destruct (fround f) as [q| | |] eqn:Hf; try discriminate.
    cbn [compare_values as_pynum]. rewrite Hf.
    by apply (compare_numbers_refl tol (NFloat (Fin q)) q).
  - cbn. by rewrite String.eqb_refl.
  - rewrite (compare_values_lists _ (VList l) (VList l) l l eq_refl eq_refl).
    apply compare_lists_refl. cbn in Hwf, Hfin.
    rewrite forallb_forall in Hwf. rewrite forallb_forall in Hfin.
    rewrite Forall_forall in IH. apply Forall_forall. intros v Hv.
    apply IH; [done| |]; [apply Hwf|apply Hfin]; by apply list_elem_of_In.
  - rewrite (compare_values_lists _ (VTuple l) (VTuple l) l l eq_refl eq_refl).
    apply compare_lists_refl. cbn in Hwf, Hfin.
    rewrite forallb_forall in Hwf. rewrite forallb_forall in Hfin.
    rewrite Forall_forall in IH. apply Forall_forall. intros v Hv.
    apply IH; [done| |]; [apply Hwf|apply Hfin]; by apply list_elem_of_In.
  - rewrite compare_values_dicts. apply compare_dicts_spec.
    cbn in Hwf, Hfin. apply andb_prop in Hwf as [Hkeys Hwf].
    rewrite forallb_forall in Hwf. rewrite forallb_forall in Hfin.
    rewrite Forall_forall in IH. intros key value Hin.
    exists value. split.
    + apply dict_get_NoDup; [by apply keys_distinct_NoDup|done].
    + apply (IH (key, value) Hin);
        [apply (Hwf (key, value))|apply (Hfin (key, value))];
        by apply list_elem_of_In.
Qed.

Lemma attribute_compare_self tol a v :
  fle (of_int 0) tol = true → self_matching a v = true →
  attribute_compare tol a v v = Ok true.
Proof.
  intros Ht. unfold self_matching, attribute_compare.
  destruct (endswith a "_color").
  - destruct v as [| | | | |l|l|]; try done; intros Hl.
    + apply (compare_colors_refl_numbers tol _ (VList l) l Ht eq_refl).
      apply Forall_forall. intros x Hx.
      rewrite forallb_forall in Hl. by apply Hl, list_elem_of_In.
    + apply (compare_colors_refl_numbers tol _ (VTuple l) l Ht eq_refl).
      apply Forall_forall. intros x Hx.
      rewrite forallb_forall in Hl. by apply Hl, list_elem_of_In.
  - intros [Hwf Hfin]%andb_prop.
    by apply compare_values_refl_nonneg.
Qed.

(** X28. A target learned from a state matches that state: for a scene
    whose target for an entity is what [learn_scene_states] makes of an
    observed state, [check_state] on that same state says matched,
    provided the tolerance is not negative, the state is not an ignored
    [unavailable], no attribute is called [state], and the state and the
    attributes that the table lists hold values that can match
    themselves. *)
Theorem learned_entity_matches table self entity_id st :
  fle (of_int 0) (_number_tolerance self) = true →
  dict_get entity_id (entities self) = Some (learned_entry st) →
  NoDup (attributes st).*1 →
  dict_get "state" (attributes st) = None →
  _ignore_unavailable self && py_eq (state st) (VStr "unavailable") = false →
  well_formed (state st) && is_finite (state st) = true →
  (∀ attrs a v, dict_get (domain st) table = Some attrs → a ∈ attrs →
     dict_get a (attributes st) = Some v → self_matching a v = true) →
  check_state table self entity_id (Some st) = Ok (Some true).
Proof.
  intros Ht Hent Hnd Hns Hun [Hwf Hfin]%andb_prop Hattrs.
  cbn [check_state]. rewrite Hun. unfold getitem. rewrite Hent. cbn.
  rewrite (learned_entry_lookup st "state" Hnd), Hns. cbn.
  rewrite (compare_values_refl_nonneg _ _ Ht Hwf Hfin). cbn.
  destruct (dict_get (domain st) table) as [attrs|] eqn:Hdom; [|done].
  destruct (attributes_match_returns (_number_tolerance self)
              (learned_entry st) (attributes st) attrs) as (m & Hm & Htrue & _).
  - intros a w g Ha Hw Hg. exists true.
    rewrite (learned_entry_lookup st a Hnd), Hg in Hw. simplify_eq.
    apply attribute_compare_self; [done|]. by apply (Hattrs attrs).
  - rewrite Hm. cbn. do 2 f_equal. apply Htrue.
    intros a w g Ha Hw Hg.
    rewrite (learned_entry_lookup st a Hnd), Hg in Hw. simplify_eq.
    apply attribute_compare_self; [done|]. by apply (Hattrs attrs).
Qed.

Lemma learned_entity_matches_witness :
  check_state spec_attributes_to_check
    (self (Scene_init both_matching learned_conf)) "light.lamp"
    (Some lamp_reported) = Ok (Some true).
Proof.
  apply (learned_entity_matches spec_attributes_to_check
           (self (Scene_init both_matching learned_conf)) "light.lamp"
           lamp_reported).
  - reflexivity.
  - reflexivity.
  - cbn. apply (bool_decide_unpack _). vm_compute. exact I.
  - reflexivity.
  - reflexivity.
  - reflexivity.
  - intros attrs a v [= <-] Ha Hv.
    repeat (apply elem_of_cons in Ha as [->|Ha];
            [cbn in Hv; by simplify_eq|]).
    by apply elem_of_nil in Ha.
Defined.

(** * The verdict without [restore_on_deactivate] *)

Lemma check_all_states_loop_not_returned table ids w w' :
  _restore_on_deactivate (self w) = false →
  check_all_states_loop table ids w = (Ok false, w') →
  Forall (λ e, live_result table w e = Ok (Some true)) ids.
Proof.
  revert w. induction ids as [|e rest IH]; intros w Hno Hloop; [done|].
  cbn [check_all_states_loop] in Hloop. revert Hloop. run_M.
  destruct (check_state table (self w) e _) as [r|err] eqn:Hr; cbn; [|done].
  rewrite lookup_insert_eq, Hno. cbn.
  destruct r as [[|]|]; cbn; try done.
  intros Hloop. constructor; [exact Hr|].
  refine (IH _ _ Hloop). exact Hno.
Qed.

Lemma check_all_states_loop_returned table ids w w' :
  check_all_states_loop table ids w = (Ok true, w') →
  _is_on (self w') = Some false.
Proof.
  revert w. induction ids as [|e rest IH]; intros w; [done|].
  cbn [check_all_states_loop]. run_M.
  destruct (check_state table (self w) e _) as [r|err]; cbn; [|done].
  rewrite lookup_insert_eq.
  destruct (negb (_restore_on_deactivate (self w)) && negb (truthy r)).
  - by intros [= <-].
  - apply IH.
Qed.

(** X29. With [restore_on_deactivate] off, a re-evaluation ends normally
    with the scene on exactly when every entity is matched: one entity
    that is not matched, unknown or failing is enough to prevent it. *)
Theorem no_restore_verdict_on_iff_all_matched table w :
  _restore_on_deactivate (self w) = false →
  (∀ k, is_Some (states (self w) !! k) → k ∈ (entities (self w)).*1) →
  (check_all_states table w).1 = Ok tt
  ∧ _is_on (self (check_all_states table w).2) = Some true
  ↔ Forall (λ e, live_result table w e = Ok (Some true))
      (entities (self w)).*1.
Proof.
  intros Hno Hdom. split.
  - unfold check_all_states. run_M.
    destruct (check_all_states_loop table _ w) as [[[|]|err] w'] eqn:Hloop;
      cbn.
    + intros [_ Hon].
      apply check_all_states_loop_returned in Hloop. congruence.
    + intros _. by apply (check_all_states_loop_not_returned table _ w w').
    + by intros [? _].
  - intros Hall.
    set (ids := (entities (self w)).*1) in *.
    set (rs := (λ _ : string, Some true) <$> ids).
    assert (Hscan : Forall2 (λ e r, live_result table w e = Ok r
        ∧ (_restore_on_deactivate (self w) = true ∨ r = Some true)) ids rs).
    { subst rs. apply Forall2_fmap_r, Forall_Forall2_diag.
      eapply Forall_impl; [exact Hall|]. intros e He. split; [done|by right]. }
    rewrite (check_all_states_full_pass table w rs Hscan). cbn.
    split; [done|]. f_equal. apply all_known_states. intros k b.
    fold ids. subst rs. rewrite zip_with_pairs_const.
    destruct (decide (k ∈ ids)) as [Hin|Hin].
    + rewrite foldl_insert_const_in by done. by intros [= <-].
    + rewrite foldl_insert_notin by (by rewrite fmap_pair_const_fst).
      intros Hk. destruct Hin. apply Hdom. by eexists.
Qed.

Lemma no_restore_verdict_on_iff_all_matched_witness :
  _restore_on_deactivate
    (self (configured both_matching living_room_conf false false)) = false
  ∧ ((check_all_states spec_attributes_to_check
        (configured both_matching living_room_conf false false)).1 = Ok tt
     ∧ _is_on (self (check_all_states spec_attributes_to_check
                       (configured both_matching living_room_conf
                          false false)).2) = Some true
     ↔ Forall (λ e, live_result spec_attributes_to_check
                      (configured both_matching living_room_conf false false)
                      e = Ok (Some true))
         (entities (self (configured both_matching living_room_conf
                            false false))).*1).
Proof.
  split; [reflexivity|].
  apply (no_restore_verdict_on_iff_all_matched spec_attributes_to_check
           (configured both_matching living_room_conf false false)).
  - reflexivity.
  - intros k. apply configured_states_dom.
Defined.

(** * Events that change nothing *)

(** X30. An event without an old state is always interesting, whatever
    the new state (if any), the tolerance and the table.  An event whose
    new state is its old state is not interesting, provided the tolerance
    is not negative and the state and the listed attributes hold values
    that can match themselves; that proviso is needed: an unchanged state
    that is a NaN is interesting at every tolerance. *)
Theorem unchanged_state_is_not_interesting table self st :
  (∀ new_state, is_interesting_update table self None new_state = Ok true)
  ∧ (fle (of_int 0) (_number_tolerance self) = true →
     well_formed (state st) && is_finite (state st) = true →
     (∀ attrs a v, dict_get (domain st) table = Some attrs → a ∈ attrs →
        dict_get a (attributes st) = Some v → self_matching a v = true) →
     is_interesting_update table self (Some st) (Some st) = Ok false)
  ∧ is_interesting_update table self
      (Some (mkState (VFloat NaN) (domain st) (attributes st)))
      (Some (mkState (VFloat NaN) (domain st) (attributes st))) = Ok true.
Proof.
  split; [done|]. split; [|done].
  intros Ht [Hwf Hfin]%andb_prop Hattrs.
  cbn. rewrite (compare_values_refl_nonneg _ _ Ht Hwf Hfin). cbn.
  destruct (dict_get (domain st) table) as [attrs|] eqn:Hdom; [|done].
  destruct (attributes_match_returns (_number_tolerance self)
              (attributes st) (attributes st) attrs) as (m & Hm & Htrue & _).
  - intros a w g Ha Hw Hg. exists true. rewrite Hg in Hw. simplify_eq.
    apply attribute_compare_self; [done|]. by apply (Hattrs attrs).
  - rewrite Hm. cbn. f_equal. apply negb_false_iff, Htrue.
    intros a w g Ha Hw Hg. rewrite Hg in Hw. simplify_eq.
    apply attribute_compare_self; [done|]. by apply (Hattrs attrs).
Qed.

Lemma unchanged_state_is_not_interesting_witness :
  is_interesting_update spec_attributes_to_check
    (self (configured both_matching living_room_conf true false))
    (Some lamp_reported) (Some lamp_reported) = Ok false.
Proof.
  apply (proj1 (proj2
           (unchanged_state_is_not_interesting spec_attributes_to_check
              (self (configured both_matching living_room_conf true false))
              lamp_reported))).
  - reflexivity.
  - reflexivity.
  - intros attrs a v [= <-] Ha Hv.
    repeat (apply elem_of_cons in Ha as [->|Ha];
            [cbn in Hv; by simplify_eq|]).
    by apply elem_of_nil in Ha.
Defined.
